(** * OpenHD SysUtils: the Wi-Fi inventory and policy core

    A shallow embedding of [src/sysutil_wifi.cpp] and the properties of its
    profile catalog, override stores, policy resolution and request
    dispatcher.

    Conventions of the embedding:
    - [std::string] is [string]; [std::string::npos] is [None];
    - [int] is [Z]: the program only compares, copies and prints its
      integers, it never does arithmetic on them;
    - [std::optional<T>] is [option T]; a null [const WifiCardProfile*] is
      [None];
    - [std::unordered_map<std::string, V>] is an association list with
      distinct keys, whose order stands for the iteration order of the
      container;
    - files, the control socket, [std::cerr] and the two globals
      [g_wifi_cards] / [g_wifi_initialized] live in an explicit [World]
      that every effectful function threads through. *)

From Stdlib Require Import Bool Arith ZArith List Lia.
From Stdlib Require Import Strings.Ascii Strings.String.
From Stdlib Require Import Numbers.DecimalString.
Import ListNotations.

Open Scope list_scope.
Open Scope string_scope.

(** ** Text utilities *)

Definition ch_newline : ascii := "010"%char.
Definition ch_quote : ascii := "034"%char.

(** [std::isspace] in the "C" locale: space and the controls 9..13. *)
Definition isspace (c : ascii) : bool :=
  let n := nat_of_ascii c in
  ((n =? 32) || ((9 <=? n) && (n <=? 13)))%nat.

(** [std::toupper] in the "C" locale: only a..z change. *)
Definition toupper (c : ascii) : ascii :=
  let n := nat_of_ascii c in
  if ((97 <=? n) && (n <=? 122))%nat then ascii_of_nat (n - 32) else c.

Definition empty (s : string) : bool :=
  match s with "" => true | String _ _ => false end.

(** Leading part of [trim_copy]: erase up to the first non-space. *)
Fixpoint ltrim (s : string) : string :=
  match s with
  | "" => ""
  | String c s' => if isspace c then ltrim s' else s
  end.

(** Trailing part of [trim_copy]: erase after the last non-space. *)
Fixpoint rtrim (s : string) : string :=
  match s with
  | "" => ""
  | String c s' =>
      match rtrim s' with
      | "" => if isspace c then "" else String c ""
      | r => String c r
      end
  end.

Definition trim_copy (value : string) : string := rtrim (ltrim value).

Fixpoint to_upper (value : string) : string :=
  match value with
  | "" => ""
  | String c s' => String (toupper c) (to_upper s')
  end.

Definition equal_after_uppercase (lhs rhs : string) : bool :=
  (to_upper lhs =? to_upper rhs)%string.

(** [s.find(needle, pos)]. *)
Definition find_from (needle : string) (pos : nat) (s : string) : option nat :=
  index pos needle s.

Definition contains_after_uppercase (haystack needle : string) : bool :=
  match find_from (to_upper needle) 0 (to_upper haystack) with
  | Some _ => true
  | None => false
  end.

(** [s.find(ch)] for a single character. *)
Fixpoint find_char (ch : ascii) (s : string) : option nat :=
  match s with
  | "" => None
  | String c s' =>
      if Ascii.eqb c ch then Some 0
      else match find_char ch s' with
           | Some n => Some (S n)
           | None => None
           end
  end.

(** [s.substr(pos)]; the program never calls it with [pos > s.size()]. *)
Fixpoint substr_from (pos : nat) (s : string) : string :=
  match pos, s with
  | 0, _ => s
  | S p, String _ s' => substr_from p s'
  | S _, "" => ""
  end.

(** [s.substr(0, n)]. *)
Fixpoint substr_to (n : nat) (s : string) : string :=
  match n, s with
  | 0, _ => ""
  | S p, String c s' => String c (substr_to p s')
  | S _, "" => ""
  end.

(** [s.rfind(p, 0) == 0]: [s] starts with [p]. *)
Definition starts_with (p s : string) : bool := prefix p s.

Definition json_escape_char (c : ascii) : string :=
  if Ascii.eqb c "\" then "\\"
  else if Ascii.eqb c ch_quote then String "\" (String ch_quote "")
  else if Ascii.eqb c ch_newline then "\n"
  else if Ascii.eqb c "013" then "\r"
  else if Ascii.eqb c "009" then "\t"
  else String c "".

Fixpoint json_escape (input : string) : string :=
  match input with
  | "" => ""
  | String c s' => json_escape_char c ++ json_escape s'
  end.

(** [std::to_string(int)]. *)
Definition to_string (value : Z) : string :=
  NilEmpty.string_of_int (Z.to_int value).

Definition to_string_if (value : Z) : string :=
  if (value <=? 0)%Z then "" else to_string value.

Definition bool_text (b : bool) : string := if b then "true" else "false".

(** The lines [std::getline] yields from a stream holding [s]: every
    newline ends a line, and a last line without newline is still read. *)
Fixpoint getlines (s : string) : list string :=
  match s with
  | "" => []
  | String c s' =>
      if Ascii.eqb c ch_newline then "" :: getlines s'
      else match getlines s' with
           | [] => [String c ""]
           | l :: ls => String c l :: ls
           end
  end.

Definition is_upper_hex (c : ascii) : bool :=
  let n := nat_of_ascii c in
  (((48 <=? n) && (n <=? 57)) || ((65 <=? n) && (n <=? 70)))%nat.

Definition is_hex (c : ascii) : bool :=
  is_upper_hex c
  || (let n := nat_of_ascii c in ((97 <=? n) && (n <=? 102))%nat).

Fixpoint all_chars (P : ascii -> bool) (s : string) : bool :=
  match s with
  | "" => true
  | String c s' => P c && all_chars P s'
  end.

Definition first_char_is (ch : ascii) (s : string) : bool :=
  match s with
  | "" => false
  | String c _ => Ascii.eqb c ch
  end.

(** ** Data model *)

Record WifiTxPowerOverride := {
  tx_power : string;
  tx_power_high : string;
  tx_power_low : string;
  card_name : string;
  power_level : string;
  profile_vendor_id : string;
  profile_device_id : string;
  profile_chipset : string
}.

(** A default-constructed record: every string empty. *)
Definition no_tx_override : WifiTxPowerOverride :=
  {| tx_power := ""; tx_power_high := ""; tx_power_low := "";
     card_name := ""; power_level := ""; profile_vendor_id := "";
     profile_device_id := ""; profile_chipset := "" |}.

Record WifiCardProfile := {
  vendor_id : string;
  device_id : string;
  chipset : string;
  name : string;
  power_mode : string;
  min_mw : Z;
  max_mw : Z;
  lowest_mw : Z;
  low_mw : Z;
  mid_mw : Z;
  high_mw : Z
}.

(** [WifiCardInfo] is declared in [sysutil_wifi.h]; these are the members
    the program reads and writes. *)
Record WifiCardInfo := {
  interface_name : string;
  driver_name : string;
  phy_index : Z;
  mac : string;
  card_vendor_id : string;
  card_device_id : string;
  detected_type : string;
  override_type : string;
  effective_type : string;
  disabled : bool;
  card_tx_power : string;
  card_tx_power_high : string;
  card_tx_power_low : string;
  card_card_name : string;
  card_power_mode : string;
  card_power_level : string;
  power_lowest : string;
  power_low : string;
  power_mid : string;
  power_high : string;
  power_min : string;
  power_max : string
}.

(** ** Collaborators

    What the program calls but does not define: the field readers of
    [sysutil_protocol.h], the regular-expression engine, [std::stoi], the
    path algebra of [std::filesystem], and the initial value the header
    gives [WifiCardInfo::phy_index]. *)
Class Platform := {
  extract_string_field : string -> string -> option string;
  extract_int_field : string -> string -> option Z;
  extract_bool_field : string -> string -> option bool;
  (** [regex_search subject pattern]: the sub-matches (whole match first)
      of the leftmost match, if any. *)
  regex_search : string -> string -> option (list string);
  stoi : string -> option Z;
  path_append : string -> string -> string;
  parent_path : string -> string;
  phy_index_default : Z
}.

(** ** [std::unordered_map<std::string, V>] *)

(** The entries of the container as a list.  The order of the list
    stands for one order of iteration; the program's own order is the
    hash order, which the source does not fix.  What a map holds is
    therefore stated key by key, through [um_find]. *)
Definition umap (V : Type) : Type := list (string * V).

Fixpoint um_find {V : Type} (k : string) (m : umap V) : option V :=
  match m with
  | [] => None
  | (k', v) :: m' => if (k' =? k)%string then Some v else um_find k m'
  end.

Fixpoint um_erase {V : Type} (k : string) (m : umap V) : umap V :=
  match m with
  | [] => []
  | (k', v) :: m' =>
      if (k' =? k)%string then um_erase k m' else (k', v) :: um_erase k m'
  end.

(** [auto& e = m[k]; e = f(e)]: a missing key is first inserted with the
    default value [dflt]. *)
Fixpoint um_update {V : Type} (dflt : V) (k : string) (f : V -> V)
    (m : umap V) : umap V :=
  match m with
  | [] => [(k, f dflt)]
  | (k', v) :: m' =>
      if (k' =? k)%string then (k', f v) :: m'
      else (k', v) :: um_update dflt k f m'
  end.

(** [m[k] = v]. *)
Definition um_set {V : Type} (k : string) (v : V) (m : umap V) : umap V :=
  um_update v k (fun _ => v) m.

Definition um_keys {V : Type} (m : umap V) : list string := map fst m.

(** ** The world the program runs in *)

Definition kOverridesPath : string :=
  "/usr/local/share/OpenHD/SysUtils/wifi_overrides.conf".
Definition kTxPowerOverridesPath : string :=
  "/usr/local/share/OpenHD/SysUtils/wifi_txpower.conf".
Definition kWifiCardsPath : string :=
  "/usr/local/share/OpenHD/SysUtils/wifi_cards.json".
Definition kOpenHdControlSocketPath : string :=
  "/run/openhd/openhd_ctrl.sock".

Record World := {
  (** what [std::ifstream] reads from a path; [None] when it cannot open *)
  fs_read : string -> option string;
  (** [std::filesystem::exists] *)
  fs_exists : string -> bool;
  (** [std::filesystem::canonical] / [weakly_canonical]; [None] on error *)
  fs_canonical : string -> option string;
  fs_weakly_canonical : string -> option string;
  (** file names under [/sys/class/net]; [None] when it cannot be listed *)
  fs_net_entries : option (list string);
  (** [create_directories] reports an error for this directory *)
  fs_mkdir_fails : string -> bool;
  (** [std::ofstream] cannot open this path *)
  fs_open_fails : string -> bool;
  (** the peer's answer line to a payload written to the control socket;
      [None] when connecting, sending or the bounded read fails *)
  ctrl_peer : string -> option string;
  (** payloads for which a connection to the control socket was made *)
  ctrl_sent : list string;
  (** lines written to [std::cerr] *)
  stderr_log : list string;
  g_wifi_cards : list WifiCardInfo;
  g_wifi_initialized : bool
}.

(** An opened [std::ofstream] replaces the file by [content]. *)
Definition fs_store (path content : string) (w : World) : World :=
  {| fs_read := fun p => if (p =? path)%string then Some content
                         else fs_read w p;
     fs_exists := fun p => (p =? path)%string || fs_exists w p;
     fs_canonical := fs_canonical w;
     fs_weakly_canonical := fs_weakly_canonical w;
     fs_net_entries := fs_net_entries w;
     fs_mkdir_fails := fs_mkdir_fails w;
     fs_open_fails := fs_open_fails w;
     ctrl_peer := ctrl_peer w;
     ctrl_sent := ctrl_sent w;
     stderr_log := stderr_log w;
     g_wifi_cards := g_wifi_cards w;
     g_wifi_initialized := g_wifi_initialized w |}.

Definition log_stderr (line : string) (w : World) : World :=
  {| fs_read := fs_read w;
     fs_exists := fs_exists w;
     fs_canonical := fs_canonical w;
     fs_weakly_canonical := fs_weakly_canonical w;
     fs_net_entries := fs_net_entries w;
     fs_mkdir_fails := fs_mkdir_fails w;
     fs_open_fails := fs_open_fails w;
     ctrl_peer := ctrl_peer w;
     ctrl_sent := ctrl_sent w;
     stderr_log := (stderr_log w ++ [line])%list;
     g_wifi_cards := g_wifi_cards w;
     g_wifi_initialized := g_wifi_initialized w |}.

Definition log_ctrl (payload : string) (w : World) : World :=
  {| fs_read := fs_read w;
     fs_exists := fs_exists w;
     fs_canonical := fs_canonical w;
     fs_weakly_canonical := fs_weakly_canonical w;
     fs_net_entries := fs_net_entries w;
     fs_mkdir_fails := fs_mkdir_fails w;
     fs_open_fails := fs_open_fails w;
     ctrl_peer := ctrl_peer w;
     ctrl_sent := (ctrl_sent w ++ [payload])%list;
     stderr_log := stderr_log w;
     g_wifi_cards := g_wifi_cards w;
     g_wifi_initialized := g_wifi_initialized w |}.

Definition set_wifi_cards (cards : list WifiCardInfo) (w : World) : World :=
  {| fs_read := fs_read w;
     fs_exists := fs_exists w;
     fs_canonical := fs_canonical w;
     fs_weakly_canonical := fs_weakly_canonical w;
     fs_net_entries := fs_net_entries w;
     fs_mkdir_fails := fs_mkdir_fails w;
     fs_open_fails := fs_open_fails w;
     ctrl_peer := ctrl_peer w;
     ctrl_sent := ctrl_sent w;
     stderr_log := stderr_log w;
     g_wifi_cards := cards;
     g_wifi_initialized := true |}.

Definition file_exists (w : World) (path : string) : bool := fs_exists w path.

Definition read_file (w : World) (path : string) : option string :=
  fs_read w path.

Definition value_or {A : Type} (o : option A) (d : A) : A :=
  match o with Some a => a | None => d end.

Definition has_value {A : Type} (o : option A) : bool :=
  match o with Some _ => true | None => false end.

(** ** The program *)

Section Program.
Context `{Platform}.

Definition dq : string := String ch_quote "".
Definition nl : string := String ch_newline "".

(** *** Control channel *)

(** [send_openhd_control]: nothing is attempted when the socket path is
    missing; otherwise one bounded request/response round trip, whose
    outcome is the world's [ctrl_peer]. *)
Definition send_openhd_control (w : World) (payload : string)
    : option string * World :=
  if negb (file_exists w kOpenHdControlSocketPath) then (None, w)
  else (ctrl_peer w payload, log_ctrl payload w).

(** *** Serialisation of the card list *)

Definition json_member (key value : string) : string :=
  "," ++ dq ++ key ++ dq ++ ":" ++ dq ++ json_escape value ++ dq.

Definition card_json (card : WifiCardInfo) : string :=
  "{" ++ dq ++ "interface" ++ dq ++ ":" ++ dq
      ++ json_escape (interface_name card) ++ dq
  ++ json_member "driver" (driver_name card)
  ++ "," ++ dq ++ "phy_index" ++ dq ++ ":" ++ to_string (phy_index card)
  ++ json_member "mac" (mac card)
  ++ json_member "vendor_id" (card_vendor_id card)
  ++ json_member "device_id" (card_device_id card)
  ++ json_member "detected_type" (detected_type card)
  ++ json_member "override_type" (override_type card)
  ++ json_member "type" (effective_type card)
  ++ json_member "tx_power" (card_tx_power card)
  ++ json_member "tx_power_high" (card_tx_power_high card)
  ++ json_member "tx_power_low" (card_tx_power_low card)
  ++ json_member "card_name" (card_card_name card)
  ++ json_member "power_mode" (card_power_mode card)
  ++ json_member "power_level" (card_power_level card)
  ++ json_member "power_lowest" (power_lowest card)
  ++ json_member "power_low" (power_low card)
  ++ json_member "power_mid" (power_mid card)
  ++ json_member "power_high" (power_high card)
  ++ json_member "power_min" (power_min card)
  ++ json_member "power_max" (power_max card)
  ++ "," ++ dq ++ "disabled" ++ dq ++ ":" ++ bool_text (disabled card)
  ++ "}".

Fixpoint cards_json_items (first : bool) (cards : list WifiCardInfo) : string :=
  match cards with
  | [] => ""
  | card :: rest =>
      (if first then "" else ",") ++ card_json card
      ++ cards_json_items false rest
  end.

Definition append_cards_json (out : string) (cards : list WifiCardInfo)
    : string :=
  out ++ "[" ++ cards_json_items true cards ++ "]".

(** *** Type-override store *)

Definition load_overrides_line (overrides : umap string) (raw : string)
    : umap string :=
  let line := trim_copy raw in
  if empty line || first_char_is "#" line then overrides
  else
    match find_char "=" line with
    | None => overrides
    | Some pos =>
        let iface := trim_copy (substr_to pos line) in
        let type := trim_copy (substr_from (S pos) line) in
        if empty iface || empty type then overrides
        else um_set iface type overrides
    end.

Definition load_overrides (w : World) : umap string :=
  match fs_read w kOverridesPath with
  | None => []
  | Some content => fold_left load_overrides_line (getlines content) []
  end.

(** Both writers: create the parent directory, open the stream, write the
    whole text.  A stream that opened is taken to accept the text. *)
Definition write_text_file (w : World) (path text : string) : bool * World :=
  if fs_mkdir_fails w (parent_path path) then (false, w)
  else if fs_open_fails w path then (false, w)
  else (true, fs_store path text w).

Definition overrides_text (data : umap string) : string :=
  "# OpenHD SysUtils Wi-Fi overrides" ++ nl
  ++ String.concat ""
       (map (fun entry => fst entry ++ "=" ++ snd entry ++ nl) data).

Definition write_overrides (w : World) (data : umap string) : bool * World :=
  write_text_file w kOverridesPath (overrides_text data).

Definition has_tx_power_values (entry : WifiTxPowerOverride) : bool :=
  negb (empty (tx_power entry)) || negb (empty (tx_power_high entry))
  || negb (empty (tx_power_low entry)) || negb (empty (card_name entry))
  || negb (empty (power_level entry))
  || negb (empty (profile_vendor_id entry))
  || negb (empty (profile_device_id entry))
  || negb (empty (profile_chipset entry)).

(** *** Brace scanners *)

Record Scan := {
  in_string : bool;
  escape : bool;
  depth : nat;
  obj_start : option nat
}.

Definition scan_init : Scan :=
  {| in_string := false; escape := false; depth := 0; obj_start := None |}.

(** One step inside a string literal. *)
Definition scan_in_string (st : Scan) (ch : ascii) : Scan :=
  if escape st then
    {| in_string := true; escape := false; depth := depth st;
       obj_start := obj_start st |}
  else if Ascii.eqb ch "\" then
    {| in_string := true; escape := true; depth := depth st;
       obj_start := obj_start st |}
  else if Ascii.eqb ch ch_quote then
    {| in_string := false; escape := false; depth := depth st;
       obj_start := obj_start st |}
  else st.

Definition scan_open_string (st : Scan) : Scan :=
  {| in_string := true; escape := escape st; depth := depth st;
     obj_start := obj_start st |}.

Definition scan_open_brace (st : Scan) (pos : nat) : Scan :=
  {| in_string := false; escape := escape st; depth := S (depth st);
     obj_start := if (depth st =? 0)%nat then Some pos else obj_start st |}.

(** The loop of [extract_array_objects] from position [pos], [rest] being
    the text from there on. *)
Fixpoint scan_array (content rest : string) (pos : nat) (st : Scan)
    (objects : list string) : list string :=
  match rest with
  | "" => objects
  | String ch rest' =>
      if in_string st then
        scan_array content rest' (S pos) (scan_in_string st ch) objects
      else if Ascii.eqb ch ch_quote then
        scan_array content rest' (S pos) (scan_open_string st) objects
      else if Ascii.eqb ch "{" then
        scan_array content rest' (S pos) (scan_open_brace st pos) objects
      else if Ascii.eqb ch "}" then
        match depth st with
        | 0 => scan_array content rest' (S pos) st objects
        | S d =>
            match d, obj_start st with
            | 0, Some start =>
                scan_array content rest' (S pos)
                  {| in_string := false; escape := escape st; depth := 0;
                     obj_start := None |}
                  (objects ++ [substring start (pos - start + 1) content])%list
            | _, _ =>
                scan_array content rest' (S pos)
                  {| in_string := false; escape := escape st; depth := d;
                     obj_start := obj_start st |}
                  objects
            end
        end
      else if Ascii.eqb ch "]" && (depth st =? 0)%nat then objects
      else scan_array content rest' (S pos) st objects
  end.

Definition extract_array_objects (content key : string) : list string :=
  let needle := dq ++ key ++ dq in
  match find_from needle 0 content with
  | None => []
  | Some key_pos =>
      match find_from ":" (key_pos + length needle) content with
      | None => []
      | Some colon_pos =>
          match find_from "[" (colon_pos + 1) content with
          | None => []
          | Some array_pos =>
              scan_array content (substr_from (array_pos + 1) content)
                (array_pos + 1) scan_init []
          end
      end
  end.

(** The loop of [extract_object_field]. *)
Fixpoint scan_object (content rest : string) (pos : nat) (st : Scan)
    : option string :=
  match rest with
  | "" => None
  | String ch rest' =>
      if in_string st then
        scan_object content rest' (S pos) (scan_in_string st ch)
      else if Ascii.eqb ch ch_quote then
        scan_object content rest' (S pos) (scan_open_string st)
      else if Ascii.eqb ch "{" then
        scan_object content rest' (S pos) (scan_open_brace st pos)
      else if Ascii.eqb ch "}" then
        match depth st with
        | 0 => scan_object content rest' (S pos) st
        | S d =>
            match d, obj_start st with
            | 0, Some start => Some (substring start (pos - start + 1) content)
            | _, _ =>
                scan_object content rest' (S pos)
                  {| in_string := false; escape := escape st; depth := d;
                     obj_start := obj_start st |}
            end
        end
      else scan_object content rest' (S pos) st
  end.

Definition extract_object_field (content key : string) : option string :=
  let needle := dq ++ key ++ dq in
  match find_from needle 0 content with
  | None => None
  | Some key_pos =>
      match find_from ":" (key_pos + length needle) content with
      | None => None
      | Some colon_pos =>
          match find_from "{" (colon_pos + 1) content with
          | None => None
          | Some obj_pos =>
              scan_object content (substr_from obj_pos content) obj_pos
                scan_init
          end
      end
  end.

(** *** Identifier normalisation *)

Definition normalize_id (raw : string) : string :=
  let value := trim_copy raw in
  if empty value then ""
  else if starts_with "0x" value || starts_with "0X" value then
    "0x" ++ to_upper (substr_from 2 value)
  else "0x" ++ to_upper value.

Definition normalize_chipset (value : string) : string :=
  to_upper (trim_copy value).

(** *** Profile catalog *)

Definition default_wifi_card_profiles : list WifiCardProfile :=
  [ {| vendor_id := normalize_id "0x02D0";
       device_id := normalize_id "0xA9A6";
       chipset := normalize_chipset "BROADCOM";
       name := "Raspberry Internal";
       power_mode := "FIXED";
       min_mw := 0; max_mw := 0; lowest_mw := 0; low_mw := 0;
       mid_mw := 0; high_mw := 0 |};
    {| vendor_id := normalize_id "0x0BDA";
       device_id := normalize_id "0xA81A";
       chipset := normalize_chipset "OPENHD_RTL_88X2EU";
       name := "LB-Link 8812eu";
       power_mode := "MW";
       min_mw := 25; max_mw := 1000; lowest_mw := 25; low_mw := 100;
       mid_mw := 500; high_mw := 1000 |} ].

(** The lambda [first_positive] of [load_wifi_card_profiles]. *)
Fixpoint first_positive (values : list Z) : Z :=
  match values with
  | [] => 0
  | value :: rest => if (0 <? value)%Z then value else first_positive rest
  end.

(** A figure read from the nested [levels_mw] object replaces a flat
    figure that is not positive. *)
Definition nested_figure (levels : option string) (key : string) (flat : Z)
    : Z :=
  match levels with
  | Some lv =>
      if (flat <=? 0)%Z then value_or (extract_int_field lv key) 0%Z
      else flat
  | None => flat
  end.

(** The body of the loop of [load_wifi_card_profiles]: the profile one
    catalog object yields, [None] when the object is skipped. *)
Definition parse_profile_object (object : string) : option WifiCardProfile :=
  match extract_string_field object "vendor_id",
        extract_string_field object "device_id" with
  | Some vendor, Some device =>
      let p_vendor := normalize_id vendor in
      let p_device := normalize_id device in
      let p_chipset :=
        normalize_chipset
          (value_or (extract_string_field object "chipset") "") in
      let p_name := value_or (extract_string_field object "name") "" in
      let p_mode :=
        to_upper (value_or (extract_string_field object "power_mode") "mw") in
      if (p_mode =? "FIXED")%string then
        Some {| vendor_id := p_vendor; device_id := p_device;
                chipset := p_chipset; name := p_name; power_mode := p_mode;
                min_mw := 0; max_mw := 0; lowest_mw := 0; low_mw := 0;
                mid_mw := 0; high_mw := 0 |}
      else
        let min0 := value_or (extract_int_field object "min_mw") 0%Z in
        let max0 := value_or (extract_int_field object "max_mw") 0%Z in
        let lowest0 := value_or (extract_int_field object "lowest") 0%Z in
        let low0 := value_or (extract_int_field object "low") 0%Z in
        let mid0 := value_or (extract_int_field object "mid") 0%Z in
        let high0 := value_or (extract_int_field object "high") 0%Z in
        let levels := extract_object_field object "levels_mw" in
        let lowest1 := nested_figure levels "lowest" lowest0 in
        let low1 := nested_figure levels "low" low0 in
        let mid1 := nested_figure levels "mid" mid0 in
        let high1 := nested_figure levels "high" high0 in
        let min2 :=
          if (min0 <=? 0)%Z then first_positive [lowest1; low1; mid1; high1]
          else min0 in
        let max2 :=
          if (max0 <=? 0)%Z then first_positive [high1; mid1; low1; lowest1]
          else max0 in
        let lowest2 :=
          if (lowest1 <=? 0)%Z then first_positive [low1; mid1; high1; min2]
          else lowest1 in
        let low2 :=
          if (low1 <=? 0)%Z then first_positive [lowest2; mid1; high1; min2]
          else low1 in
        let mid2 :=
          if (mid1 <=? 0)%Z then first_positive [low2; high1; max2]
          else mid1 in
        let high2 :=
          if (high1 <=? 0)%Z then first_positive [max2; mid2; low2; lowest2]
          else high1 in
        Some {| vendor_id := p_vendor; device_id := p_device;
                chipset := p_chipset; name := p_name; power_mode := p_mode;
                min_mw := min2; max_mw := max2; lowest_mw := lowest2;
                low_mw := low2; mid_mw := mid2; high_mw := high2 |}
  | _, _ => None
  end.

Definition parse_profile_objects (objects : list string)
    : list WifiCardProfile :=
  flat_map (fun object =>
              match parse_profile_object object with
              | Some profile => [profile]
              | None => []
              end) objects.

Definition load_wifi_card_profiles (w : World) : list WifiCardProfile :=
  match read_file w kWifiCardsPath with
  | None => default_wifi_card_profiles
  | Some content =>
      match extract_array_objects content "cards" with
      | [] => default_wifi_card_profiles
      | objects =>
          match parse_profile_objects objects with
          | [] => default_wifi_card_profiles
          | profiles => profiles
          end
      end
  end.

Definition first_unset {A : Type} (slot : option A) (a : A) : option A :=
  match slot with
  | Some _ => slot
  | None => Some a
  end.

(** The loop of [find_wifi_profile] with its two candidates. *)
Fixpoint find_wifi_profile_from (profiles : list WifiCardProfile)
    (target_vendor target_device target_chipset : string)
    (vendor_device_match generic_match : option WifiCardProfile)
    : option WifiCardProfile :=
  match profiles with
  | [] =>
      match generic_match with
      | Some g => Some g
      | None => vendor_device_match
      end
  | profile :: rest =>
      if equal_after_uppercase (vendor_id profile) target_vendor
         && equal_after_uppercase (device_id profile) target_device then
        if empty (chipset profile) then
          find_wifi_profile_from rest target_vendor target_device
            target_chipset (first_unset vendor_device_match profile)
            (first_unset generic_match profile)
        else if equal_after_uppercase (chipset profile) target_chipset then
          Some profile
        else
          find_wifi_profile_from rest target_vendor target_device
            target_chipset (first_unset vendor_device_match profile)
            generic_match
      else
        find_wifi_profile_from rest target_vendor target_device
          target_chipset vendor_device_match generic_match
  end.

Definition find_wifi_profile (profiles : list WifiCardProfile)
    (target_vendor target_device target_chipset : string)
    : option WifiCardProfile :=
  find_wifi_profile_from profiles target_vendor target_device target_chipset
    None None.

(** *** Power-override store *)

Definition set_tx_power (v : string) (e : WifiTxPowerOverride) :=
  {| tx_power := v; tx_power_high := tx_power_high e;
     tx_power_low := tx_power_low e; card_name := card_name e;
     power_level := power_level e; profile_vendor_id := profile_vendor_id e;
     profile_device_id := profile_device_id e;
     profile_chipset := profile_chipset e |}.

Definition set_tx_power_high (v : string) (e : WifiTxPowerOverride) :=
  {| tx_power := tx_power e; tx_power_high := v;
     tx_power_low := tx_power_low e; card_name := card_name e;
     power_level := power_level e; profile_vendor_id := profile_vendor_id e;
     profile_device_id := profile_device_id e;
     profile_chipset := profile_chipset e |}.

Definition set_tx_power_low (v : string) (e : WifiTxPowerOverride) :=
  {| tx_power := tx_power e; tx_power_high := tx_power_high e;
     tx_power_low := v; card_name := card_name e;
     power_level := power_level e; profile_vendor_id := profile_vendor_id e;
     profile_device_id := profile_device_id e;
     profile_chipset := profile_chipset e |}.

Definition set_card_name (v : string) (e : WifiTxPowerOverride) :=
  {| tx_power := tx_power e; tx_power_high := tx_power_high e;
     tx_power_low := tx_power_low e; card_name := v;
     power_level := power_level e; profile_vendor_id := profile_vendor_id e;
     profile_device_id := profile_device_id e;
     profile_chipset := profile_chipset e |}.

Definition set_power_level (v : string) (e : WifiTxPowerOverride) :=
  {| tx_power := tx_power e; tx_power_high := tx_power_high e;
     tx_power_low := tx_power_low e; card_name := card_name e;
     power_level := v; profile_vendor_id := profile_vendor_id e;
     profile_device_id := profile_device_id e;
     profile_chipset := profile_chipset e |}.

Definition set_profile_vendor_id (v : string) (e : WifiTxPowerOverride) :=
  {| tx_power := tx_power e; tx_power_high := tx_power_high e;
     tx_power_low := tx_power_low e; card_name := card_name e;
     power_level := power_level e; profile_vendor_id := v;
     profile_device_id := profile_device_id e;
     profile_chipset := profile_chipset e |}.

Definition set_profile_device_id (v : string) (e : WifiTxPowerOverride) :=
  {| tx_power := tx_power e; tx_power_high := tx_power_high e;
     tx_power_low := tx_power_low e; card_name := card_name e;
     power_level := power_level e; profile_vendor_id := profile_vendor_id e;
     profile_device_id := v;
     profile_chipset := profile_chipset e |}.

Definition set_profile_chipset (v : string) (e : WifiTxPowerOverride) :=
  {| tx_power := tx_power e; tx_power_high := tx_power_high e;
     tx_power_low := tx_power_low e; card_name := card_name e;
     power_level := power_level e; profile_vendor_id := profile_vendor_id e;
     profile_device_id := profile_device_id e;
     profile_chipset := v |}.

(** The [if / else if] chain on [field_upper]; an unknown field leaves
    the entry as it is. *)
Definition assign_tx_field (field_upper value : string)
    (entry : WifiTxPowerOverride) : WifiTxPowerOverride :=
  if (field_upper =? "TX_POWER")%string then set_tx_power value entry
  else if (field_upper =? "TX_POWER_HIGH")%string then
    set_tx_power_high value entry
  else if (field_upper =? "TX_POWER_LOW")%string then
    set_tx_power_low value entry
  else if (field_upper =? "CARD_NAME")%string then set_card_name value entry
  else if (field_upper =? "POWER_LEVEL")%string then
    set_power_level value entry
  else if (field_upper =? "PROFILE_VENDOR_ID")%string then
    set_profile_vendor_id (normalize_id value) entry
  else if (field_upper =? "PROFILE_DEVICE_ID")%string then
    set_profile_device_id (normalize_id value) entry
  else if (field_upper =? "PROFILE_CHIPSET")%string then
    set_profile_chipset (normalize_chipset value) entry
  else entry.

Definition load_tx_power_line (overrides : umap WifiTxPowerOverride)
    (raw : string) : umap WifiTxPowerOverride :=
  let line := trim_copy raw in
  if empty line || first_char_is "#" line then overrides
  else
    match find_char "=" line with
    | None => overrides
    | Some pos =>
        let key := trim_copy (substr_to pos line) in
        let value := trim_copy (substr_from (S pos) line) in
        if empty key then overrides
        else
          match find_char "." key with
          | None => overrides
          | Some dot =>
              let iface := trim_copy (substr_to dot key) in
              let field := trim_copy (substr_from (S dot) key) in
              if empty iface || empty field then overrides
              else
                um_update no_tx_override iface
                  (assign_tx_field (to_upper field) value) overrides
          end
    end.

Definition load_tx_power_text (content : string) : umap WifiTxPowerOverride :=
  fold_left load_tx_power_line (getlines content) [].

Definition load_tx_power_overrides (w : World) : umap WifiTxPowerOverride :=
  match fs_read w kTxPowerOverridesPath with
  | None => []
  | Some content => load_tx_power_text content
  end.

(** [if (!value.empty()) file << iface << "." << field << "=" << value] *)
Definition tx_line (iface field value : string) : string :=
  if empty value then "" else iface ++ "." ++ field ++ "=" ++ value ++ nl.

(** What one iteration of the loop of [write_tx_power_overrides] sends to
    the stream. *)
Definition tx_entry_text (entry : string * WifiTxPowerOverride) : string :=
  let iface := fst entry in
  let values := snd entry in
  if negb (has_tx_power_values values) then ""
  else
    tx_line iface "card_name" (card_name values)
    ++ tx_line iface "power_level" (power_level values)
    ++ tx_line iface "profile_vendor_id" (profile_vendor_id values)
    ++ tx_line iface "profile_device_id" (profile_device_id values)
    ++ tx_line iface "profile_chipset" (profile_chipset values)
    ++ tx_line iface "tx_power" (tx_power values)
    ++ tx_line iface "tx_power_high" (tx_power_high values)
    ++ tx_line iface "tx_power_low" (tx_power_low values).

Definition tx_power_text (data : umap WifiTxPowerOverride) : string :=
  "# OpenHD SysUtils Wi-Fi TX power overrides" ++ nl
  ++ String.concat "" (map tx_entry_text data).

Definition write_tx_power_overrides (w : World)
    (data : umap WifiTxPowerOverride) : bool * World :=
  write_text_file w kTxPowerOverridesPath (tx_power_text data).

(** *** Identity extraction *)

Definition driver_to_type (driver : string) : string :=
  if equal_after_uppercase driver "rtl88xxau_ohd" then "OPENHD_RTL_88X2AU"
  else if equal_after_uppercase driver "rtl88x2au_ohd" then
    "OPENHD_RTL_88X2CU"
  else if equal_after_uppercase driver "rtl88x2bu_ohd" then
    "OPENHD_RTL_88X2BU"
  else if equal_after_uppercase driver "rtl88x2eu_ohd" then
    "OPENHD_RTL_88X2EU"
  else if equal_after_uppercase driver "cnss_pci" then "QUALCOMM"
  else if equal_after_uppercase driver "rtl8852bu_ohd" then
    "OPENHD_RTL_8852BU"
  else if equal_after_uppercase driver "rtl88x2cu_ohd" then
    "OPENHD_RTL_88X2CU"
  else if contains_after_uppercase driver "ath9k" then "ATHEROS"
  else if contains_after_uppercase driver "rt2800usb" then "RALINK"
  else if contains_after_uppercase driver "iwlwifi" then "INTEL"
  else if contains_after_uppercase driver "brcmfmac"
          || contains_after_uppercase driver "bcmsdh_sdmmc" then "BROADCOM"
  else if contains_after_uppercase driver "aicwf_sdio" then "AIC"
  else if contains_after_uppercase driver "88xxau" then "RTL_88X2AU"
  else if contains_after_uppercase driver "rtw_8822bu" then "RTL_88X2BU"
  else if contains_after_uppercase driver "mt7921u" then "MT_7921u"
  else "UNKNOWN".

Definition is_openhd_wifibroadcast_type (type_name : string) : bool :=
  let type_upper := to_upper (trim_copy type_name) in
  if empty type_upper then false else starts_with "OPENHD_" type_upper.

Definition extract_driver_name (uevent : string) : option string :=
  match regex_search uevent "DRIVER=([\w]+)" with
  | Some [_; driver] => Some driver
  | _ => None
  end.

Definition read_int_file (w : World) (path : string) : option Z :=
  match read_file w path with
  | None => None
  | Some content =>
      let trimmed := trim_copy content in
      if empty trimmed then None else stoi trimmed
  end.

(** The two assignments under a successful match: a field already known
    is kept. *)
Definition fill_pair (vendor device v d : string) : string * string :=
  (if empty vendor then normalize_id v else vendor,
   if empty device then normalize_id d else device).

Definition fill_vendor_device_from_uevent (uevent vendor device : string)
    : string * string :=
  if negb (empty vendor) && negb (empty device) then (vendor, device)
  else
    match regex_search uevent "PCI_ID=([0-9A-Fa-f]{4}):([0-9A-Fa-f]{4})" with
    | Some [_; v; d] => fill_pair vendor device v d
    | _ =>
        match regex_search uevent
                "PRODUCT=([0-9A-Fa-f]{4})/([0-9A-Fa-f]{4})/" with
        | Some [_; v; d] => fill_pair vendor device v d
        | _ => (vendor, device)
        end
    end.

Definition fill_vendor_device_from_modalias (modalias vendor device : string)
    : string * string :=
  if negb (empty vendor) && negb (empty device) then (vendor, device)
  else
    match regex_search modalias "usb:v([0-9A-Fa-f]{4})p([0-9A-Fa-f]{4})" with
    | Some [_; v; d] => fill_pair vendor device v d
    | _ =>
        match regex_search modalias
                "pci:v([0-9A-Fa-f]{4})d([0-9A-Fa-f]{4})" with
        | Some [_; v; d] => fill_pair vendor device v d
        | _ => (vendor, device)
        end
    end.

(** [if (field.empty() && file_exists(path)) field = normalize_id(...)] *)
Definition fill_from_file (w : World) (field path : string) : string :=
  if empty field && file_exists w path then
    normalize_id (value_or (read_file w path) "")
  else field.

(** The [for (depth = 0; depth < 6; ++depth)] walk towards the root;
    [levels] counts the iterations left. *)
Fixpoint sysfs_walk (w : World) (levels : nat) (current vendor device : string)
    : string * string :=
  match levels with
  | 0 => (vendor, device)
  | S levels' =>
      if empty current then (vendor, device)
      else
        let vendor1 := fill_from_file w vendor (path_append current "vendor") in
        let device1 := fill_from_file w device (path_append current "device") in
        let vendor2 :=
          fill_from_file w vendor1 (path_append current "idVendor") in
        let device2 :=
          fill_from_file w device1 (path_append current "idProduct") in
        let uevent_path := path_append current "uevent" in
        let '(vendor3, device3) :=
          if file_exists w uevent_path then
            fill_vendor_device_from_uevent
              (value_or (read_file w uevent_path) "") vendor2 device2
          else (vendor2, device2) in
        let modalias_path := path_append current "modalias" in
        let '(vendor4, device4) :=
          if file_exists w modalias_path then
            fill_vendor_device_from_modalias
              (value_or (read_file w modalias_path) "") vendor3 device3
          else (vendor3, device3) in
        if negb (empty vendor4) && negb (empty device4) then
          (vendor4, device4)
        else sysfs_walk w levels' (parent_path current) vendor4 device4
  end.

Definition fill_vendor_device_from_sysfs (w : World)
    (device_path vendor device : string) : string * string :=
  if empty device_path then (vendor, device)
  else
    let current :=
      match fs_canonical w device_path with
      | Some resolved => resolved
      | None =>
          match fs_weakly_canonical w device_path with
          | Some weak => weak
          | None => device_path
          end
      end in
    sysfs_walk w 6 current vendor device.

(** *** Policy resolution *)

(** Lines 939-966 of [build_wifi_card]: driver name, phy index, MAC and
    vendor/device of an interface, as sysfs shows them. *)
Definition card_identity (w : World) (iface : string)
    : string * Z * string * (string * string) :=
  let device_path0 := "/sys/class/net/" ++ iface ++ "/device" in
  let device_path :=
    if (iface =? "ath0")%string
       && negb (file_exists w (device_path0 ++ "/uevent"))
    then "/sys/class/net/wifi0/device" else device_path0 in
  let uevent_path := device_path ++ "/uevent" in
  let uevent := value_or (read_file w uevent_path) "" in
  let driver :=
    if negb (empty uevent) then value_or (extract_driver_name uevent) ""
    else "" in
  let phy :=
    value_or
      (read_int_file w ("/sys/class/net/" ++ iface ++ "/phy80211/index"))
      phy_index_default in
  let mac_text :=
    trim_copy
      (value_or (read_file w ("/sys/class/net/" ++ iface ++ "/address")) "") in
  let ids := fill_vendor_device_from_sysfs w device_path "" "" in
  let ids' :=
    if negb (empty uevent) then
      fill_vendor_device_from_uevent uevent (fst ids) (snd ids)
    else ids in
  (driver, phy, mac_text, ids').

(** Lines 983-1010: the profile found for the detected identity, replaced
    by the pinned one when the override record pins a profile that the
    catalog knows. *)
Definition select_profile (profiles : list WifiCardProfile)
    (vendor device detected : string) (tx_it : option WifiTxPowerOverride)
    : option WifiCardProfile :=
  let profile := find_wifi_profile profiles vendor device detected in
  match tx_it with
  | Some override_profile =>
      if negb (empty (profile_vendor_id override_profile))
         && negb (empty (profile_device_id override_profile)) then
        let override_chipset :=
          if empty (profile_chipset override_profile) then detected
          else profile_chipset override_profile in
        let override_match :=
          match find_wifi_profile profiles
                  (profile_vendor_id override_profile)
                  (profile_device_id override_profile) override_chipset with
          | Some m => Some m
          | None =>
              find_wifi_profile profiles
                (profile_vendor_id override_profile)
                (profile_device_id override_profile) ""
          end in
        match override_match with
        | Some m => Some m
        | None => profile
        end
      else profile
  | None => profile
  end.

(** The profile [build_wifi_card] ends up with for an interface. *)
Definition resolved_profile (w : World) (iface : string)
    (tx_overrides : umap WifiTxPowerOverride)
    (profiles : list WifiCardProfile) : option WifiCardProfile :=
  let '(driver, _, _, (vendor, device)) := card_identity w iface in
  select_profile profiles vendor device (driver_to_type driver)
    (um_find iface tx_overrides).

(** The milliwatt figure a symbolic level selects. *)
Definition selected_mw (profile : WifiCardProfile) (level : string) : Z :=
  if (level =? "LOWEST")%string then lowest_mw profile
  else if (level =? "LOW")%string then low_mw profile
  else if (level =? "MID")%string then mid_mw profile
  else if (level =? "HIGH")%string then high_mw profile
  else 0%Z.

Definition build_wifi_card (w : World) (iface : string)
    (overrides : umap string) (tx_overrides : umap WifiTxPowerOverride)
    (profiles : list WifiCardProfile) : WifiCardInfo :=
  let '(driver, phy, mac_text, (vendor, device)) := card_identity w iface in
  let detected := driver_to_type driver in
  let override_it := um_find iface overrides in
  let override_text := value_or override_it "" in
  let is_disabled :=
    match override_it with
    | Some o => equal_after_uppercase o "DISABLED"
    | None => false
    end in
  let effective :=
    match override_it with
    | Some o => if equal_after_uppercase o "DISABLED" then detected else o
    | None => detected
    end in
  let tx_it := um_find iface tx_overrides in
  let profile := select_profile profiles vendor device detected tx_it in
  let profile_fixed :=
    match profile with
    | Some p => (to_upper (power_mode p) =? "FIXED")%string
    | None => false
    end in
  (* if (profile) { ... } *)
  let name0 := "" in
  let name1 :=
    match profile with
    | Some p => if empty name0 then name p else name0
    | None => name0
    end in
  let figure (f : WifiCardProfile -> Z) :=
    match profile with
    | Some p => to_string_if (f p)
    | None => ""
    end in
  (* if (tx_it != tx_overrides.end()) { ... } *)
  let tx1 := match tx_it with Some o => tx_power o | None => "" end in
  let high1 := match tx_it with Some o => tx_power_high o | None => "" end in
  let low1 := match tx_it with Some o => tx_power_low o | None => "" end in
  let name2 :=
    match tx_it with
    | Some o => if negb (empty (card_name o)) then card_name o else name1
    | None => name1
    end in
  let level1 := match tx_it with Some o => power_level o | None => "" end in
  let level2 := if negb (empty level1) then to_upper level1 else level1 in
  let tx2 :=
    match profile with
    | Some p =>
        if negb (empty level2) && negb profile_fixed then
          if (0 <? selected_mw p level2)%Z then
            to_string (selected_mw p level2)
          else tx1
        else tx1
    | None => tx1
    end in
  let level3 := if profile_fixed then "FIXED" else level2 in
  let tx3 := if profile_fixed then "" else tx2 in
  let high2 :=
    match profile with
    | Some p =>
        if empty high1 && (0 <? high_mw p)%Z then to_string (high_mw p)
        else high1
    | None => high1
    end in
  let low2 :=
    match profile with
    | Some p =>
        if empty low1 && (0 <? lowest_mw p)%Z then to_string (lowest_mw p)
        else low1
    | None => low1
    end in
  {| interface_name := iface;
     driver_name := driver;
     phy_index := phy;
     mac := mac_text;
     card_vendor_id := vendor;
     card_device_id := device;
     detected_type := detected;
     override_type := override_text;
     effective_type := effective;
     disabled := is_disabled;
     card_tx_power := tx3;
     card_tx_power_high := high2;
     card_tx_power_low := low2;
     card_card_name := name2;
     card_power_mode :=
       match profile with Some p => power_mode p | None => "" end;
     card_power_level := level3;
     power_lowest := figure lowest_mw;
     power_low := figure low_mw;
     power_mid := figure mid_mw;
     power_high := figure high_mw;
     power_min := figure min_mw;
     power_max := figure max_mw |}.

Definition detect_wifi_cards (w : World) (overrides : umap string)
    (tx_overrides : umap WifiTxPowerOverride)
    (profiles : list WifiCardProfile) : list WifiCardInfo :=
  match fs_net_entries w with
  | None => []
  | Some entries =>
      flat_map
        (fun iface =>
           if fs_exists w
                (path_append (path_append "/sys/class/net" iface) "phy80211")
           then [build_wifi_card w iface overrides tx_overrides profiles]
           else [])
        entries
  end.

Definition refresh_wifi_info (w : World) : World :=
  let overrides := load_overrides w in
  let tx_overrides := load_tx_power_overrides w in
  let profiles := load_wifi_card_profiles w in
  set_wifi_cards (detect_wifi_cards w overrides tx_overrides profiles) w.

Definition init_wifi_info (w : World) : World := refresh_wifi_info w.

(** [wifi_cards()]: the list, built on first use. *)
Definition wifi_cards (w : World) : list WifiCardInfo * World :=
  let w' := if g_wifi_initialized w then w else refresh_wifi_info w in
  (g_wifi_cards w', w').

Definition has_openhd_wifibroadcast_cards (w : World) : bool * World :=
  let '(cards, w') := wifi_cards w in
  (existsb (fun card => negb (disabled card)
                        && is_openhd_wifibroadcast_type (effective_type card))
     cards, w').

(** *** Request dispatcher *)

Definition is_type (line kind : string) : bool :=
  match extract_string_field line "type" with
  | Some type => (type =? kind)%string
  | None => false
  end.

Definition is_wifi_request (line : string) : bool :=
  is_type line "sysutil.wifi.request".

Definition json_open (kind : string) (ok : bool) : string :=
  "{" ++ dq ++ "type" ++ dq ++ ":" ++ dq ++ kind ++ dq
  ++ "," ++ dq ++ "ok" ++ dq ++ ":" ++ bool_text ok.

Definition build_wifi_response (w : World) : string * World :=
  let '(cards, w') := wifi_cards w in
  (append_cards_json
     (json_open "sysutil.wifi.response" true ++ "," ++ dq ++ "cards" ++ dq
      ++ ":") cards ++ "}" ++ nl, w').

Definition is_wifi_update_request (line : string) : bool :=
  is_type line "sysutil.wifi.update".

(** [if (field.has_value()) entry.member = *field] *)
Definition copy_field (field : option string)
    (set : string -> WifiTxPowerOverride -> WifiTxPowerOverride)
    (entry : WifiTxPowerOverride) : WifiTxPowerOverride :=
  match field with
  | Some v => set v entry
  | None => entry
  end.

(** The [power_level] branch: store the level (or clear it on empty or
    AUTO), then clear the three raw power fields. *)
Definition merge_power_level (power_level_field : option string)
    (entry : WifiTxPowerOverride) : WifiTxPowerOverride :=
  match power_level_field with
  | Some level =>
      let entry1 :=
        if empty level || equal_after_uppercase level "AUTO" then
          set_power_level "" entry
        else set_power_level (to_upper (trim_copy level)) entry in
      set_tx_power_low "" (set_tx_power_high "" (set_tx_power "" entry1))
  | None => entry
  end.

(** The profile-pin branch. *)
Definition merge_profile_pin (vendor_field device_field chipset_field
    : option string) (entry : WifiTxPowerOverride) : WifiTxPowerOverride :=
  if has_value vendor_field || has_value device_field
     || has_value chipset_field then
    let vendor_value := value_or vendor_field "" in
    let device_value := value_or device_field "" in
    let chipset_value := value_or chipset_field "" in
    if empty vendor_value || empty device_value then
      set_profile_chipset ""
        (set_profile_device_id "" (set_profile_vendor_id "" entry))
    else
      set_profile_chipset (normalize_chipset chipset_value)
        (set_profile_device_id (normalize_id device_value)
           (set_profile_vendor_id (normalize_id vendor_value) entry))
  else entry.

(** Lines 1187-1225 of [handle_wifi_update]: the fields of the request
    line merged into the record of the interface, in statement order. *)
Definition merge_tx_fields (line : string) (entry : WifiTxPowerOverride)
    : WifiTxPowerOverride :=
  let entry1 :=
    copy_field (extract_string_field line "tx_power") set_tx_power entry in
  let entry2 :=
    copy_field (extract_string_field line "tx_power_high") set_tx_power_high
      entry1 in
  let entry3 :=
    copy_field (extract_string_field line "tx_power_low") set_tx_power_low
      entry2 in
  let entry4 :=
    copy_field (extract_string_field line "card_name") set_card_name entry3 in
  let entry5 :=
    merge_power_level (extract_string_field line "power_level") entry4 in
  merge_profile_pin (extract_string_field line "profile_vendor_id")
    (extract_string_field line "profile_device_id")
    (extract_string_field line "profile_chipset") entry5.

Definition has_tx_fields (line : string) : bool :=
  has_value (extract_string_field line "tx_power")
  || has_value (extract_string_field line "tx_power_high")
  || has_value (extract_string_field line "tx_power_low")
  || has_value (extract_string_field line "card_name")
  || has_value (extract_string_field line "power_level")
  || has_value (extract_string_field line "profile_vendor_id")
  || has_value (extract_string_field line "profile_device_id")
  || has_value (extract_string_field line "profile_chipset").

(** Lines 1186-1228: the power-override map after the merge and the
    removal of a record left without values. *)
Definition set_tx_overrides (line iface : string)
    (tx_overrides : umap WifiTxPowerOverride) : umap WifiTxPowerOverride :=
  let merged :=
    um_update no_tx_override iface (merge_tx_fields line) tx_overrides in
  if negb (has_tx_power_values (value_or (um_find iface merged)
                                  no_tx_override))
  then um_erase iface merged else merged.

(** The [set] branch for a non-empty interface: the new [ok] and world. *)
Definition wifi_update_set (w : World) (line iface : string)
    (overrides : umap string) (tx_overrides : umap WifiTxPowerOverride)
    : bool * World :=
  let '(ok1, w1) :=
    match extract_string_field line "override_type" with
    | Some override =>
        let overrides' :=
          if empty override || equal_after_uppercase override "AUTO" then
            um_erase iface overrides
          else um_set iface override overrides in
        let '(written, w') := write_overrides w overrides' in
        (written && true, w')
    | None => (true, w)
    end in
  if has_tx_fields line then
    let '(written, w2) :=
      write_tx_power_overrides w1 (set_tx_overrides line iface tx_overrides) in
    (written && ok1, w2)
  else (ok1, w1).

(** [ok = write_overrides(a) && write_tx_power_overrides(b)]: the second
    writer runs only when the first succeeded. *)
Definition write_both (w : World) (overrides : umap string)
    (tx_overrides : umap WifiTxPowerOverride) : bool * World :=
  let '(written, w1) := write_overrides w overrides in
  if written then write_tx_power_overrides w1 tx_overrides
  else (false, w1).

(** Lines 1248-1261 of [handle_wifi_update]: the refresh on success and
    the response line. *)
Definition wifi_update_response (w1 : World) (action : string) (ok : bool)
    : string * World :=
  let w2 := if ok then refresh_wifi_info w1 else w1 in
  let head :=
    json_open "sysutil.wifi.update.response" ok
    ++ "," ++ dq ++ "action" ++ dq ++ ":" ++ dq ++ json_escape action ++ dq in
  if ok then
    let '(cards, w3) := wifi_cards w2 in
    (append_cards_json (head ++ "," ++ dq ++ "cards" ++ dq ++ ":") cards
     ++ "}" ++ nl, w3)
  else (head ++ "}" ++ nl, w2).

Definition handle_wifi_update (w : World) (line : string) : string * World :=
  let action := value_or (extract_string_field line "action") "refresh" in
  let iface := extract_string_field line "interface" in
  let overrides := load_overrides w in
  let tx_overrides := load_tx_power_overrides w in
  let '(ok, w1) :=
    if (action =? "set")%string then
      match iface with
      | None => (false, w)
      | Some i =>
          if empty i then (false, w)
          else wifi_update_set w line i overrides tx_overrides
      end
    else if (action =? "clear")%string then
      match iface with
      | Some i =>
          if negb (empty i) then
            write_both w (um_erase i overrides) (um_erase i tx_overrides)
          else write_both w [] []
      | None => write_both w [] []
      end
    else if (action =? "refresh")%string || (action =? "detect")%string then
      (true, w)
    else (false, w) in
  wifi_update_response w1 action ok.

Definition is_link_control_request (line : string) : bool :=
  is_type line "sysutil.link.control".

Definition int_text (o : option Z) : string :=
  match o with Some z => to_string z | None => "" end.

Definition int_member (key : string) (o : option Z) : string :=
  match o with
  | Some z => "," ++ dq ++ key ++ dq ++ ":" ++ to_string z
  | None => ""
  end.

Definition nonempty_field (o : option string) : bool :=
  match o with Some s => negb (empty s) | None => false end.

Definition kWidthDisabledMessage : string :=
  "40 MHz channel width is disabled.".

(** The [openhd.link.control] line built from the fields present. *)
Definition link_control_payload (line : string) : string :=
  let iface := extract_string_field line "interface" in
  "{" ++ dq ++ "type" ++ dq ++ ":" ++ dq ++ "openhd.link.control" ++ dq
  ++ (if nonempty_field iface then
        json_member "interface" (value_or iface "") else "")
  ++ int_member "frequency_mhz" (extract_int_field line "frequency_mhz")
  ++ int_member "channel_width_mhz"
       (extract_int_field line "channel_width_mhz")
  ++ int_member "mcs_index" (extract_int_field line "mcs_index")
  ++ int_member "tx_power_mw" (extract_int_field line "tx_power_mw")
  ++ int_member "tx_power_index" (extract_int_field line "tx_power_index")
  ++ match extract_string_field line "power_level" with
     | Some level =>
         let trimmed := trim_copy level in
         if negb (empty trimmed) then json_member "power_level" trimmed
         else ""
     | None => ""
     end
  ++ "}" ++ nl.

Definition handle_link_control_request (w : World) (line : string)
    : string * World :=
  let iface := extract_string_field line "interface" in
  let frequency := extract_int_field line "frequency_mhz" in
  let channel_width := extract_int_field line "channel_width_mhz" in
  let mcs_index := extract_int_field line "mcs_index" in
  let tx_power_mw := extract_int_field line "tx_power_mw" in
  let tx_power_index := extract_int_field line "tx_power_index" in
  let level := extract_string_field line "power_level" in
  let w0 :=
    log_stderr
      ("[sysutils] link.control request iface=" ++ value_or iface ""
       ++ " freq=" ++ int_text frequency
       ++ " width=" ++ int_text channel_width
       ++ " mcs=" ++ int_text mcs_index
       ++ " tx_mw=" ++ int_text tx_power_mw
       ++ " tx_idx=" ++ int_text tx_power_index
       ++ " level=" ++ value_or level "") w in
  let any_value :=
    nonempty_field iface || has_value frequency || has_value channel_width
    || has_value mcs_index || has_value tx_power_mw
    || has_value tx_power_index || nonempty_field level in
  let '(ok, message, w1) :=
    if negb any_value then (false, "No RF values provided.", w0)
    else if match channel_width with
            | Some width => (width =? 40)%Z
            | None => false
            end then (false, kWidthDisabledMessage, w0)
    else
      let '(response, w') :=
        send_openhd_control w0 (link_control_payload line) in
      match response with
      | None =>
          (false, "OpenHD control socket not available.",
           log_stderr "[sysutils] link.control openhd response: <none>" w')
      | Some text =>
          let ok := value_or (extract_bool_field text "ok") false in
          let message := value_or (extract_string_field text "message") "" in
          (ok,
           if empty message && negb ok then "OpenHD rejected the RF update."
           else message,
           log_stderr ("[sysutils] link.control openhd response: " ++ text)
             w')
      end in
  (json_open "sysutil.link.control.response" ok
   ++ (if negb (empty message) then json_member "message" message else "")
   ++ "}" ++ nl, w1).

End Program.

(** ** A concrete platform

    Modelled from the spec: the field readers of [sysutil_protocol.h] are
    not part of this file's source; section 1 describes them as returning
    optional typed values from a flat key/value text line.  The readers
    below do that for lines of the shape [{"key":"text","key":12,"key":true}].
    They serve to run the program on concrete lines; every theorem of the
    development holds for any [Platform]. *)
Module Sample.

(** The text that follows ["key" :] in [line]. *)
Definition field_text (line key : string) : option string :=
  let needle := String ch_quote "" ++ key ++ String ch_quote "" in
  match find_from needle 0 line with
  | None => None
  | Some pos =>
      match ltrim (substr_from (pos + length needle) line) with
      | String ":" rest => Some (ltrim rest)
      | _ => None
      end
  end.

Definition string_field (line key : string) : option string :=
  match field_text line key with
  | Some (String q rest) =>
      if Ascii.eqb q ch_quote then
        match find_char ch_quote rest with
        | Some n => Some (substr_to n rest)
        | None => None
        end
      else None
  | _ => None
  end.

Definition digit_value (c : ascii) : option Z :=
  let n := nat_of_ascii c in
  if ((48 <=? n) && (n <=? 57))%nat then Some (Z.of_nat (n - 48)) else None.

(** The value of the leading decimal digits of [s], after [acc]. *)
Fixpoint digits (s : string) (acc : option Z) : option Z :=
  match s with
  | "" => acc
  | String c s' =>
      match digit_value c with
      | Some d => digits s' (Some (10 * value_or acc 0 + d)%Z)
      | None => acc
      end
  end.

Definition int_text_value (s : string) : option Z :=
  match s with
  | String "-" s' => option_map Z.opp (digits s' None)
  | _ => digits s None
  end.

Definition int_field (line key : string) : option Z :=
  match field_text line key with
  | Some text => int_text_value text
  | None => None
  end.

Definition bool_field (line key : string) : option bool :=
  match field_text line key with
  | Some text =>
      if starts_with "true" text then Some true
      else if starts_with "false" text then Some false
      else None
  | None => None
  end.

(** The part of a path before its last [/]. *)
Fixpoint dirname (path : string) : string :=
  match path with
  | "" => ""
  | String c rest =>
      match find_char "/" rest with
      | Some _ => String c (dirname rest)
      | None => ""
      end
  end.

Definition is_word (c : ascii) : bool :=
  let n := nat_of_ascii c in
  (((48 <=? n) && (n <=? 57)) || ((65 <=? n) && (n <=? 90))
   || ((97 <=? n) && (n <=? 122)) || (n =? 95))%nat.

(** The longest prefix of [s] made of characters that satisfy [P]. *)
Fixpoint take_while (P : ascii -> bool) (s : string) : string :=
  match s with
  | "" => ""
  | String c s' => if P c then String c (take_while P s') else ""
  end.

(** A match of [DRIVER=([\w]+)] at the start of [s]. *)
Definition match_driver (s : string) : option (list string) :=
  if starts_with "DRIVER=" s then
    let word := take_while is_word (substr_from 7 s) in
    if empty word then None else Some ["DRIVER=" ++ word; word]
  else None.

(** A match of [lead([0-9A-Fa-f]{4})sep([0-9A-Fa-f]{4})trail] at the
    start of [s]. *)
Definition match_id_pair (lead sep trail s : string)
    : option (list string) :=
  let after_lead := substr_from (length lead) s in
  let v := substr_to 4 after_lead in
  let after_v := substr_from 4 after_lead in
  let after_sep := substr_from (length sep) after_v in
  let d := substr_to 4 after_sep in
  if starts_with lead s && (length v =? 4)%nat && all_chars is_hex v
     && starts_with sep after_v && (length d =? 4)%nat && all_chars is_hex d
     && starts_with trail (substr_from 4 after_sep)
  then Some [lead ++ v ++ sep ++ d ++ trail; v; d]
  else None.

(** The leftmost position of [s] at which [here] matches. *)
Fixpoint search (here : string -> option (list string)) (s : string)
    : option (list string) :=
  match here s with
  | Some groups => Some groups
  | None =>
      match s with
      | "" => None
      | String _ s' => search here s'
      end
  end.

(** [std::regex_search] for the five patterns of the program. *)
Definition search_pattern (subject pattern : string) : option (list string) :=
  if (pattern =? "DRIVER=([\w]+)")%string then search match_driver subject
  else if (pattern =? "PCI_ID=([0-9A-Fa-f]{4}):([0-9A-Fa-f]{4})")%string then
    search (match_id_pair "PCI_ID=" ":" "") subject
  else if (pattern =? "PRODUCT=([0-9A-Fa-f]{4})/([0-9A-Fa-f]{4})/")%string
  then search (match_id_pair "PRODUCT=" "/" "/") subject
  else if (pattern =? "usb:v([0-9A-Fa-f]{4})p([0-9A-Fa-f]{4})")%string then
    search (match_id_pair "usb:v" "p" "") subject
  else if (pattern =? "pci:v([0-9A-Fa-f]{4})d([0-9A-Fa-f]{4})")%string then
    search (match_id_pair "pci:v" "d" "") subject
  else None.

Definition platform : Platform :=
  {| extract_string_field := string_field;
     extract_int_field := int_field;
     extract_bool_field := bool_field;
     regex_search := search_pattern;
     stoi := int_text_value;
     path_append := fun dir leaf => dir ++ "/" ++ leaf;
     parent_path := dirname;
     phy_index_default := (-1)%Z |}.

(** A world with one USB adapter [wlan0], as sysfs shows it: the
    interface node of the device carries the driver, its parent the USB
    identifiers.  No catalog file, no override files, no control
    socket. *)
Definition usb_interface_dir : string := "/sys/devices/usb1/1-1/1-1:1.0".

Definition usb_uevent : string :=
  "DEVTYPE=usb_interface" ++ String ch_newline ""
  ++ "DRIVER=rtl88x2eu_ohd" ++ String ch_newline ""
  ++ "PRODUCT=bda/a81a/200" ++ String ch_newline "".

Definition sysfs_files (path : string) : option string :=
  if (path =? "/sys/class/net/wlan0/device/uevent")%string then
    Some usb_uevent
  else if (path =? usb_interface_dir ++ "/uevent")%string then
    Some usb_uevent
  else if (path =? "/sys/devices/usb1/1-1/idVendor")%string then
    Some ("0bda" ++ String ch_newline "")
  else if (path =? "/sys/devices/usb1/1-1/idProduct")%string then
    Some ("a81a" ++ String ch_newline "")
  else if (path =? "/sys/class/net/wlan0/phy80211/index")%string then
    Some ("3" ++ String ch_newline "")
  else if (path =? "/sys/class/net/wlan0/address")%string then
    Some ("00:11:22:33:44:55" ++ String ch_newline "")
  else None.

Definition world : World :=
  {| fs_read := sysfs_files;
     fs_exists := fun path =>
       has_value (sysfs_files path)
       || (path =? "/sys/class/net/wlan0/phy80211")%string;
     fs_canonical := fun path =>
       if (path =? "/sys/class/net/wlan0/device")%string then
         Some usb_interface_dir
       else None;
     fs_weakly_canonical := fun _ => None;
     fs_net_entries := Some ["lo"; "wlan0"];
     fs_mkdir_fails := fun _ => false;
     fs_open_fails := fun _ => false;
     ctrl_peer := fun _ => None;
     ctrl_sent := [];
     stderr_log := [];
     g_wifi_cards := [];
     g_wifi_initialized := false |}.

(** A request or catalog line from its members. *)
Definition line (members : list string) : string :=
  "{" ++ substr_from 1 (String.concat "" members) ++ "}".

Definition text_member (key value : string) : string :=
  json_member key value.

Definition number_member (key : string) (value : Z) : string :=
  int_member key (Some value).

End Sample.

(** ** Shapes the specification names *)

(** "[0x] followed by uppercase hexadecimal digits", any number of them. *)
Definition uppercase_hex_form (s : string) : bool :=
  starts_with "0x" s && all_chars is_upper_hex (substr_from 2 s).

(** The same with the "four or more" of section 3. *)
Definition canonical_id_form (s : string) : bool :=
  uppercase_hex_form s && (4 <=? length (substr_from 2 s))%nat.

(** The part of an input that [normalize_id] keeps: the trimmed text
    without one leading [0x] or [0X]. *)
Definition id_digits (raw : string) : string :=
  let value := trim_copy raw in
  if starts_with "0x" value || starts_with "0X" value then
    substr_from 2 value
  else value.

(** * Properties *)

(** ** Characters and trimming *)

Lemma toupper_idem (c : ascii) : toupper (toupper c) = toupper c.
Proof. destruct c as [[] [] [] [] [] [] [] []]; reflexivity. Qed.

Lemma isspace_toupper (c : ascii) : isspace (toupper c) = isspace c.
Proof. destruct c as [[] [] [] [] [] [] [] []]; reflexivity. Qed.

Lemma upper_hex_toupper (c : ascii) : is_upper_hex (toupper c) = is_hex c.
Proof. destruct c as [[] [] [] [] [] [] [] []]; reflexivity. Qed.

Lemma to_upper_idem (s : string) : to_upper (to_upper s) = to_upper s.
Proof.
  induction s as [|c s IH]; simpl; [reflexivity|].
  now rewrite toupper_idem, IH.
Qed.

Lemma to_upper_length (s : string) : length (to_upper s) = length s.
Proof. induction s as [|c s IH]; simpl; congruence. Qed.

Lemma to_upper_empty (s : string) : empty (to_upper s) = empty s.
Proof. now destruct s. Qed.

Lemma empty_true (s : string) : empty s = true <-> s = "".
Proof. destruct s; simpl; split; intro E; congruence. Qed.

Lemma empty_false (s : string) : empty s = false <-> s <> "".
Proof. destruct s; simpl; split; intro E; congruence. Qed.

Lemma all_upper_hex_to_upper (s : string) :
  all_chars is_upper_hex (to_upper s) = all_chars is_hex s.
Proof.
  induction s as [|c s IH]; simpl; [reflexivity|].
  now rewrite upper_hex_toupper, IH.
Qed.

Lemma rtrim_cons (c : ascii) (s : string) :
  rtrim s = s -> (s <> "" \/ isspace c = false) ->
  rtrim (String c s) = String c s.
Proof.
  intros Hs Hc. simpl. rewrite Hs.
  destruct s as [|d s']; [|reflexivity].
  destruct Hc as [Hc|Hc]; [congruence|now rewrite Hc].
Qed.

Lemma rtrim_tail (c : ascii) (s : string) :
  rtrim (String c s) = String c s -> rtrim s = s.
Proof.
  simpl. destruct (rtrim s) as [|d r] eqn:E.
  - destruct (isspace c); intro Heq; inversion Heq; subst; reflexivity.
  - intro Heq. now inversion Heq.
Qed.

Lemma rtrim_idem (s : string) : rtrim (rtrim s) = rtrim s.
Proof.
  induction s as [|c s IH]; simpl; [reflexivity|].
  destruct (rtrim s) as [|d r] eqn:E.
  - destruct (isspace c) eqn:Hc; simpl; [reflexivity|now rewrite Hc].
  - apply rtrim_cons; [exact IH|left; discriminate].
Qed.

Lemma rtrim_to_upper (s : string) : rtrim (to_upper s) = to_upper (rtrim s).
Proof.
  induction s as [|c s IH]; simpl; [reflexivity|].
  rewrite IH, isspace_toupper.
  destruct (rtrim s) as [|d r]; simpl; [now destruct (isspace c)|reflexivity].
Qed.

Lemma ltrim_nonspace (c : ascii) (s : string) :
  isspace c = false -> ltrim (String c s) = String c s.
Proof. intro Hc. simpl. now rewrite Hc. Qed.

Lemma trim_copy_rtrim_fixed (s : string) : rtrim (trim_copy s) = trim_copy s.
Proof. apply rtrim_idem. Qed.

(** A text that starts with a non-space and is already right-trimmed is
    a fixed point of [trim_copy]. *)
Lemma trim_copy_fixed (c : ascii) (s : string) :
  isspace c = false -> rtrim (String c s) = String c s ->
  trim_copy (String c s) = String c s.
Proof. intros Hc Hr. unfold trim_copy. now rewrite ltrim_nonspace. Qed.

(** ** Identifier normalisation (C3) *)

Lemma normalize_id_shape (raw : string) :
  normalize_id raw =
    if empty (trim_copy raw) then "" else "0x" ++ to_upper (id_digits raw).
Proof.
  unfold normalize_id, id_digits.
  destruct (empty (trim_copy raw)); [reflexivity|].
  now destruct (starts_with "0x" (trim_copy raw) || starts_with "0X" (trim_copy raw)).
Qed.

Lemma substr_from_rtrim_fixed (n : nat) (s : string) :
  rtrim s = s -> rtrim (substr_from n s) = substr_from n s.
Proof.
  revert s. induction n as [|n IH]; intros s Hs; [exact Hs|].
  destruct s as [|c s']; [reflexivity|].
  simpl. apply IH. now apply rtrim_tail with c.
Qed.

Lemma id_digits_rtrim_fixed (raw : string) :
  rtrim (id_digits raw) = id_digits raw.
Proof.
  unfold id_digits.
  destruct (starts_with "0x" (trim_copy raw) || starts_with "0X" (trim_copy raw)).
  - apply substr_from_rtrim_fixed, trim_copy_rtrim_fixed.
  - apply trim_copy_rtrim_fixed.
Qed.

Lemma starts_with_0x (body : string) : starts_with "0x" ("0x" ++ body) = true.
Proof. unfold starts_with. simpl. now destruct body. Qed.

Lemma normalize_id_prefixed (body : string) :
  rtrim body = body ->
  normalize_id ("0x" ++ to_upper body) = "0x" ++ to_upper body.
Proof.
  intro Hb.
  assert (Hu : rtrim (to_upper body) = to_upper body)
    by now rewrite rtrim_to_upper, Hb.
  assert (Hx : rtrim (String "x" (to_upper body)) = String "x" (to_upper body))
    by (apply rtrim_cons; [exact Hu|now right]).
  assert (Ht : trim_copy ("0x" ++ to_upper body) = "0x" ++ to_upper body).
  { apply trim_copy_fixed; [reflexivity|].
    apply rtrim_cons; [exact Hx|left; discriminate]. }
  unfold normalize_id. rewrite Ht, starts_with_0x. simpl.
  now rewrite to_upper_idem.
Qed.

Lemma normalize_id_idempotent (raw : string) :
  normalize_id (normalize_id raw) = normalize_id raw.
Proof.
  rewrite (normalize_id_shape raw).
  destruct (empty (trim_copy raw)); [reflexivity|].
  apply normalize_id_prefixed, id_digits_rtrim_fixed.
Qed.

(** C3, as the code has it: [normalize_id] is idempotent on every input;
    a blank input gives the empty text and any other input gives [0x]
    followed by the uppercased digits part of the input; when that part
    consists of four or more hexadecimal digits, the result is [0x]
    followed by as many uppercase hexadecimal digits. *)
Theorem normalize_id_idempotent_and_form (raw : string) :
  normalize_id (normalize_id raw) = normalize_id raw
  /\ (if empty (trim_copy raw) then normalize_id raw = ""
      else normalize_id raw = "0x" ++ to_upper (id_digits raw))
  /\ (all_chars is_hex (id_digits raw) = true ->
      4 <= length (id_digits raw) ->
      canonical_id_form (normalize_id raw) = true
      /\ length (normalize_id raw) = 2 + length (id_digits raw)).
Proof.
  split; [apply normalize_id_idempotent|].
  split.
  - rewrite normalize_id_shape. now destruct (empty (trim_copy raw)).
  - intros Hhex Hlen.
    assert (Hne : empty (trim_copy raw) = false).
    { unfold id_digits in Hlen.
      destruct (trim_copy raw) as [|c s]; [|reflexivity].
      simpl in Hlen. lia. }
    assert (Hshape : normalize_id raw = "0x" ++ to_upper (id_digits raw))
      by now rewrite normalize_id_shape, Hne.
    rewrite Hshape. split.
    + unfold canonical_id_form, uppercase_hex_form.
      change (substr_from 2 ("0x" ++ to_upper (id_digits raw)))
        with (to_upper (id_digits raw)).
      rewrite starts_with_0x, all_upper_hex_to_upper, Hhex, to_upper_length.
      now apply Nat.leb_le.
    + simpl. now rewrite to_upper_length.
Qed.

Lemma normalize_id_idempotent_and_form_witness :
  normalize_id " 0X0bda " = "0x0BDA"
  /\ canonical_id_form (normalize_id " 0X0bda ") = true
  /\ length (normalize_id " 0X0bda ") = 2 + length (id_digits " 0X0bda ").
Proof.
  split; [reflexivity|].
  apply (normalize_id_idempotent_and_form " 0X0bda ");
    [reflexivity|vm_compute; lia].
Defined.

(** C3 as stated fails: the result need not be [0x] followed by uppercase
    hexadecimal digits.  A blank identifier normalises to the empty text,
    and a text that is not hexadecimal is uppercased as it is. *)
Lemma normalize_id_form_counterexample :
  normalize_id "  " = ""
  /\ uppercase_hex_form (normalize_id "  ") = false
  /\ normalize_id "wlan" = "0xWLAN"
  /\ uppercase_hex_form (normalize_id "wlan") = false
  /\ normalize_id "1f" = "0x1F"
  /\ canonical_id_form (normalize_id "1f") = false.
Proof. repeat split; reflexivity. Qed.

(** ** Profile lookup (C4) *)

Section ProfileLookup.
Variables target_vendor target_device target_chipset : string.

Definition vendor_device_matches (p : WifiCardProfile) : bool :=
  equal_after_uppercase (vendor_id p) target_vendor
  && equal_after_uppercase (device_id p) target_device.

Definition exact_matches (p : WifiCardProfile) : bool :=
  vendor_device_matches p
  && equal_after_uppercase (chipset p) target_chipset.

Definition generic_matches (p : WifiCardProfile) : bool :=
  vendor_device_matches p && empty (chipset p).

(** The precedence as the specification words it: an exact chipset match,
    else the first generic match, else the first vendor/device match,
    else nothing. *)
Definition find_wifi_profile_by_precedence (profiles : list WifiCardProfile)
    : option WifiCardProfile :=
  match find exact_matches profiles with
  | Some p => Some p
  | None =>
      match find generic_matches profiles with
      | Some p => Some p
      | None => find vendor_device_matches profiles
      end
  end.

(** The test under which the loop returns at once. *)
Definition early_return (p : WifiCardProfile) : bool :=
  vendor_device_matches p && negb (empty (chipset p))
  && equal_after_uppercase (chipset p) target_chipset.

Definition or_else {A : Type} (a b : option A) : option A :=
  match a with
  | Some _ => a
  | None => b
  end.

Lemma find_wifi_profile_from_cons (p : WifiCardProfile)
    (rest : list WifiCardProfile) (vd gen : option WifiCardProfile) :
  find_wifi_profile_from (p :: rest) target_vendor target_device
    target_chipset vd gen =
  if vendor_device_matches p then
    if empty (chipset p) then
      find_wifi_profile_from rest target_vendor target_device target_chipset
        (first_unset vd p) (first_unset gen p)
    else if equal_after_uppercase (chipset p) target_chipset then Some p
    else
      find_wifi_profile_from rest target_vendor target_device target_chipset
        (first_unset vd p) gen
  else
    find_wifi_profile_from rest target_vendor target_device target_chipset
      vd gen.
Proof. reflexivity. Qed.

Lemma find_wifi_profile_from_spec (profiles : list WifiCardProfile) :
  forall vd gen,
    find_wifi_profile_from profiles target_vendor target_device
      target_chipset vd gen =
    match find early_return profiles with
    | Some p => Some p
    | None =>
        match or_else gen (find generic_matches profiles) with
        | Some g => Some g
        | None => or_else vd (find vendor_device_matches profiles)
        end
    end.
Proof.
  induction profiles as [|p rest IH]; intros vd gen.
  - simpl. destruct gen, vd; reflexivity.
  - cbn [find]. rewrite find_wifi_profile_from_cons.
    assert (Hg : generic_matches p
                 = vendor_device_matches p && empty (chipset p))
      by reflexivity.
    assert (He : early_return p
                 = vendor_device_matches p && negb (empty (chipset p))
                   && equal_after_uppercase (chipset p) target_chipset)
      by reflexivity.
    rewrite Hg, He.
    destruct (vendor_device_matches p), (empty (chipset p)),
      (equal_after_uppercase (chipset p) target_chipset);
      cbn [andb negb]; try reflexivity; rewrite IH;
      destruct (find early_return rest); try reflexivity;
      destruct gen, vd; cbn; try reflexivity;
      destruct (find generic_matches rest); reflexivity.
Qed.

(** With a blank target chipset the exact matches are the generic ones
    and the loop never returns early. *)
Lemma blank_target_matches (p : WifiCardProfile) :
  target_chipset = "" ->
  exact_matches p = generic_matches p /\ early_return p = false.
Proof.
  intro E. unfold exact_matches, generic_matches, early_return,
    equal_after_uppercase. rewrite E.
  destruct (vendor_device_matches p), (chipset p) as [|c s];
    split; reflexivity.
Qed.

Lemma filled_target_matches (p : WifiCardProfile) :
  target_chipset <> "" -> early_return p = exact_matches p.
Proof.
  intro Hne. unfold exact_matches, early_return, equal_after_uppercase.
  destruct (vendor_device_matches p); [simpl|reflexivity].
  destruct (chipset p) as [|c s]; [simpl|reflexivity].
  destruct target_chipset; [congruence|reflexivity].
Qed.

Lemma find_ext {A : Type} (f g : A -> bool) (l : list A) :
  (forall a, f a = g a) -> find f l = find g l.
Proof.
  intro E. induction l as [|a l IH]; simpl; [reflexivity|].
  now rewrite E, IH.
Qed.

Lemma find_never {A : Type} (f : A -> bool) (l : list A) :
  (forall a, f a = false) -> find f l = None.
Proof.
  intro E. induction l as [|a l IH]; simpl; [reflexivity|].
  now rewrite E.
Qed.

(** C4: [find_wifi_profile] returns the first profile that matches
    vendor, device and chipset; failing that the first vendor/device match
    with an empty chipset; failing that the first vendor/device match;
    and nothing when no profile matches vendor and device.  All
    comparisons are the code's, after uppercasing. *)
Theorem find_wifi_profile_precedence (profiles : list WifiCardProfile) :
  find_wifi_profile profiles target_vendor target_device target_chipset
  = find_wifi_profile_by_precedence profiles.
Proof.
  unfold find_wifi_profile, find_wifi_profile_by_precedence.
  rewrite find_wifi_profile_from_spec. simpl.
  destruct (string_dec target_chipset "") as [Hblank|Hfilled].
  - rewrite (find_never early_return)
      by (intro p; now apply blank_target_matches).
    rewrite (find_ext exact_matches generic_matches)
      by (intro p; now apply blank_target_matches).
    now destruct (find generic_matches profiles).
  - rewrite (find_ext early_return exact_matches)
      by (intro p; now apply filled_target_matches).
    reflexivity.
Qed.

End ProfileLookup.

(** ** Profile figure backfill (C1) *)

Section Backfill.
Context `{Platform}.

Lemma first_positive_pos (values : list Z) :
  (exists v, In v values /\ (0 < v)%Z) -> (0 < first_positive values)%Z.
Proof.
  induction values as [|v rest IH]; intros [x [Hin Hx]]; [destruct Hin|].
  simpl. destruct (0 <? v)%Z eqn:Hv; [now apply Z.ltb_lt|].
  apply IH. exists x. split; [|exact Hx].
  destruct Hin as [->|Hin]; [|exact Hin].
  apply Z.ltb_ge in Hv. lia.
Qed.

Lemma backfilled_pos (flat : Z) (values : list Z) :
  (exists v, In v values /\ (0 < v)%Z) ->
  (0 < (if (flat <=? 0)%Z then first_positive values else flat))%Z.
Proof.
  intro Hex. destruct (flat <=? 0)%Z eqn:Hf.
  - now apply first_positive_pos.
  - apply Z.leb_gt in Hf. exact Hf.
Qed.

Lemma nested_figure_pos (levels : option string) (key : string) (flat : Z) :
  (0 < flat)%Z
  \/ (exists lv, levels = Some lv
                 /\ (0 < value_or (extract_int_field lv key) 0)%Z) ->
  (0 < nested_figure levels key flat)%Z.
Proof.
  unfold nested_figure. intros [Hflat|[lv [-> Hnested]]].
  - destruct levels; [|exact Hflat].
    destruct (flat <=? 0)%Z eqn:Hf; [apply Z.leb_le in Hf; lia|exact Hflat].
  - destruct (flat <=? 0)%Z eqn:Hf; [exact Hnested|].
    now apply Z.leb_gt in Hf.
Qed.

(** A level figure of the object is positive: the flat field [key], or the
    field [key] of the nested [levels_mw] object. *)
Definition level_positive (object key : string) : Prop :=
  (0 < value_or (extract_int_field object key) 0)%Z
  \/ (exists lv, extract_object_field object "levels_mw" = Some lv
                 /\ (0 < value_or (extract_int_field lv key) 0)%Z).

Lemma nested_figure_pos_inv (levels : option string) (key : string)
    (flat : Z) :
  (0 < nested_figure levels key flat)%Z ->
  (0 < flat)%Z
  \/ (exists lv, levels = Some lv
                 /\ (0 < value_or (extract_int_field lv key) 0)%Z).
Proof.
  unfold nested_figure. destruct levels as [lv|]; [|now left].
  destruct (flat <=? 0)%Z; [|now left].
  intro Hnested. right. now exists lv.
Qed.

Lemma first_positive_none (values : list Z) :
  Forall (fun v => (v <= 0)%Z) values -> first_positive values = 0%Z.
Proof.
  induction 1 as [|v rest Hv _ IH]; [reflexivity|].
  simpl. destruct (0 <? v)%Z eqn:E; [apply Z.ltb_lt in E; lia|exact IH].
Qed.

(** The flat field [key] of the object is positive. *)
Definition flat_positive (object key : string) : Prop :=
  (0 < value_or (extract_int_field object key) 0)%Z.

(** The object carries enough to fill a profile: one of its four level
    figures is positive, or both its [min_mw] and its [max_mw] are. *)
Definition enough_figures (object : string) : Prop :=
  level_positive object "lowest" \/ level_positive object "low"
  \/ level_positive object "mid" \/ level_positive object "high"
  \/ (flat_positive object "min_mw" /\ flat_positive object "max_mw").

(** C1, as the code has it: when a catalog object is parsed in a mode
    other than FIXED and at least one of its four level figures (lowest,
    low, mid, high; flat or nested in levels_mw) is positive, or both its
    min_mw and its max_mw are positive, all six figures of the profile
    are positive; and in no other case are even min_mw and max_mw both
    positive. *)
Theorem backfill_populates_all_figures (object : string)
    (p : WifiCardProfile)
    (Hparsed : parse_profile_object object = Some p)
    (Hmode : power_mode p <> "FIXED") :
  (enough_figures object ->
   (0 < min_mw p /\ 0 < max_mw p /\ 0 < lowest_mw p /\ 0 < low_mw p
    /\ 0 < mid_mw p /\ 0 < high_mw p)%Z)
  /\ ((0 < min_mw p /\ 0 < max_mw p)%Z -> enough_figures object).
Proof.
  unfold parse_profile_object in Hparsed.
  destruct (extract_string_field object "vendor_id") as [vendor|];
    [|discriminate].
  destruct (extract_string_field object "device_id") as [device|];
    [|discriminate].
  cbv zeta in Hparsed.
  destruct (to_upper (value_or (extract_string_field object "power_mode") "mw")
            =? "FIXED")%string eqn:Hfixed.
  { apply String.eqb_eq in Hfixed.
    injection Hparsed as <-. simpl in Hmode. congruence. }
  unfold enough_figures, flat_positive.
  set (min0 := value_or (extract_int_field object "min_mw") 0%Z) in *.
  set (max0 := value_or (extract_int_field object "max_mw") 0%Z) in *.
  set (levels := extract_object_field object "levels_mw") in *.
  set (lowest1 := nested_figure levels "lowest" _) in *.
  set (low1 := nested_figure levels "low" _) in *.
  set (mid1 := nested_figure levels "mid" _) in *.
  set (high1 := nested_figure levels "high" _) in *.
  set (min2 := if (min0 <=? 0)%Z
               then first_positive [lowest1; low1; mid1; high1]
               else min0) in *.
  set (max2 := if (max0 <=? 0)%Z
               then first_positive [high1; mid1; low1; lowest1]
               else max0) in *.
  set (lowest2 := if (lowest1 <=? 0)%Z then _ else _) in *.
  set (low2 := if (low1 <=? 0)%Z then _ else _) in *.
  set (mid2 := if (mid1 <=? 0)%Z then _ else _) in *.
  set (high2 := if (high1 <=? 0)%Z then _ else _) in *.
  injection Hparsed as <-.
  cbn [min_mw max_mw lowest_mw low_mw mid_mw high_mw].
  split.
  - intro Henough.
    assert (Hboth : (0 < min2 /\ 0 < max2)%Z).
    { assert (Hlevels :
                (exists v, In v [lowest1; low1; mid1; high1] /\ (0 < v)%Z)
                \/ (0 < min0 /\ 0 < max0)%Z).
      { destruct Henough as [Hl|[Hl|[Hl|[Hl|Hflat]]]]; [| | | |now right];
          left; [exists lowest1|exists low1|exists mid1|exists high1];
          (split; [simpl; tauto|]); apply nested_figure_pos; exact Hl. }
      destruct Hlevels as [Hmerged|[Hmin0 Hmax0]].
      - split; apply backfilled_pos; [exact Hmerged|].
        destruct Hmerged as [v [Hin Hv]].
        exists v. split; [simpl in *; tauto|exact Hv].
      - subst min2 max2.
        destruct (min0 <=? 0)%Z eqn:Emin; [apply Z.leb_le in Emin; lia|].
        destruct (max0 <=? 0)%Z eqn:Emax; [apply Z.leb_le in Emax; lia|].
        now split. }
    destruct Hboth as [Hmin Hmax].
    repeat split; try assumption; apply backfilled_pos.
    + exists min2. split; [simpl; tauto|exact Hmin].
    + exists min2. split; [simpl; tauto|exact Hmin].
    + exists max2. split; [simpl; tauto|exact Hmax].
    + exists max2. split; [simpl; tauto|exact Hmax].
  - intros (Hmin & Hmax).
    destruct (Z.ltb_spec 0 lowest1) as [Hp|Hlowest];
      [left; exact (nested_figure_pos_inv _ _ _ Hp)|].
    destruct (Z.ltb_spec 0 low1) as [Hp|Hlow];
      [right; left; exact (nested_figure_pos_inv _ _ _ Hp)|].
    destruct (Z.ltb_spec 0 mid1) as [Hp|Hmid];
      [right; right; left; exact (nested_figure_pos_inv _ _ _ Hp)|].
    destruct (Z.ltb_spec 0 high1) as [Hp|Hhigh];
      [right; right; right; left; exact (nested_figure_pos_inv _ _ _ Hp)|].
    right; right; right; right.
    assert (Hup : first_positive [lowest1; low1; mid1; high1] = 0%Z)
      by (apply first_positive_none; repeat constructor; assumption).
    assert (Hdown : first_positive [high1; mid1; low1; lowest1] = 0%Z)
      by (apply first_positive_none; repeat constructor; assumption).
    subst min2 max2. rewrite Hup in Hmin. rewrite Hdown in Hmax.
    destruct (min0 <=? 0)%Z; [lia|].
    destruct (max0 <=? 0)%Z; [lia|].
    now split.
Qed.

End Backfill.

Section BackfillRuns.
#[local] Existing Instance Sample.platform.

(** A catalog object whose only figures are [min_mw] and [max_mw]. *)
Definition min_max_object : string :=
  Sample.line [Sample.text_member "vendor_id" "0x0bda";
               Sample.text_member "device_id" "0xa81a";
               Sample.number_member "min_mw" 5;
               Sample.number_member "max_mw" 800].

Lemma backfill_populates_all_figures_witness :
  exists p,
    parse_profile_object min_max_object = Some p
    /\ power_mode p = "MW"
    /\ (min_mw p = 5 /\ max_mw p = 800 /\ lowest_mw p = 5 /\ low_mw p = 5
        /\ mid_mw p = 5 /\ high_mw p = 800)%Z
    /\ (0 < min_mw p /\ 0 < max_mw p /\ 0 < lowest_mw p /\ 0 < low_mw p
        /\ 0 < mid_mw p /\ 0 < high_mw p)%Z.
Proof.
  eexists. split; [reflexivity|]. split; [reflexivity|].
  split; [repeat split; reflexivity|].
  eapply (backfill_populates_all_figures min_max_object);
    [reflexivity|discriminate|].
  right; right; right; right. split; vm_compute; reflexivity.
Defined.

(** A catalog object whose only figure is [min_mw], and one whose only
    figure is [max_mw]. *)
Definition min_only_object : string :=
  Sample.line [Sample.text_member "vendor_id" "0x0bda";
               Sample.text_member "device_id" "0xa81a";
               Sample.number_member "min_mw" 5].

Definition max_only_object : string :=
  Sample.line [Sample.text_member "vendor_id" "0x0bda";
               Sample.text_member "device_id" "0xa81a";
               Sample.number_member "max_mw" 800].

(** C1 as stated fails: a positive [min_mw] alone leaves [max_mw] at zero,
    and a positive [max_mw] alone leaves [min_mw] (and [lowest], [low]) at
    zero: neither of the two is ever filled from the other. *)
Lemma backfill_counterexample :
  extract_int_field min_only_object "min_mw" = Some 5%Z
  /\ option_map power_mode (parse_profile_object min_only_object) = Some "MW"
  /\ option_map max_mw (parse_profile_object min_only_object) = Some 0%Z
  /\ extract_int_field max_only_object "max_mw" = Some 800%Z
  /\ option_map min_mw (parse_profile_object max_only_object) = Some 0%Z
  /\ option_map lowest_mw (parse_profile_object max_only_object) = Some 0%Z.
Proof. repeat split; reflexivity. Qed.

End BackfillRuns.

(** ** Texts, lines and character search *)

Lemma append_nil_r (s : string) : s ++ "" = s.
Proof. induction s as [|c s IH]; simpl; congruence. Qed.

Lemma append_assoc (a b c : string) : (a ++ b) ++ c = a ++ b ++ c.
Proof. induction a as [|x a IH]; simpl; congruence. Qed.

Lemma find_char_app_none (ch : ascii) (a b : string) :
  find_char ch (a ++ b) = None <->
  find_char ch a = None /\ find_char ch b = None.
Proof.
  induction a as [|x a IH]; simpl.
  - split; [now split|now intros [_ Hb]].
  - destruct (Ascii.eqb x ch).
    + split; [discriminate|now intros [Ha _]].
    + destruct (find_char ch (a ++ b)), (find_char ch a);
        intuition congruence.
Qed.

(** The position of the first [ch] behind a prefix free of [ch]. *)
Lemma find_char_first (ch : ascii) (a b : string) :
  find_char ch a = None ->
  find_char ch (a ++ String ch b) = Some (length a).
Proof.
  induction a as [|x a IH]; simpl; intro Ha.
  - now rewrite Ascii.eqb_refl.
  - destruct (Ascii.eqb x ch); [discriminate|].
    destruct (find_char ch a); [discriminate|].
    now rewrite IH.
Qed.

Lemma substr_to_app (a b : string) : substr_to (length a) (a ++ b) = a.
Proof. induction a as [|x a IH]; simpl; [now destruct b|congruence]. Qed.

Lemma substr_from_app (a : string) (ch : ascii) (b : string) :
  substr_from (S (length a)) (a ++ String ch b) = b.
Proof. induction a as [|x a IH]; simpl; [reflexivity|exact IH]. Qed.

(** A newline-free text followed by a newline is read as one line. *)
Lemma getlines_line (l rest : string) :
  find_char ch_newline l = None ->
  getlines (l ++ String ch_newline rest) = l :: getlines rest.
Proof.
  induction l as [|c l IH]; intro Hl.
  - reflexivity.
  - cbn [append getlines]. cbn [find_char] in Hl.
    destruct (Ascii.eqb c ch_newline); [discriminate|].
    destruct (find_char ch_newline l); [discriminate|].
    now rewrite IH.
Qed.

Lemma concat_cons (x : string) (xs : list string) :
  String.concat "" (x :: xs) = x ++ String.concat "" xs.
Proof. destruct xs; simpl; [now rewrite append_nil_r|reflexivity]. Qed.

(** ** Write order of the power-override store (C2) *)

(** The fields of a record in the order the writer tests them. *)
Definition written_fields (values : WifiTxPowerOverride)
    : list (string * string) :=
  [("card_name", card_name values);
   ("power_level", power_level values);
   ("profile_vendor_id", profile_vendor_id values);
   ("profile_device_id", profile_device_id values);
   ("profile_chipset", profile_chipset values);
   ("tx_power", tx_power values);
   ("tx_power_high", tx_power_high values);
   ("tx_power_low", tx_power_low values)].

(** The order the specification words: profile fields, then name and
    level, then raw power fields. *)
Definition claimed_fields (values : WifiTxPowerOverride)
    : list (string * string) :=
  [("profile_vendor_id", profile_vendor_id values);
   ("profile_device_id", profile_device_id values);
   ("profile_chipset", profile_chipset values);
   ("card_name", card_name values);
   ("power_level", power_level values);
   ("tx_power", tx_power values);
   ("tx_power_high", tx_power_high values);
   ("tx_power_low", tx_power_low values)].

Definition present (fields : list (string * string))
    : list (string * string) :=
  filter (fun kv => negb (empty (snd kv))) fields.

(** The line of one field, without its newline. *)
Definition field_line (iface : string) (kv : string * string) : string :=
  iface ++ "." ++ fst kv ++ "=" ++ snd kv.

(** The lines a record contributes to the file. *)
Definition entry_lines (entry : string * WifiTxPowerOverride) : list string :=
  map (field_line (fst entry)) (present (written_fields (snd entry))).

Definition kTxPowerHeader : string :=
  "# OpenHD SysUtils Wi-Fi TX power overrides".

(** No value of the record holds a newline. *)
Definition values_one_line (values : WifiTxPowerOverride) : Prop :=
  Forall (fun kv => find_char ch_newline (snd kv) = None)
    (written_fields values).

(** No key and no value of the store holds a newline. *)
Definition store_one_line (data : umap WifiTxPowerOverride) : Prop :=
  Forall (fun entry => find_char ch_newline (fst entry) = None
                       /\ values_one_line (snd entry)) data.

Fixpoint render_fields (iface : string) (fields : list (string * string))
    : string :=
  match fields with
  | [] => ""
  | kv :: rest => tx_line iface (fst kv) (snd kv) ++ render_fields iface rest
  end.

Lemma tx_line_text (iface key value tail : string) :
  empty value = false ->
  tx_line iface key value ++ tail =
  field_line iface (key, value) ++ String ch_newline tail.
Proof.
  intro Hv. unfold tx_line, field_line, nl. rewrite Hv. cbn [fst snd].
  rewrite !append_assoc. reflexivity.
Qed.

Lemma tx_entry_text_fields (iface : string) (values : WifiTxPowerOverride) :
  tx_entry_text (iface, values) = render_fields iface (written_fields values).
Proof.
  unfold tx_entry_text. cbn [fst snd].
  destruct (has_tx_power_values values) eqn:Hany; cbn [negb].
  - cbn [render_fields written_fields fst snd]. now rewrite append_nil_r.
  - unfold has_tx_power_values in Hany.
    repeat (apply orb_false_elim in Hany; destruct Hany as [Hany ?]).
    repeat match goal with
           | E : negb (empty _) = false |- _ =>
               apply negb_false_iff, empty_true in E
           end.
    cbn [render_fields written_fields fst snd]. unfold tx_line.
    repeat match goal with E : _ = "" |- _ => rewrite E; clear E end.
    reflexivity.
Qed.

Lemma render_fields_lines (iface : string) (fields : list (string * string))
    (rest : string) :
  find_char ch_newline iface = None ->
  Forall (fun kv => find_char ch_newline (fst kv) = None
                    /\ find_char ch_newline (snd kv) = None) fields ->
  getlines (render_fields iface fields ++ rest) =
  (map (field_line iface) (present fields) ++ getlines rest)%list.
Proof.
  intros Hi Hall. induction Hall as [|kv fields [Hk Hv] _ IH];
    [reflexivity|].
  cbn [render_fields present filter]. fold (present fields).
  destruct (empty (snd kv)) eqn:Hempty; cbn [negb].
  - unfold tx_line. rewrite Hempty. exact IH.
  - cbn [map app]. rewrite <- IH.
    destruct kv as [key value]. cbn [fst snd] in *.
    rewrite append_assoc, tx_line_text by assumption.
    apply getlines_line. unfold field_line. cbn [fst snd].
    repeat (apply find_char_app_none; split); auto.
Qed.

Lemma written_fields_one_line (values : WifiTxPowerOverride) :
  values_one_line values ->
  Forall (fun kv => find_char ch_newline (fst kv) = None
                    /\ find_char ch_newline (snd kv) = None)
    (written_fields values).
Proof.
  unfold values_one_line, written_fields. intro Hall.
  repeat match goal with
         | E : Forall _ (_ :: _) |- _ => inversion E; subst; clear E
         end.
  repeat constructor; assumption.
Qed.

Lemma tx_entries_lines (data : umap WifiTxPowerOverride) :
  store_one_line data ->
  getlines (String.concat "" (map tx_entry_text data)) =
  flat_map entry_lines data.
Proof.
  induction 1 as [|[iface values] data [Hi Hv] _ IH]; [reflexivity|].
  cbn [map flat_map]. rewrite concat_cons, tx_entry_text_fields.
  rewrite render_fields_lines;
    [|exact Hi|now apply written_fields_one_line].
  now rewrite IH.
Qed.

Lemma tx_power_text_lines (data : umap WifiTxPowerOverride) :
  store_one_line data ->
  getlines (tx_power_text data) = kTxPowerHeader :: flat_map entry_lines data.
Proof.
  intro Hdata.
  change (tx_power_text data)
    with (kTxPowerHeader
          ++ String ch_newline (String.concat "" (map tx_entry_text data))).
  rewrite getlines_line by reflexivity.
  now rewrite tx_entries_lines.
Qed.

(** The text of a list of lines, each ended by a newline. *)
Fixpoint unlines (lines : list string) : string :=
  match lines with
  | [] => ""
  | l :: rest => l ++ nl ++ unlines rest
  end.

Lemma unlines_app (a b : list string) :
  unlines (a ++ b) = unlines a ++ unlines b.
Proof.
  induction a as [|l a IH]; [reflexivity|].
  cbn [app unlines]. now rewrite IH, !append_assoc.
Qed.

Lemma render_fields_unlines (iface : string)
    (fields : list (string * string)) :
  render_fields iface fields = unlines (map (field_line iface) (present fields)).
Proof.
  induction fields as [|[key value] fields IH]; [reflexivity|].
  cbn [render_fields present filter fst snd]. fold (present fields).
  destruct (empty value) eqn:Hempty; cbn [negb].
  - unfold tx_line. now rewrite Hempty.
  - cbn [map unlines]. rewrite tx_line_text by exact Hempty.
    now rewrite IH.
Qed.

Lemma tx_entries_unlines (data : umap WifiTxPowerOverride) :
  String.concat "" (map tx_entry_text data) = unlines (flat_map entry_lines data).
Proof.
  induction data as [|[iface values] data IH]; [reflexivity|].
  cbn [map flat_map]. rewrite concat_cons, unlines_app, IH.
  now rewrite tx_entry_text_fields, render_fields_unlines.
Qed.

Lemma tx_power_text_unlines (data : umap WifiTxPowerOverride) :
  tx_power_text data = unlines (kTxPowerHeader :: flat_map entry_lines data).
Proof.
  cbn [unlines]. rewrite <- tx_entries_unlines. reflexivity.
Qed.

Section WriteOrder.
Context `{Platform}.

Lemma write_text_file_stored (w w' : World) (path text : string) :
  write_text_file w path text = (true, w') ->
  w' = fs_store path text w.
Proof.
  unfold write_text_file.
  destruct (fs_mkdir_fails w (parent_path path)); [discriminate|].
  destruct (fs_open_fails w path); [discriminate|].
  now intros [= <-].
Qed.

Lemma fs_store_read (w : World) (path text : string) :
  fs_read (fs_store path text w) path = Some text.
Proof. simpl. now rewrite String.eqb_refl. Qed.

(** C2, as the code has it: a successful [write_tx_power_overrides]
    leaves a file that holds the header line followed, record by record
    in the iteration order of the map, by one line per non-empty field in
    the fixed order card_name, power_level, profile_vendor_id,
    profile_device_id, profile_chipset, tx_power, tx_power_high,
    tx_power_low; a record without values contributes nothing.  Where no
    name and no value holds a newline, these are the lines a reader of
    the file gets. *)
Theorem write_tx_power_overrides_field_order (w w' : World)
    (data : umap WifiTxPowerOverride)
    (Hwritten : write_tx_power_overrides w data = (true, w')) :
  fs_read w' kTxPowerOverridesPath
  = Some (unlines (kTxPowerHeader :: flat_map entry_lines data))
  /\ (store_one_line data ->
      option_map getlines (fs_read w' kTxPowerOverridesPath)
      = Some (kTxPowerHeader :: flat_map entry_lines data)).
Proof.
  apply write_text_file_stored in Hwritten. subst w'.
  rewrite fs_store_read, <- tx_power_text_unlines. split; [reflexivity|].
  intro Hlines. cbn [option_map]. now rewrite tx_power_text_lines.
Qed.

End WriteOrder.

Section WriteOrderRuns.
#[local] Existing Instance Sample.platform.

(** A store with one record that sets a name, a level and a profile pin,
    and one record without any value. *)
Definition pinned_record : WifiTxPowerOverride :=
  {| tx_power := ""; tx_power_high := "900"; tx_power_low := "";
     card_name := "Alfa"; power_level := "HIGH";
     profile_vendor_id := "0x0BDA"; profile_device_id := "0x8812";
     profile_chipset := "" |}.

Definition pinned_store : umap WifiTxPowerOverride :=
  [("wlan0", pinned_record); ("wlan1", no_tx_override)].

Lemma write_tx_power_overrides_field_order_witness :
  option_map getlines
    (fs_read (snd (write_tx_power_overrides Sample.world pinned_store))
       kTxPowerOverridesPath)
  = Some [kTxPowerHeader; "wlan0.card_name=Alfa"; "wlan0.power_level=HIGH";
          "wlan0.profile_vendor_id=0x0BDA"; "wlan0.profile_device_id=0x8812";
          "wlan0.tx_power_high=900"].
Proof.
  apply (write_tx_power_overrides_field_order Sample.world _ pinned_store).
  - reflexivity.
  - repeat constructor.
Defined.

(** C2 as stated fails: the name and the level are written before the
    profile pin, not after it. *)
Lemma write_order_counterexample :
  getlines (tx_entry_text ("wlan0", pinned_record)) =
    ["wlan0.card_name=Alfa"; "wlan0.power_level=HIGH";
     "wlan0.profile_vendor_id=0x0BDA"; "wlan0.profile_device_id=0x8812";
     "wlan0.tx_power_high=900"]
  /\ map (field_line "wlan0") (present (claimed_fields pinned_record)) =
    ["wlan0.profile_vendor_id=0x0BDA"; "wlan0.profile_device_id=0x8812";
     "wlan0.card_name=Alfa"; "wlan0.power_level=HIGH";
     "wlan0.tx_power_high=900"].
Proof. split; reflexivity. Qed.

End WriteOrderRuns.

(** ** Power resolution of a card (C5, C6) *)

Section PowerResolution.
Context `{Platform}.
Variables (w : World) (iface : string) (overrides : umap string)
  (tx_overrides : umap WifiTxPowerOverride)
  (profiles : list WifiCardProfile).

(** C5: when the profile resolved for an interface has power mode FIXED,
    the card has power level "FIXED" and an empty tx_power, whatever the
    override record of the interface holds. *)
Theorem fixed_profile_forces_level (p : WifiCardProfile)
    (Hresolved : resolved_profile w iface tx_overrides profiles = Some p)
    (Hfixed : power_mode p = "FIXED") :
  card_power_level (build_wifi_card w iface overrides tx_overrides profiles)
    = "FIXED"
  /\ card_tx_power (build_wifi_card w iface overrides tx_overrides profiles)
    = "".
Proof.
  unfold build_wifi_card, resolved_profile in *.
  destruct (card_identity w iface) as [[[driver phy] mac_text] [vendor device]].
  cbn [card_power_level card_tx_power]. rewrite Hresolved, Hfixed.
  split; reflexivity.
Qed.

(** The tx_power of a card whose record selects a level on a profile the
    code does not take for FIXED. *)
Lemma level_selects_figure (p : WifiCardProfile) (o : WifiTxPowerOverride) :
  resolved_profile w iface tx_overrides profiles = Some p ->
  (to_upper (power_mode p) =? "FIXED")%string = false ->
  um_find iface tx_overrides = Some o ->
  empty (power_level o) = false ->
  (0 < selected_mw p (to_upper (power_level o)))%Z ->
  card_tx_power (build_wifi_card w iface overrides tx_overrides profiles)
  = to_string (selected_mw p (to_upper (power_level o))).
Proof.
  intros Hresolved Hmode Hfind Hlevel Hpos.
  unfold build_wifi_card, resolved_profile in *.
  destruct (card_identity w iface) as [[[driver phy] mac_text] [vendor device]].
  cbn [card_tx_power]. rewrite Hfind in *. rewrite Hresolved, Hmode, Hlevel.
  cbn [negb andb]. rewrite to_upper_empty, Hlevel. cbn [negb andb].
  apply Z.ltb_lt in Hpos. now rewrite Hpos.
Qed.

(** C6: on a profile that is not FIXED, a record whose power level
    uppercases to LOWEST, LOW, MID or HIGH makes the card's tx_power the
    decimal text of the profile's figure of that name, when the figure is
    positive.  The figure is read from the profile list of the call. *)
Theorem level_rederives_tx_power (p : WifiCardProfile)
    (o : WifiTxPowerOverride)
    (Hresolved : resolved_profile w iface tx_overrides profiles = Some p)
    (Hmode : to_upper (power_mode p) <> "FIXED")
    (Hfind : um_find iface tx_overrides = Some o)
    (Hlevel : power_level o <> "") :
  let card := build_wifi_card w iface overrides tx_overrides profiles in
  (to_upper (power_level o) = "LOWEST" -> (0 < lowest_mw p)%Z ->
   card_tx_power card = to_string (lowest_mw p))
  /\ (to_upper (power_level o) = "LOW" -> (0 < low_mw p)%Z ->
      card_tx_power card = to_string (low_mw p))
  /\ (to_upper (power_level o) = "MID" -> (0 < mid_mw p)%Z ->
      card_tx_power card = to_string (mid_mw p))
  /\ (to_upper (power_level o) = "HIGH" -> (0 < high_mw p)%Z ->
      card_tx_power card = to_string (high_mw p)).
Proof.
  apply String.eqb_neq in Hmode. apply empty_false in Hlevel.
  cbv zeta.
  repeat split; intros Hname Hpos;
    rewrite (level_selects_figure p o Hresolved Hmode Hfind Hlevel);
    rewrite Hname; try reflexivity; exact Hpos.
Qed.

End PowerResolution.

Section PowerResolutionRuns.
#[local] Existing Instance Sample.platform.

(** A record that pins the fixed-power onboard adapter and still carries
    a raw tx_power and a level. *)
Definition fixed_pin_store : umap WifiTxPowerOverride :=
  [("wlan0",
    {| tx_power := "500"; tx_power_high := ""; tx_power_low := "";
       card_name := ""; power_level := "HIGH";
       profile_vendor_id := "0x02D0"; profile_device_id := "0xA9A6";
       profile_chipset := "" |})].

Lemma fixed_profile_forces_level_witness :
  card_power_level
    (build_wifi_card Sample.world "wlan0" [] fixed_pin_store
       default_wifi_card_profiles) = "FIXED"
  /\ card_tx_power
    (build_wifi_card Sample.world "wlan0" [] fixed_pin_store
       default_wifi_card_profiles) = "".
Proof.
  eapply (fixed_profile_forces_level Sample.world "wlan0" [] fixed_pin_store
            default_wifi_card_profiles);
    reflexivity.
Defined.

(** A record that only selects the level [high], in lower case. *)
Definition high_level_record : WifiTxPowerOverride :=
  {| tx_power := ""; tx_power_high := ""; tx_power_low := "";
     card_name := ""; power_level := "high";
     profile_vendor_id := ""; profile_device_id := "";
     profile_chipset := "" |}.

Definition high_level_store : umap WifiTxPowerOverride :=
  [("wlan0", high_level_record)].

(** The variable-power USB adapter of the built-in catalog, with a given
    [high] figure. *)
Definition lb_link_profile (high : Z) : WifiCardProfile :=
  {| vendor_id := "0x0BDA"; device_id := "0xA81A";
     chipset := "OPENHD_RTL_88X2EU"; name := "LB-Link 8812eu";
     power_mode := "MW"; min_mw := 25; max_mw := 1000; lowest_mw := 25;
     low_mw := 100; mid_mw := 500; high_mw := high |}.

Lemma level_rederives_tx_power_witness :
  card_tx_power
    (build_wifi_card Sample.world "wlan0" [] high_level_store
       default_wifi_card_profiles) = "1000"
  /\ card_tx_power
    (build_wifi_card Sample.world "wlan0" [] high_level_store
       [lb_link_profile 630]) = "630".
Proof.
  split.
  - refine (proj2 (proj2 (proj2
      (level_rederives_tx_power Sample.world "wlan0" [] high_level_store
         default_wifi_card_profiles (lb_link_profile 1000)
         high_level_record _ _ _ _))) _ _);
      try reflexivity; try discriminate.
  - refine (proj2 (proj2 (proj2
      (level_rederives_tx_power Sample.world "wlan0" [] high_level_store
         [lb_link_profile 630] (lb_link_profile 630)
         high_level_record _ _ _ _))) _ _);
      try reflexivity; try discriminate.
Defined.

End PowerResolutionRuns.

(** ** Policy rejections of the dispatcher (C8, C9) *)

(** [{"type":"sysutil.link.control.response","ok":false,
      "message":"40 MHz channel width is disabled."}] and a newline. *)
Definition disabled_width_response : string :=
  "{" ++ dq ++ "type" ++ dq ++ ":" ++ dq ++ "sysutil.link.control.response"
  ++ dq ++ "," ++ dq ++ "ok" ++ dq ++ ":false," ++ dq ++ "message" ++ dq
  ++ ":" ++ dq ++ "40 MHz channel width is disabled." ++ dq ++ "}" ++ nl.

(** [{"type":"sysutil.wifi.update.response","ok":false,"action":"set"}]
    and a newline. *)
Definition set_refused_response : string :=
  "{" ++ dq ++ "type" ++ dq ++ ":" ++ dq ++ "sysutil.wifi.update.response"
  ++ dq ++ "," ++ dq ++ "ok" ++ dq ++ ":false," ++ dq ++ "action" ++ dq
  ++ ":" ++ dq ++ "set" ++ dq ++ "}" ++ nl.

Section Rejections.
Context `{Platform}.

(** C8: a link-control line whose [channel_width_mhz] is 40 is answered
    with [ok:false] and the disabled-width message, whatever other fields
    it carries; the only effect is the request line logged to standard
    error, so the control socket is not contacted. *)
Theorem width_40_is_rejected (w : World) (line : string)
    (Hwidth : extract_int_field line "channel_width_mhz" = Some 40%Z) :
  fst (handle_link_control_request w line) = disabled_width_response
  /\ (exists logged,
        snd (handle_link_control_request w line) = log_stderr logged w)
  /\ ctrl_sent (snd (handle_link_control_request w line)) = ctrl_sent w.
Proof.
  unfold handle_link_control_request. cbv zeta. rewrite Hwidth.
  cbn [has_value]. rewrite !orb_true_r. cbn [orb negb Z.eqb Pos.eqb].
  cbn [fst snd]. split; [reflexivity|]. split; [|reflexivity].
  eexists. reflexivity.
Qed.

(** C9: an update line with action "set" and a missing or empty interface
    is answered with [ok:false], and the world (both override files
    included) is left as it was. *)
Theorem set_without_interface_is_refused (w : World) (line : string)
    (Haction : extract_string_field line "action" = Some "set")
    (Hiface : extract_string_field line "interface" = None
              \/ extract_string_field line "interface" = Some "") :
  handle_wifi_update w line = (set_refused_response, w).
Proof.
  unfold handle_wifi_update. cbv zeta. rewrite Haction.
  cbn [value_or String.eqb Ascii.eqb Bool.eqb].
  destruct Hiface as [-> | ->]; reflexivity.
Qed.

End Rejections.

Section RejectionRuns.
#[local] Existing Instance Sample.platform.

(** A link-control line that asks for 40 MHz along with other valid
    fields. *)
Definition width_40_line : string :=
  Sample.line [Sample.text_member "type" "sysutil.link.control";
               Sample.text_member "interface" "wlan0";
               Sample.number_member "frequency_mhz" 5745;
               Sample.number_member "channel_width_mhz" 40;
               Sample.number_member "mcs_index" 2].

Lemma width_40_is_rejected_witness :
  extract_int_field width_40_line "frequency_mhz" = Some 5745%Z
  /\ fst (handle_link_control_request Sample.world width_40_line)
     = disabled_width_response
  /\ ctrl_sent (snd (handle_link_control_request Sample.world width_40_line))
     = [].
Proof.
  split; [reflexivity|].
  split; apply (width_40_is_rejected Sample.world width_40_line);
    reflexivity.
Defined.

(** An update line with action "set", an empty interface and an override
    type. *)
Definition set_no_iface_line : string :=
  Sample.line [Sample.text_member "type" "sysutil.wifi.update";
               Sample.text_member "action" "set";
               Sample.text_member "interface" "";
               Sample.text_member "override_type" "DISABLED";
               Sample.text_member "tx_power" "500"].

Lemma set_without_interface_is_refused_witness :
  handle_wifi_update Sample.world set_no_iface_line
  = (set_refused_response, Sample.world).
Proof.
  apply (set_without_interface_is_refused Sample.world set_no_iface_line);
    [reflexivity|right; reflexivity].
Defined.

End RejectionRuns.

(** ** Level and raw power in one update (C10) *)

Lemma um_find_update {V : Type} (dflt : V) (k : string) (f : V -> V)
    (m : umap V) :
  um_find k (um_update dflt k f m) = Some (f (value_or (um_find k m) dflt)).
Proof.
  induction m as [|[k' v] m IH]; simpl.
  - now rewrite String.eqb_refl.
  - destruct (k' =? k)%string eqn:E; simpl; rewrite E; [reflexivity|exact IH].
Qed.

Lemma um_find_update_other {V : Type} (dflt : V) (k k' : string)
    (f : V -> V) (m : umap V) :
  k <> k' -> um_find k' (um_update dflt k f m) = um_find k' m.
Proof.
  intro Hne. induction m as [|[k0 v] m IH]; simpl.
  - apply String.eqb_neq in Hne. now rewrite Hne.
  - destruct (k0 =? k)%string eqn:E; simpl.
    + apply String.eqb_eq in E. subst k0.
      apply String.eqb_neq in Hne. now rewrite Hne.
    + now rewrite IH.
Qed.

Lemma um_find_erase {V : Type} (k : string) (m : umap V) :
  um_find k (um_erase k m) = None.
Proof.
  induction m as [|[k' v] m IH]; simpl; [reflexivity|].
  destruct (k' =? k)%string eqn:E; simpl; [exact IH|now rewrite E].
Qed.

Section LevelWins.
Context `{Platform}.
Variables (line : string) (raw level : string).
Hypothesis Hraw : extract_string_field line "tx_power" = Some raw.
Hypothesis Hlevel : extract_string_field line "power_level" = Some level.
Hypothesis Hfilled : level <> "".
Hypothesis Hnot_auto : equal_after_uppercase level "AUTO" = false.




Lemma write_tx_power_overrides_succeeds (w1 : World)
    (store : umap WifiTxPowerOverride) :
  fs_mkdir_fails w1 (parent_path kTxPowerOverridesPath) = false ->
  fs_open_fails w1 kTxPowerOverridesPath = false ->
  write_tx_power_overrides w1 store
  = (true, fs_store kTxPowerOverridesPath (tx_power_text store) w1).
Proof.
  intros Hmkdir Hopen. unfold write_tx_power_overrides, write_text_file.
  now rewrite Hmkdir, Hopen.
Qed.


(** The refresh and the response leave the files as they are. *)
Lemma wifi_update_response_keeps_files (w1 : World) (action : string)
    (ok : bool) :
  fs_read (snd (wifi_update_response w1 action ok)) = fs_read w1.
Proof.
  unfold wifi_update_response, wifi_cards. cbv zeta.
  destruct ok; [|reflexivity].
  now destruct (g_wifi_initialized (refresh_wifi_info w1)).
Qed.



End LevelWins.

Section LevelWinsRuns.
#[local] Existing Instance Sample.platform.


(** A store in which the interface already has raw power values. *)
Definition raw_power_store : umap WifiTxPowerOverride :=
  [("wlan0",
    {| tx_power := "300"; tx_power_high := "900"; tx_power_low := "20";
       card_name := "Alfa"; power_level := "";
       profile_vendor_id := ""; profile_device_id := "";
       profile_chipset := "" |})].



End LevelWinsRuns.

(** ** Round trip of the power-override store (C7) *)

Lemma ltrim_length (s : string) : length (ltrim s) <= length s.
Proof.
  induction s as [|c s IH]; simpl; [lia|].
  destruct (isspace c); simpl; lia.
Qed.

Lemma rtrim_length (s : string) : length (rtrim s) <= length s.
Proof.
  induction s as [|c s IH]; simpl; [lia|].
  destruct (rtrim s); [destruct (isspace c)|]; simpl in *; lia.
Qed.

(** A text that [trim_copy] leaves alone starts with a non-space. *)
Lemma trimmed_first_char (c : ascii) (s : string) :
  trim_copy (String c s) = String c s -> isspace c = false.
Proof.
  unfold trim_copy. simpl. destruct (isspace c); [|reflexivity].
  intro Heq. apply (f_equal length) in Heq. simpl in Heq.
  pose proof (rtrim_length (ltrim s)). pose proof (ltrim_length s). lia.
Qed.

Lemma trimmed_rtrim (s : string) : trim_copy s = s -> rtrim s = s.
Proof. intro Heq. rewrite <- Heq at 1. rewrite trim_copy_rtrim_fixed. exact Heq. Qed.

Lemma rtrim_nonspace (c : ascii) (s : string) :
  isspace c = false -> rtrim (String c s) = String c (rtrim s).
Proof. intro Hc. simpl. rewrite Hc. now destruct (rtrim s). Qed.

Lemma rtrim_app_char (a : string) (c : ascii) (b : string) :
  isspace c = false -> rtrim (a ++ String c b) = a ++ String c (rtrim b).
Proof.
  intro Hc. induction a as [|x a IH].
  - now apply rtrim_nonspace.
  - cbn [append rtrim]. rewrite IH. now destruct a.
Qed.

(** An interface name that survives a write and a reload: not empty, no
    surrounding white space, no leading [#], and none of the separators
    [.], [=] and newline. *)
Definition plain_key (k : string) : Prop :=
  k <> "" /\ trim_copy k = k /\ first_char_is "#" k = false
  /\ find_char "." k = None /\ find_char "=" k = None
  /\ find_char ch_newline k = None.

(** A field name of the file format. *)
Definition plain_field (k : string) : Prop :=
  k <> "" /\ trim_copy k = k /\ find_char "=" k = None
  /\ find_char ch_newline k = None.

Lemma trimmed_app_dot (j k : string) :
  j <> "" -> trim_copy j = j -> trim_copy k = k ->
  trim_copy (j ++ String "." k) = j ++ String "." k.
Proof.
  intros Hj Htj Htk. destruct j as [|c s]; [congruence|].
  apply trim_copy_fixed; [now apply trimmed_first_char with s|].
  change (rtrim (String c s ++ String "." k) = String c s ++ String "." k).
  rewrite rtrim_app_char by reflexivity.
  now rewrite (trimmed_rtrim k Htk).
Qed.

(** What the loader does with the line of one field. *)
Lemma load_tx_power_line_field (m : umap WifiTxPowerOverride)
    (j k v : string) :
  plain_key j -> plain_field k ->
  load_tx_power_line m (field_line j (k, v)) =
  um_update no_tx_override j
    (assign_tx_field (to_upper k) (trim_copy (rtrim v))) m.
Proof.
  intros (Hj & Htj & Hhash & Hdot & Heq & _) (Hk & Htk & Hkeq & _).
  assert (Hline : field_line j (k, v) = (j ++ String "." k) ++ String "=" v).
  { unfold field_line. cbn [fst snd]. now rewrite !append_assoc. }
  assert (Hprefix : trim_copy (j ++ String "." k) = j ++ String "." k)
    by now apply trimmed_app_dot.
  destruct j as [|c s] eqn:Ej; [congruence|]. rewrite <- Ej in *.
  assert (Hc : isspace c = false)
    by (apply trimmed_first_char with s; congruence).
  assert (Htrim : trim_copy (field_line j (k, v))
                  = (j ++ String "." k) ++ String "=" (rtrim v)).
  { rewrite Hline. unfold trim_copy.
    replace (ltrim ((j ++ String "." k) ++ String "=" v))
      with ((j ++ String "." k) ++ String "=" v)
      by (rewrite Ej; cbn [append ltrim]; now rewrite Hc).
    now apply rtrim_app_char. }
  unfold load_tx_power_line. rewrite Htrim.
  replace (empty ((j ++ String "." k) ++ String "=" (rtrim v))) with false
    by (rewrite Ej; reflexivity).
  replace (first_char_is "#" ((j ++ String "." k) ++ String "=" (rtrim v)))
    with false by (rewrite Ej in *; exact (eq_sym Hhash)).
  cbn [orb].
  rewrite find_char_first
    by (apply find_char_app_none; split;
        [exact Heq|cbn [find_char]; now rewrite Hkeq]).
  rewrite substr_to_app, substr_from_app, Hprefix.
  replace (empty (j ++ String "." k)) with false by (rewrite Ej; reflexivity).
  rewrite find_char_first by exact Hdot.
  rewrite substr_to_app, substr_from_app, Htj, Htk.
  replace (empty j) with false by (rewrite Ej; reflexivity).
  replace (empty k) with false by (symmetry; now apply empty_false).
  reflexivity.
Qed.

Lemma written_fields_plain (values : WifiTxPowerOverride) :
  Forall (fun kv => plain_field (fst kv)) (written_fields values).
Proof.
  unfold written_fields.
  repeat (apply Forall_cons;
          [unfold plain_field; cbn [fst];
           repeat split; try reflexivity; discriminate|]).
  apply Forall_nil.
Qed.

Lemma present_Forall (P : string * string -> Prop)
    (fields : list (string * string)) :
  Forall P fields -> Forall P (present fields).
Proof.
  induction 1 as [|kv fields Hkv _ IH]; [constructor|].
  unfold present. cbn [filter]. fold (present fields).
  destruct (negb (empty (snd kv))); [now constructor|exact IH].
Qed.

(** What a reload makes of the fields written for one record: each field
    is assigned in turn, starting from a record that does not exist. *)
Definition reload_fields (fields : list (string * string))
    (start : option WifiTxPowerOverride) : option WifiTxPowerOverride :=
  fold_left
    (fun acc kv =>
       Some (assign_tx_field (to_upper (fst kv)) (trim_copy (rtrim (snd kv)))
               (value_or acc no_tx_override)))
    fields start.

Definition reloaded (values : WifiTxPowerOverride)
    : option WifiTxPowerOverride :=
  reload_fields (present (written_fields values)) None.

Section RoundTripLines.
Variable i : string.

Lemma load_lines_other (j : string) (fields : list (string * string)) :
  plain_key j -> j <> i ->
  Forall (fun kv => plain_field (fst kv)) fields ->
  forall m,
    um_find i (fold_left load_tx_power_line (map (field_line j) fields) m)
    = um_find i m.
Proof.
  intros Hj Hne Hall. induction Hall as [|[k v] fields Hk _ IH]; intro m;
    [reflexivity|].
  cbn [map fold_left]. rewrite IH, load_tx_power_line_field by assumption.
  now apply um_find_update_other.
Qed.

Lemma load_lines_own (fields : list (string * string)) :
  plain_key i ->
  Forall (fun kv => plain_field (fst kv)) fields ->
  forall m,
    um_find i (fold_left load_tx_power_line (map (field_line i) fields) m)
    = reload_fields fields (um_find i m).
Proof.
  intros Hi Hall. induction Hall as [|[k v] fields Hk _ IH]; intro m;
    [reflexivity|].
  cbn [map fold_left]. unfold reload_fields in *. cbn [fold_left].
  rewrite IH, load_tx_power_line_field by assumption.
  now rewrite um_find_update.
Qed.

Lemma load_entries_other (data : umap WifiTxPowerOverride) :
  Forall (fun e => plain_key (fst e)) data ->
  ~ In i (um_keys data) ->
  forall m,
    um_find i (fold_left load_tx_power_line (flat_map entry_lines data) m)
    = um_find i m.
Proof.
  intros Hkeys. induction Hkeys as [|[j rj] data Hj _ IH]; intros Hnot m;
    [reflexivity|].
  cbn [flat_map]. rewrite fold_left_app.
  cbn [um_keys map fst] in Hnot.
  rewrite IH by (intro Hin; apply Hnot; now right).
  unfold entry_lines. cbn [fst snd].
  apply load_lines_other; [exact Hj|intro E; apply Hnot; now left|].
  apply present_Forall, written_fields_plain.
Qed.

Lemma load_entries_found (r : WifiTxPowerOverride)
    (data : umap WifiTxPowerOverride) :
  NoDup (um_keys data) ->
  Forall (fun e => plain_key (fst e)) data ->
  In (i, r) data ->
  forall m, um_find i m = None ->
    um_find i (fold_left load_tx_power_line (flat_map entry_lines data) m)
    = reloaded r.
Proof.
  intros Hnodup Hkeys. revert Hnodup.
  induction Hkeys as [|[j rj] data Hj Hrest IH]; intros Hnodup Hin m Hm;
    [destruct Hin|].
  cbn [um_keys map fst] in Hnodup. inversion Hnodup as [|? ? Hfresh Hnd]; subst.
  cbn [flat_map]. rewrite fold_left_app.
  destruct Hin as [Hhead|Htail].
  - injection Hhead as -> ->.
    rewrite load_entries_other by assumption.
    unfold entry_lines. cbn [fst snd].
    rewrite load_lines_own, Hm;
      [reflexivity|exact Hj|apply present_Forall, written_fields_plain].
  - assert (Hne : j <> i).
    { intros ->. apply Hfresh.
      change i with (fst (i, r)). now apply in_map. }
    apply IH; [exact Hnd|exact Htail|].
    unfold entry_lines. cbn [fst snd].
    rewrite load_lines_other;
      [exact Hm|exact Hj|exact Hne
      |apply present_Forall, written_fields_plain].
Qed.

End RoundTripLines.

Lemma um_find_In {V : Type} (k : string) (v : V) (m : umap V) :
  um_find k m = Some v -> In (k, v) m.
Proof.
  induction m as [|[k' v'] m IH]; simpl; [discriminate|].
  destruct (k' =? k)%string eqn:E.
  - apply String.eqb_eq in E. intros [= ->]. left. now subst.
  - intro Hf. right. now apply IH.
Qed.

(** The reload of a written store, record by record. *)
Lemma reload_written_store (data : umap WifiTxPowerOverride)
    (i : string) (r : WifiTxPowerOverride) :
  NoDup (um_keys data) ->
  Forall (fun e => plain_key (fst e)) data ->
  store_one_line data ->
  um_find i data = Some r ->
  um_find i (load_tx_power_text (tx_power_text data)) = reloaded r.
Proof.
  intros Hnodup Hkeys Hlines Hfind.
  unfold load_tx_power_text. rewrite tx_power_text_lines by assumption.
  cbn [fold_left].
  change (load_tx_power_line [] kTxPowerHeader)
    with (@nil (string * WifiTxPowerOverride)).
  apply load_entries_found; try assumption; [|reflexivity].
  now apply um_find_In.
Qed.

(** The only non-empty field of the record is [card_name]. *)
Definition only_card_name (r : WifiTxPowerOverride) : Prop :=
  card_name r <> "" /\ tx_power r = "" /\ tx_power_high r = ""
  /\ tx_power_low r = "" /\ power_level r = ""
  /\ profile_vendor_id r = "" /\ profile_device_id r = ""
  /\ profile_chipset r = "".

Lemma reloaded_only_card_name (r : WifiTxPowerOverride) :
  only_card_name r -> trim_copy (card_name r) = card_name r ->
  reloaded r = Some r.
Proof.
  destruct r as [tx th tl n lv pv pd pc]. unfold only_card_name.
  cbn [card_name tx_power tx_power_high tx_power_low power_level
       profile_vendor_id profile_device_id profile_chipset].
  intros (Hn & -> & -> & -> & -> & -> & -> & ->) Htrim.
  destruct n as [|c s]; [congruence|].
  unfold reloaded, reload_fields, written_fields, present.
  cbn [filter snd fst empty negb fold_left value_or card_name tx_power
       tx_power_high tx_power_low power_level profile_vendor_id
       profile_device_id profile_chipset].
  rewrite (trimmed_rtrim _ Htrim), Htrim. reflexivity.
Qed.

Lemma reloaded_no_values (r : WifiTxPowerOverride) :
  has_tx_power_values r = false -> reloaded r = None.
Proof.
  unfold has_tx_power_values. intro Hnone.
  repeat (apply orb_false_elim in Hnone; destruct Hnone as [Hnone ?]).
  repeat match goal with
         | E : negb (empty _) = false |- _ =>
             apply negb_false_iff, empty_true in E
         end.
  unfold reloaded, reload_fields, written_fields, present.
  cbn [filter snd].
  repeat match goal with E : _ = "" |- _ => rewrite E; clear E end.
  reflexivity.
Qed.

Section RoundTrip.
Context `{Platform}.

(** C7, as the code has it.  Let the store be written successfully and
    loaded again, its interface names being plain (not empty, no
    surrounding white space, no leading [#], no [.], [=] or newline) and
    its values free of newlines.  A record whose only non-empty field is
    a [card_name] without surrounding white space is reproduced as it
    was, and a record with all eight fields empty has no entry after the
    reload. *)
Theorem tx_power_store_round_trip (w w' : World)
    (data : umap WifiTxPowerOverride) (i : string)
    (r : WifiTxPowerOverride)
    (Hmap : NoDup (um_keys data))
    (Hkeys : Forall (fun e => plain_key (fst e)) data)
    (Hlines : store_one_line data)
    (Hwritten : write_tx_power_overrides w data = (true, w'))
    (Hfind : um_find i data = Some r) :
  (only_card_name r -> trim_copy (card_name r) = card_name r ->
   um_find i (load_tx_power_overrides w') = Some r)
  /\ (has_tx_power_values r = false ->
      um_find i (load_tx_power_overrides w') = None).
Proof.
  apply write_text_file_stored in Hwritten. subst w'.
  unfold load_tx_power_overrides. rewrite fs_store_read.
  rewrite (reload_written_store data i r) by assumption.
  split.
  - apply reloaded_only_card_name.
  - apply reloaded_no_values.
Qed.

End RoundTrip.

Section RoundTripRuns.
#[local] Existing Instance Sample.platform.

Definition named_record (n : string) : WifiTxPowerOverride :=
  {| tx_power := ""; tx_power_high := ""; tx_power_low := "";
     card_name := n; power_level := ""; profile_vendor_id := "";
     profile_device_id := ""; profile_chipset := "" |}.

(** A store with a named adapter, a record without values and a record
    with a level and a pin. *)
Definition named_store : umap WifiTxPowerOverride :=
  [("wlan1", no_tx_override); ("wlan0", named_record "Alfa AWUS036ACH");
   ("wlan2", pinned_record)].

Lemma plain_key_wlan (k : string) :
  In k ["wlan0"; "wlan1"; "wlan2"] -> plain_key k.
Proof.
  intros [<-|[<-|[<-|[]]]]; unfold plain_key;
    repeat split; try reflexivity; discriminate.
Qed.

Lemma tx_power_store_round_trip_witness :
  um_find "wlan0"
    (load_tx_power_overrides
       (snd (write_tx_power_overrides Sample.world named_store)))
  = Some (named_record "Alfa AWUS036ACH")
  /\ um_find "wlan1"
    (load_tx_power_overrides
       (snd (write_tx_power_overrides Sample.world named_store)))
  = None.
Proof.
  assert (Hmap : NoDup (um_keys named_store)).
  { repeat constructor; simpl; intuition discriminate. }
  assert (Hkeys : Forall (fun e => plain_key (fst e)) named_store).
  { repeat constructor; apply plain_key_wlan; simpl; tauto. }
  assert (Hlines : store_one_line named_store) by (repeat constructor).
  split.
  - refine (proj1 (tx_power_store_round_trip Sample.world _ named_store
                     "wlan0" (named_record "Alfa AWUS036ACH")
                     Hmap Hkeys Hlines eq_refl eq_refl) _ eq_refl).
    unfold only_card_name. repeat split; try reflexivity. discriminate.
  - exact (proj2 (tx_power_store_round_trip Sample.world _ named_store
                    "wlan1" no_tx_override
                    Hmap Hkeys Hlines eq_refl eq_refl) eq_refl).
Defined.

(** C7 as stated fails on values and names the set request accepts as
    they are.  A [card_name] with surrounding white space comes back
    trimmed.  The record of an interface whose name holds a dot comes back
    as an empty record under the part of the name before the dot, which
    also gives an all-empty record of that name an entry.  A name that
    starts with [#] or holds [=] is lost, a name with surrounding white
    space comes back trimmed, and a value with a newline can set a field
    of another interface. *)
Lemma round_trip_counterexample :
  load_tx_power_text (tx_power_text [("wlan0", named_record " Alfa")])
  = [("wlan0", named_record "Alfa")]
  /\ load_tx_power_text (tx_power_text [("wlan0.1", named_record "Alfa")])
  = [("wlan0", no_tx_override)]
  /\ um_find "wlan0"
       (load_tx_power_text
          (tx_power_text [("wlan0", no_tx_override);
                          ("wlan0.1", named_record "Alfa")]))
  = Some no_tx_override
  /\ load_tx_power_text (tx_power_text [("#wlan0", named_record "Alfa")])
  = []
  /\ load_tx_power_text (tx_power_text [("wlan=0", named_record "Alfa")])
  = []
  /\ load_tx_power_text (tx_power_text [(" wlan0", named_record "Alfa")])
  = [("wlan0", named_record "Alfa")]
  /\ um_find "wlan0"
       (load_tx_power_text
          (tx_power_text
             [("wlan0", named_record "Alfa");
              ("wlan1",
               named_record ("Beta" ++ nl ++ "wlan0.tx_power=700"))]))
  = Some (set_tx_power "700" (named_record "Alfa")).
Proof. repeat split; reflexivity. Qed.

End RoundTripRuns.

(** ** The scenarios of section 8 on the sample platform *)

Section Scenarios.
#[local] Existing Instance Sample.platform.

Definition scenario_profile (c n : string) : WifiCardProfile :=
  {| vendor_id := "0x0BDA"; device_id := "0x8812"; chipset := c; name := n;
     power_mode := "MW"; min_mw := 25; max_mw := 1000; lowest_mw := 25;
     low_mw := 100; mid_mw := 500; high_mw := 1000 |}.

(** Three profiles of one vendor/device: chipset A, generic, chipset B. *)
Example precedence_scenario :
  let profiles := [scenario_profile "CHIP_A" "name1";
                   scenario_profile "" "name2";
                   scenario_profile "CHIP_B" "name3"] in
  option_map name (find_wifi_profile profiles "0x0bda" "0x8812" "CHIP_B")
    = Some "name3"
  /\ option_map name (find_wifi_profile profiles "0x0bda" "0x8812" "CHIP_C")
    = Some "name2"
  /\ option_map name
       (find_wifi_profile [scenario_profile "CHIP_A" "name1";
                           scenario_profile "CHIP_B" "name3"]
          "0x0bda" "0x8812" "CHIP_C")
    = Some "name1"
  /\ find_wifi_profile profiles "0x0bda" "0x8813" "CHIP_B" = None.
Proof. repeat split; reflexivity. Qed.

(** A catalog file with one MW profile that gives [lowest] and [high]. *)
Definition scenario_catalog : string :=
  "{" ++ dq ++ "cards" ++ dq ++ ":["
  ++ Sample.line [Sample.text_member "vendor_id" "0x0BDA";
                  Sample.text_member "device_id" "0xA81A";
                  Sample.text_member "name" "bench {card}";
                  Sample.number_member "lowest" 25;
                  Sample.number_member "high" 1000]
  ++ "]}".

Definition scenario_world : World :=
  fs_store kWifiCardsPath scenario_catalog Sample.world.

Example catalog_scenario :
  load_wifi_card_profiles scenario_world
  = [ {| vendor_id := "0x0BDA"; device_id := "0xA81A"; chipset := "";
         name := "bench {card}"; power_mode := "MW"; min_mw := 25;
         max_mw := 1000; lowest_mw := 25; low_mw := 25; mid_mw := 25;
         high_mw := 1000 |} ].
Proof. reflexivity. Qed.

(** No overrides: the one adapter of the world takes its figures from
    the catalog and keeps its detected type. *)
Example end_to_end_scenario :
  let cards := g_wifi_cards (refresh_wifi_info scenario_world) in
  map interface_name cards = ["wlan0"]
  /\ map effective_type cards = map detected_type cards
  /\ map card_power_mode cards = ["MW"]
  /\ map power_high cards = ["1000"]
  /\ map card_tx_power cards = [""].
Proof. repeat split; reflexivity. Qed.

Example driver_table_scenario :
  driver_to_type "rtl88x2eu_ohd" = "OPENHD_RTL_88X2EU"
  /\ driver_to_type "ath9k_htc" = "ATHEROS"
  /\ driver_to_type "rtl88xxau" = "RTL_88X2AU"
  /\ driver_to_type "e1000e" = "UNKNOWN"
  /\ is_openhd_wifibroadcast_type " openhd_rtl_88x2eu " = true.
Proof. repeat split; reflexivity. Qed.

End Scenarios.

(** * Further properties of the program *)

(** ** Trimming and case folding *)

Lemma ltrim_head (s : string) :
  ltrim s = "" \/ exists c t, ltrim s = String c t /\ isspace c = false.
Proof.
  induction s as [|c s IH]; [now left|].
  simpl. destruct (isspace c) eqn:Hc; [exact IH|].
  right. now exists c, s.
Qed.

Lemma ltrim_to_upper (s : string) : ltrim (to_upper s) = to_upper (ltrim s).
Proof.
  induction s as [|c s IH]; [reflexivity|].
  simpl. rewrite isspace_toupper. now destruct (isspace c).
Qed.

Lemma trim_copy_to_upper (s : string) :
  trim_copy (to_upper s) = to_upper (trim_copy s).
Proof. unfold trim_copy. now rewrite ltrim_to_upper, rtrim_to_upper. Qed.

Lemma trim_copy_ltrim_fixed (s : string) : ltrim (trim_copy s) = trim_copy s.
Proof.
  unfold trim_copy. destruct (ltrim_head s) as [E|(c & t & E & Hc)];
    rewrite E; [reflexivity|].
  rewrite rtrim_nonspace by exact Hc. now apply ltrim_nonspace.
Qed.

Lemma trim_copy_idem (s : string) : trim_copy (trim_copy s) = trim_copy s.
Proof.
  unfold trim_copy at 1.
  now rewrite trim_copy_ltrim_fixed, trim_copy_rtrim_fixed.
Qed.

Lemma normalize_chipset_trimmed (s : string) :
  trim_copy (normalize_chipset s) = normalize_chipset s.
Proof.
  unfold normalize_chipset. rewrite trim_copy_to_upper.
  now rewrite trim_copy_idem.
Qed.

Lemma normalize_chipset_idem (s : string) :
  normalize_chipset (normalize_chipset s) = normalize_chipset s.
Proof.
  unfold normalize_chipset at 1.
  rewrite normalize_chipset_trimmed. unfold normalize_chipset.
  now rewrite to_upper_idem.
Qed.

(** X1: [trim_copy] is idempotent, and its result has no white space left at
    either end. *)
Theorem trim_copy_idempotent (s : string) :
  trim_copy (trim_copy s) = trim_copy s
  /\ ltrim (trim_copy s) = trim_copy s
  /\ rtrim (trim_copy s) = trim_copy s.
Proof.
  split; [apply trim_copy_idem|].
  split; [apply trim_copy_ltrim_fixed|apply trim_copy_rtrim_fixed].
Qed.

(** [normalize_chipset] is idempotent and its result is a fixed point of
    both [trim_copy] and [to_upper]. *)
Lemma normalize_chipset_idempotent (s : string) :
  normalize_chipset (normalize_chipset s) = normalize_chipset s
  /\ trim_copy (normalize_chipset s) = normalize_chipset s
  /\ to_upper (normalize_chipset s) = normalize_chipset s.
Proof.
  split; [apply normalize_chipset_idem|].
  split; [apply normalize_chipset_trimmed|].
  unfold normalize_chipset. apply to_upper_idem.
Qed.

(** X2: The driver table does not see the case of a driver name: two names
    that agree after uppercasing are classified alike. *)
Theorem driver_to_type_ignores_case (a b : string)
    (Hsame : to_upper a = to_upper b) :
  driver_to_type a = driver_to_type b.
Proof.
  unfold driver_to_type, equal_after_uppercase, contains_after_uppercase.
  now rewrite Hsame.
Qed.

Lemma driver_to_type_ignores_case_witness :
  driver_to_type "RTL88x2EU_ohd" = driver_to_type "rtl88x2eu_OHD"
  /\ driver_to_type "rtl88x2eu_OHD" = "OPENHD_RTL_88X2EU".
Proof.
  split; [|reflexivity].
  apply (driver_to_type_ignores_case "RTL88x2EU_ohd" "rtl88x2eu_OHD").
  reflexivity.
Defined.

(** A type is an OpenHD wifibroadcast type whatever its case and the
    white space around it. *)
Lemma is_openhd_wifibroadcast_type_normalised (type_name : string) :
  is_openhd_wifibroadcast_type (normalize_chipset type_name)
  = is_openhd_wifibroadcast_type type_name.
Proof.
  unfold is_openhd_wifibroadcast_type.
  pose proof (normalize_chipset_idem type_name) as Hidem.
  unfold normalize_chipset in *. now rewrite Hidem.
Qed.

(** ** What a profile lookup can return *)

Section LookupSoundness.
Variables target_vendor target_device target_chipset : string.
Variable profiles : list WifiCardProfile.


Lemma early_return_matches (p : WifiCardProfile) :
  early_return target_vendor target_device target_chipset p = true ->
  vendor_device_matches target_vendor target_device p = true.
Proof.
  unfold early_return. intro E.
  apply andb_true_iff in E. destruct E as [E _].
  apply andb_true_iff in E. now destruct E.
Qed.

Lemma generic_matches_matches (p : WifiCardProfile) :
  generic_matches target_vendor target_device p = true ->
  vendor_device_matches target_vendor target_device p = true.
Proof.
  unfold generic_matches. intro E. apply andb_true_iff in E. now destruct E.
Qed.

Lemma find_wifi_profile_facts :
  (forall p,
      find_wifi_profile profiles target_vendor target_device target_chipset
      = Some p ->
      In p profiles
      /\ vendor_device_matches target_vendor target_device p = true)
  /\ (find_wifi_profile profiles target_vendor target_device target_chipset
      = None <->
      forall p, In p profiles ->
                vendor_device_matches target_vendor target_device p = false).
Proof.
  unfold find_wifi_profile. rewrite find_wifi_profile_from_spec.
  cbn [or_else].
  destruct (find (early_return target_vendor target_device target_chipset)
              profiles) as [e|] eqn:He.
  { apply find_some in He. destruct He as [Hin Hm].
    apply early_return_matches in Hm. split.
    - intros p [= <-]. now split.
    - split; [discriminate|]. intro Hnone.
      rewrite (Hnone e Hin) in Hm. discriminate. }
  destruct (find (generic_matches target_vendor target_device) profiles)
    as [g|] eqn:Hg.
  { apply find_some in Hg. destruct Hg as [Hin Hm].
    apply generic_matches_matches in Hm. split.
    - intros p [= <-]. now split.
    - split; [discriminate|]. intro Hnone.
      rewrite (Hnone g Hin) in Hm. discriminate. }
  destruct (find (vendor_device_matches target_vendor target_device)
              profiles) as [v|] eqn:Hv.
  { apply find_some in Hv. destruct Hv as [Hin Hm]. split.
    - intros p [= <-]. now split.
    - split; [discriminate|]. intro Hnone.
      rewrite (Hnone v Hin) in Hm. discriminate. }
  split; [discriminate|]. split; [|reflexivity].
  intros _ p Hin. exact (find_none _ _ Hv p Hin).
Qed.

(** X3: A profile that [find_wifi_profile] returns is one of the list and
    matches vendor and device; the lookup returns nothing exactly when no
    profile of the list matches vendor and device. *)
Theorem find_wifi_profile_sound :
  (forall p,
      find_wifi_profile profiles target_vendor target_device target_chipset
      = Some p ->
      In p profiles
      /\ vendor_device_matches target_vendor target_device p = true)
  /\ (find_wifi_profile profiles target_vendor target_device target_chipset
      = None <->
      forall p, In p profiles ->
                vendor_device_matches target_vendor target_device p = false).
Proof. exact find_wifi_profile_facts. Qed.

End LookupSoundness.

(** ** The profile catalog *)

Section Catalog.
Context `{Platform}.

(** What holds of every profile the catalog can hold: identifiers and
    chipset are in normal form, the power mode is upper case, and a FIXED
    profile has no figure. *)
Definition profile_well_formed (p : WifiCardProfile) : Prop :=
  normalize_id (vendor_id p) = vendor_id p
  /\ normalize_id (device_id p) = device_id p
  /\ normalize_chipset (chipset p) = chipset p
  /\ to_upper (power_mode p) = power_mode p
  /\ (power_mode p = "FIXED" ->
      min_mw p = 0%Z /\ max_mw p = 0%Z /\ lowest_mw p = 0%Z
      /\ low_mw p = 0%Z /\ mid_mw p = 0%Z /\ high_mw p = 0%Z).

Lemma parse_profile_object_well_formed (object : string)
    (p : WifiCardProfile) :
  parse_profile_object object = Some p -> profile_well_formed p.
Proof.
  unfold parse_profile_object.
  destruct (extract_string_field object "vendor_id") as [vendor|];
    [|discriminate].
  destruct (extract_string_field object "device_id") as [device|];
    [|discriminate].
  cbv zeta.
  destruct (to_upper (value_or (extract_string_field object "power_mode") "mw")
            =? "FIXED")%string eqn:Hfixed;
    intros [= <-]; unfold profile_well_formed;
    cbn [vendor_id device_id chipset power_mode min_mw max_mw lowest_mw
         low_mw mid_mw high_mw];
    rewrite !normalize_id_idempotent, to_upper_idem;
    (split; [reflexivity|]); (split; [reflexivity|]);
    (split; [apply normalize_chipset_idem|]); (split; [reflexivity|]).
  - intros _. repeat split; reflexivity.
  - apply String.eqb_neq in Hfixed. intro E. congruence.
Qed.

Lemma parse_profile_objects_well_formed (objects : list string) :
  Forall profile_well_formed (parse_profile_objects objects).
Proof.
  unfold parse_profile_objects.
  induction objects as [|object objects IH]; [constructor|].
  cbn [flat_map].
  destruct (parse_profile_object object) as [p|] eqn:Hp; [|exact IH].
  constructor; [now apply parse_profile_object_well_formed with object|].
  exact IH.
Qed.

Lemma default_profiles_well_formed :
  Forall profile_well_formed default_wifi_card_profiles.
Proof.
  repeat constructor; try reflexivity; discriminate.
Qed.

(** X4: The catalog is never empty, whatever the catalog file holds, and
    every profile in it is well formed. *)
Theorem load_wifi_card_profiles_contract (w : World) :
  load_wifi_card_profiles w <> []
  /\ Forall profile_well_formed (load_wifi_card_profiles w).
Proof.
  unfold load_wifi_card_profiles.
  destruct (read_file w kWifiCardsPath) as [content|];
    [|split; [discriminate|apply default_profiles_well_formed]].
  destruct (extract_array_objects content "cards") as [|object objects];
    [split; [discriminate|apply default_profiles_well_formed]|].
  pose proof (parse_profile_objects_well_formed (object :: objects)) as Hall.
  destruct (parse_profile_objects (object :: objects)) as [|p ps];
    [split; [discriminate|apply default_profiles_well_formed]|].
  split; [discriminate|exact Hall].
Qed.

(** X5: An object without [vendor_id] or without [device_id] yields no
    profile, and the other objects of the array are still parsed. *)
Theorem objects_without_identity_are_skipped (object : string)
    (before after : list string)
    (Hmissing : extract_string_field object "vendor_id" = None
                \/ extract_string_field object "device_id" = None) :
  parse_profile_objects (before ++ object :: after)
  = (parse_profile_objects before ++ parse_profile_objects after)%list.
Proof.
  unfold parse_profile_objects. rewrite flat_map_app. cbn [flat_map].
  replace (parse_profile_object object) with (@None WifiCardProfile);
    [reflexivity|].
  unfold parse_profile_object. destruct Hmissing as [-> | ->];
    [reflexivity|].
  now destruct (extract_string_field object "vendor_id").
Qed.

End Catalog.

(** ** Every message is one line *)

(** The text holds no newline. *)
Definition one_line (s : string) : Prop := find_char ch_newline s = None.

Lemma one_line_app (a b : string) :
  one_line a -> one_line b -> one_line (a ++ b).
Proof. intros Ha Hb. apply find_char_app_none. now split. Qed.

Lemma json_escape_one_line (input : string) : one_line (json_escape input).
Proof.
  induction input as [|c s IH]; [reflexivity|].
  cbn [json_escape]. apply one_line_app; [|exact IH].
  unfold json_escape_char.
  destruct (Ascii.eqb c "\"); [reflexivity|].
  destruct (Ascii.eqb c ch_quote); [reflexivity|].
  destruct (Ascii.eqb c ch_newline) eqn:Hnl; [reflexivity|].
  destruct (Ascii.eqb c "013"); [reflexivity|].
  destruct (Ascii.eqb c "009"); [reflexivity|].
  unfold one_line. cbn [find_char]. now rewrite Hnl.
Qed.

Lemma string_of_uint_one_line (d : Decimal.uint) :
  one_line (NilEmpty.string_of_uint d).
Proof.
  induction d as [|d IH|d IH|d IH|d IH|d IH|d IH|d IH|d IH|d IH|d IH];
    [reflexivity|..];
    unfold one_line in *; cbn [NilEmpty.string_of_uint find_char];
    now rewrite IH.
Qed.

Lemma to_string_one_line (value : Z) : one_line (to_string value).
Proof.
  unfold to_string. destruct (Z.to_int value) as [d|d];
    cbn [NilEmpty.string_of_int].
  - apply string_of_uint_one_line.
  - unfold one_line. cbn [find_char].
    now rewrite (string_of_uint_one_line d).
Qed.

Lemma bool_text_one_line (b : bool) : one_line (bool_text b).
Proof. now destruct b. Qed.

(** Splits a text along its appends and closes the pieces. *)
Ltac one_line_pieces :=
  repeat first
    [ reflexivity | assumption | apply json_escape_one_line
    | apply to_string_one_line | apply bool_text_one_line
    | apply one_line_app ].

Lemma json_member_one_line (key value : string) :
  one_line key -> one_line (json_member key value).
Proof. intro Hk. unfold json_member. one_line_pieces. Qed.

Lemma card_json_one_line (card : WifiCardInfo) : one_line (card_json card).
Proof. unfold card_json, json_member. one_line_pieces. Qed.

Lemma cards_json_items_one_line (cards : list WifiCardInfo) (first : bool) :
  one_line (cards_json_items first cards).
Proof.
  revert first. induction cards as [|card cards IH]; intro first;
    [reflexivity|].
  cbn [cards_json_items].
  apply one_line_app; [now destruct first|].
  apply one_line_app; [apply card_json_one_line|apply IH].
Qed.

Lemma append_cards_json_one_line (out : string) (cards : list WifiCardInfo) :
  one_line out -> one_line (append_cards_json out cards).
Proof.
  intro Hout. unfold append_cards_json.
  pose proof (cards_json_items_one_line cards true). one_line_pieces.
Qed.

Lemma json_open_one_line (kind : string) (ok : bool) :
  one_line kind -> one_line (json_open kind ok).
Proof. intro Hk. unfold json_open. one_line_pieces. Qed.

(** A line of the protocol: a text without newline, then one newline. *)
Definition protocol_line (s : string) : Prop :=
  exists body, s = body ++ nl /\ one_line body.

Lemma protocol_line_close (body : string) :
  one_line body -> protocol_line (body ++ "}" ++ nl).
Proof.
  intro Hb. exists (body ++ "}"). split; [now rewrite append_assoc|].
  apply one_line_app; [exact Hb|reflexivity].
Qed.

Lemma protocol_line_app (a b : string) :
  one_line a -> protocol_line b -> protocol_line (a ++ b).
Proof.
  intros Ha (body & -> & Hb). exists (a ++ body).
  split; [now rewrite append_assoc|now apply one_line_app].
Qed.

Lemma protocol_line_brace : protocol_line ("}" ++ nl).
Proof. now exists "}". Qed.

Section OneLine.
Context `{Platform}.

Lemma wifi_update_response_line (w : World) (action : string) (ok : bool) :
  protocol_line (fst (wifi_update_response w action ok)).
Proof.
  unfold wifi_update_response. cbv zeta.
  pose proof (json_open_one_line "sysutil.wifi.update.response" ok eq_refl)
    as Hopen.
  destruct ok.
  - destruct (wifi_cards (refresh_wifi_info w)) as [cards w3]. cbn [fst].
    apply protocol_line_close, append_cards_json_one_line.
    one_line_pieces.
  - cbn [fst]. apply protocol_line_close. one_line_pieces.
Qed.

Lemma int_member_one_line (key : string) (o : option Z) :
  one_line key -> one_line (int_member key o).
Proof.
  intro Hk. destruct o as [z|]; [|reflexivity].
  unfold int_member. one_line_pieces.
Qed.

Lemma link_control_payload_line (line : string) :
  protocol_line (link_control_payload line).
Proof.
  unfold link_control_payload.
  assert (Hiface : one_line
            (if nonempty_field (extract_string_field line "interface")
             then json_member "interface"
                    (value_or (extract_string_field line "interface") "")
             else "")).
  { destruct (nonempty_field _); [|reflexivity].
    now apply json_member_one_line. }
  assert (Hlevel : one_line
            match extract_string_field line "power_level" with
            | Some level =>
                let trimmed := trim_copy level in
                if negb (empty trimmed) then json_member "power_level" trimmed
                else ""
            | None => ""
            end).
  { destruct (extract_string_field line "power_level") as [level|];
      [|reflexivity].
    cbv zeta. destruct (negb (empty (trim_copy level))); [|reflexivity].
    now apply json_member_one_line. }
  repeat first
    [ apply protocol_line_brace
    | apply protocol_line_app;
      [first [reflexivity | assumption | now apply int_member_one_line]|] ].
Qed.

(** X6: Every response of the dispatcher, and the request it relays to the
    control socket, is exactly one line: a text without newline followed
    by one newline, whatever the request, the card list and the peer's
    answer hold. *)
Theorem messages_are_single_lines (w : World) (line : string) :
  protocol_line (fst (build_wifi_response w))
  /\ protocol_line (fst (handle_wifi_update w line))
  /\ protocol_line (fst (handle_link_control_request w line))
  /\ protocol_line (link_control_payload line).
Proof.
  split; [|split; [|split]].
  - unfold build_wifi_response. destruct (wifi_cards w) as [cards w'].
    cbn [fst]. apply protocol_line_close, append_cards_json_one_line.
    pose proof (json_open_one_line "sysutil.wifi.response" true eq_refl).
    one_line_pieces.
  - unfold handle_wifi_update. cbv zeta.
    destruct (if (value_or (extract_string_field line "action") "refresh"
                  =? "set")%string then _ else _) as [ok w1].
    apply wifi_update_response_line.
  - unfold handle_link_control_request. cbv zeta.
    match goal with
    | |- context [match ?branch with pair _ _ => _ end] =>
        destruct branch as [[ok message] w1]
    end.
    cbn [fst].
    match goal with
    | |- protocol_line (?head ++ ?m ++ "}" ++ nl) =>
        replace (head ++ m ++ "}" ++ nl) with ((head ++ m) ++ "}" ++ nl)
          by (now rewrite !append_assoc)
    end.
    apply protocol_line_close.
    pose proof (json_open_one_line "sysutil.link.control.response" ok
                  eq_refl).
    apply one_line_app; [assumption|].
    destruct (negb (empty message)); [|reflexivity].
    now apply json_member_one_line.
  - apply link_control_payload_line.
Qed.

End OneLine.

(** ** Round trip of the type-override store *)

Lemma getlines_unlines (lines : list string) :
  Forall one_line lines -> getlines (unlines lines) = lines.
Proof.
  induction 1 as [|l lines Hl _ IH]; [reflexivity|].
  cbn [unlines].
  change (l ++ nl ++ unlines lines)
    with (l ++ String ch_newline (unlines lines)).
  now rewrite getlines_line, IH.
Qed.

Definition kOverridesHeader : string := "# OpenHD SysUtils Wi-Fi overrides".

(** The line of one type override, without its newline. *)
Definition override_line (entry : string * string) : string :=
  fst entry ++ "=" ++ snd entry.

Lemma overrides_text_unlines (data : umap string) :
  overrides_text data = unlines (kOverridesHeader :: map override_line data).
Proof.
  unfold overrides_text. cbn [unlines]. do 2 f_equal.
  induction data as [|[k v] data IH]; [reflexivity|].
  cbn [map]. rewrite concat_cons, IH. cbn [unlines fst snd].
  unfold override_line. cbn [fst snd]. now rewrite !append_assoc.
Qed.

(** An interface name that the type-override file can hold. *)
Definition override_key (k : string) : Prop :=
  k <> "" /\ trim_copy k = k /\ first_char_is "#" k = false
  /\ find_char "=" k = None /\ one_line k.

(** A type that the type-override file can hold. *)
Definition override_value (v : string) : Prop :=
  v <> "" /\ trim_copy v = v /\ one_line v.

Definition overrides_storable (data : umap string) : Prop :=
  NoDup (um_keys data)
  /\ Forall (fun e => override_key (fst e) /\ override_value (snd e)) data.

Lemma load_overrides_line_entry (m : umap string) (k v : string) :
  override_key k -> override_value v ->
  load_overrides_line m (override_line (k, v)) = um_set k v m.
Proof.
  intros (Hk & Htk & Hhash & Heq & _) (Hv & Htv & _).
  unfold override_line. cbn [fst snd].
  change (k ++ "=" ++ v) with (k ++ String "=" v).
  destruct k as [|c s] eqn:Ek; [congruence|]. rewrite <- Ek in *.
  assert (Hc : isspace c = false)
    by (apply trimmed_first_char with s; congruence).
  assert (Htrim : trim_copy (k ++ String "=" v) = k ++ String "=" v).
  { unfold trim_copy.
    replace (ltrim (k ++ String "=" v)) with (k ++ String "=" v)
      by (rewrite Ek; cbn [append ltrim]; now rewrite Hc).
    rewrite rtrim_app_char by reflexivity.
    now rewrite (trimmed_rtrim v Htv). }
  unfold load_overrides_line. rewrite Htrim.
  replace (empty (k ++ String "=" v)) with false by (rewrite Ek; reflexivity).
  replace (first_char_is "#" (k ++ String "=" v)) with false
    by (rewrite Ek in *; exact (eq_sym Hhash)).
  cbn [orb]. rewrite find_char_first by exact Heq.
  rewrite substr_to_app, substr_from_app, Htk, Htv.
  replace (empty k) with false by (rewrite Ek; reflexivity).
  replace (empty v) with false by (symmetry; now apply empty_false).
  reflexivity.
Qed.

Lemma um_update_fresh {V : Type} (dflt : V) (k : string) (f : V -> V)
    (m : umap V) :
  ~ In k (um_keys m) -> um_update dflt k f m = (m ++ [(k, f dflt)])%list.
Proof.
  induction m as [|[k' v] m IH]; intro Hfresh; [reflexivity|].
  cbn [um_update app]. cbn [um_keys map fst] in Hfresh.
  destruct (k' =? k)%string eqn:E.
  - apply String.eqb_eq in E. elim Hfresh. now left.
  - rewrite IH; [reflexivity|]. intro Hin. apply Hfresh. now right.
Qed.

Lemma um_keys_app {V : Type} (a b : umap V) :
  um_keys (a ++ b)%list = (um_keys a ++ um_keys b)%list.
Proof. unfold um_keys. apply map_app. Qed.

Lemma load_overrides_lines (data : umap string) :
  Forall (fun e => override_key (fst e) /\ override_value (snd e)) data ->
  forall m, NoDup (um_keys (m ++ data)%list) ->
    fold_left load_overrides_line (map override_line data) m
    = (m ++ data)%list.
Proof.
  induction 1 as [|[k v] data [Hk Hv] _ IH]; intros m Hnodup.
  - cbn [map fold_left]. now rewrite app_nil_r.
  - cbn [map fold_left]. cbn [fst snd] in Hk, Hv.
    rewrite load_overrides_line_entry by assumption.
    unfold um_set. rewrite um_update_fresh.
    + rewrite IH; rewrite <- app_assoc; [reflexivity|exact Hnodup].
    + rewrite um_keys_app in Hnodup. cbn [um_keys map fst] in Hnodup.
      apply NoDup_remove_2 in Hnodup. intro Hin. apply Hnodup.
      apply in_or_app. now left.
Qed.

(** Loading the text written for a storable map. *)
Lemma reload_overrides_text (data : umap string) :
  overrides_storable data ->
  fold_left load_overrides_line (getlines (overrides_text data)) [] = data.
Proof.
  intros [Hnodup Hall]. rewrite overrides_text_unlines, getlines_unlines.
  - cbn [fold_left].
    change (load_overrides_line [] kOverridesHeader)
      with (@nil (string * string)).
    now apply load_overrides_lines.
  - constructor; [reflexivity|].
    apply Forall_map. eapply Forall_impl; [|exact Hall].
    intros [k v] [(_ & _ & _ & _ & Hk) (_ & _ & Hv)].
    unfold override_line. cbn [fst snd] in *.
    apply one_line_app; [exact Hk|].
    apply one_line_app; [reflexivity|exact Hv].
Qed.

Section TypeStoreRoundTrip.
Context `{Platform}.

(** X7: A store of distinct plain names and plain types that was written
    successfully is loaded back entry for entry: every interface finds
    the type it had, and an interface without a type finds none. *)
Theorem overrides_round_trip (w w' : World) (data : umap string)
    (i : string)
    (Hstorable : overrides_storable data)
    (Hwritten : write_overrides w data = (true, w')) :
  um_find i (load_overrides w') = um_find i data.
Proof.
  apply write_text_file_stored in Hwritten. subst w'.
  unfold load_overrides. rewrite fs_store_read.
  now rewrite reload_overrides_text.
Qed.

End TypeStoreRoundTrip.

Section TypeStoreRuns.
#[local] Existing Instance Sample.platform.

Definition typed_store : umap string :=
  [("wlan1", "DISABLED"); ("wlan0", "OPENHD_RTL_88X2EU")].

Lemma typed_store_storable : overrides_storable typed_store.
Proof.
  split.
  - repeat constructor; simpl; intuition discriminate.
  - repeat constructor; try reflexivity; discriminate.
Qed.

Lemma overrides_round_trip_witness :
  um_find "wlan0"
    (load_overrides (snd (write_overrides Sample.world typed_store)))
  = Some "OPENHD_RTL_88X2EU"
  /\ um_find "wlan1"
       (load_overrides (snd (write_overrides Sample.world typed_store)))
     = Some "DISABLED"
  /\ um_find "wlan2"
       (load_overrides (snd (write_overrides Sample.world typed_store)))
     = None.
Proof.
  split; [|split];
    rewrite (overrides_round_trip Sample.world _ typed_store _
               typed_store_storable eq_refl);
    reflexivity.
Defined.

End TypeStoreRuns.

(** ** What the loaders can produce *)

Lemma find_char_ltrim (ch : ascii) (s : string) :
  find_char ch s = None -> find_char ch (ltrim s) = None.
Proof.
  induction s as [|c s IH]; [easy|].
  cbn [ltrim]. destruct (isspace c); [|easy].
  cbn [find_char]. destruct (Ascii.eqb c ch); [discriminate|].
  destruct (find_char ch s); [discriminate|]. intros _. now apply IH.
Qed.

Lemma find_char_rtrim (ch : ascii) (s : string) :
  find_char ch s = None -> find_char ch (rtrim s) = None.
Proof.
  induction s as [|c s IH]; [easy|].
  cbn [find_char rtrim]. destruct (Ascii.eqb c ch) eqn:Hc; [discriminate|].
  destruct (find_char ch s); [discriminate|]. intros _.
  specialize (IH eq_refl).
  destruct (rtrim s) as [|d r]; [destruct (isspace c)|];
    cbn [find_char]; rewrite ?Hc; [reflexivity..|].
  cbn [find_char] in IH. now rewrite IH.
Qed.

Lemma find_char_trim_copy (ch : ascii) (s : string) :
  find_char ch s = None -> find_char ch (trim_copy s) = None.
Proof. intro Hs. now apply find_char_rtrim, find_char_ltrim. Qed.

Lemma find_char_substr_to (ch : ascii) (n : nat) (s : string) :
  find_char ch s = None -> find_char ch (substr_to n s) = None.
Proof.
  revert s. induction n as [|n IH]; intros [|c s]; try easy.
  cbn [find_char substr_to]. destruct (Ascii.eqb c ch); [discriminate|].
  destruct (find_char ch s) eqn:E; [discriminate|]. intros _.
  now rewrite IH.
Qed.

Lemma find_char_substr_from (ch : ascii) (n : nat) (s : string) :
  find_char ch s = None -> find_char ch (substr_from n s) = None.
Proof.
  revert s. induction n as [|n IH]; intros [|c s]; try easy.
  cbn [find_char substr_from]. destruct (Ascii.eqb c ch); [discriminate|].
  destruct (find_char ch s) eqn:E; [discriminate|]. intros _.
  now apply IH.
Qed.

(** The text before the first [ch] holds no [ch]. *)
Lemma find_char_before (ch : ascii) (s : string) (pos : nat) :
  find_char ch s = Some pos -> find_char ch (substr_to pos s) = None.
Proof.
  revert pos. induction s as [|c s IH]; intros pos; [discriminate|].
  cbn [find_char]. destruct (Ascii.eqb c ch) eqn:Hc.
  - now intros [= <-].
  - destruct (find_char ch s) as [n|]; [|discriminate].
    intros [= <-]. cbn [substr_to find_char]. rewrite Hc.
    now rewrite IH.
Qed.

Lemma getlines_one_line (s : string) : Forall one_line (getlines s).
Proof.
  induction s as [|c s IH]; [constructor|].
  cbn [getlines]. destruct (Ascii.eqb c ch_newline) eqn:Hc.
  - constructor; [reflexivity|exact IH].
  - destruct (getlines s) as [|l ls].
    + constructor; [|constructor].
      unfold one_line. cbn [find_char]. now rewrite Hc.
    + inversion IH as [|? ? Hl Hls]; subst. constructor; [|exact Hls].
      unfold one_line in *. cbn [find_char]. now rewrite Hc, Hl.
Qed.

Lemma trim_copy_head (c : ascii) (s : string) :
  isspace c = false -> exists t, trim_copy (String c s) = String c t.
Proof.
  intro Hc. unfold trim_copy. rewrite ltrim_nonspace by exact Hc.
  rewrite rtrim_nonspace by exact Hc. now eexists.
Qed.

(** The trimmed text before a position of a trimmed line starts like the
    line. *)
Lemma trimmed_prefix_head (line : string) (pos : nat) :
  trim_copy line = line -> first_char_is "#" line = false ->
  empty (trim_copy (substr_to pos line)) = false ->
  first_char_is "#" (trim_copy (substr_to pos line)) = false.
Proof.
  intros Htrim Hhash Hne.
  destruct line as [|c l]; [now destruct pos|].
  destruct pos as [|n]; [discriminate|].
  cbn [substr_to] in *.
  destruct (trim_copy_head c (substr_to n l)) as [t Ht];
    [now apply trimmed_first_char with l|].
  rewrite Ht. exact Hhash.
Qed.

Lemma um_update_keys {V : Type} (dflt : V) (k : string) (f : V -> V)
    (m : umap V) :
  um_keys (um_update dflt k f m) = um_keys m
  \/ (~ In k (um_keys m)
      /\ um_keys (um_update dflt k f m) = (um_keys m ++ [k])%list).
Proof.
  induction m as [|[k' v] m IH]; [right; split; [easy|reflexivity]|].
  cbn [um_update]. destruct (k' =? k)%string eqn:E; [now left|].
  unfold um_keys in *. cbn [map fst] in *. destruct IH as [IH|[Hfresh IH]].
  - left. now rewrite IH.
  - right. split; [|now rewrite IH].
    apply String.eqb_neq in E. intros [->|Hin]; [now elim E|now elim Hfresh].
Qed.

Lemma um_update_NoDup {V : Type} (dflt : V) (k : string) (f : V -> V)
    (m : umap V) :
  NoDup (um_keys m) -> NoDup (um_keys (um_update dflt k f m)).
Proof.
  intro Hnd. destruct (um_update_keys dflt k f m) as [->|[Hfresh ->]];
    [exact Hnd|].
  apply NoDup_app; [exact Hnd|repeat constructor; easy|].
  intros x Hx [<-|[]]. now elim Hfresh.
Qed.

Lemma um_update_Forall {V : Type} (P : string * V -> Prop) (dflt : V)
    (k : string) (f : V -> V) (m : umap V) :
  Forall P m -> (forall v, (v = dflt \/ P (k, v)) -> P (k, f v)) ->
  Forall P (um_update dflt k f m).
Proof.
  intros Hall Hstep. induction Hall as [|[k' v] m Hkv Hm IH].
  - constructor; [|constructor]. apply Hstep. now left.
  - cbn [um_update]. destruct (k' =? k)%string eqn:E.
    + apply String.eqb_eq in E. subst k'.
      constructor; [|exact Hm]. apply Hstep. now right.
    + now constructor.
Qed.

Lemma load_overrides_line_storable (m : umap string) (raw : string) :
  overrides_storable m -> one_line raw ->
  overrides_storable (load_overrides_line m raw).
Proof.
  intros [Hnodup Hall] Hraw. unfold load_overrides_line.
  set (line := trim_copy raw).
  assert (Hline : one_line line) by now apply find_char_trim_copy.
  assert (Htrimmed : trim_copy line = line) by apply trim_copy_idem.
  destruct (empty line) eqn:Hempty; [now split|].
  destruct (first_char_is "#" line) eqn:Hhash; [now split|].
  cbn [orb].
  destruct (find_char "=" line) as [pos|] eqn:Hpos; [|now split].
  set (iface := trim_copy (substr_to pos line)).
  set (type := trim_copy (substr_from (S pos) line)).
  destruct (empty iface) eqn:Hiface; [now split|].
  destruct (empty type) eqn:Htype; [now split|].
  cbn [orb].
  assert (Hentry : override_key iface /\ override_value type).
  { split.
    - split; [now apply empty_false|].
      split; [apply trim_copy_idem|].
      split; [now apply trimmed_prefix_head|].
      split; [now apply find_char_trim_copy, find_char_before|].
      now apply find_char_trim_copy, find_char_substr_to.
    - split; [now apply empty_false|].
      split; [apply trim_copy_idem|].
      now apply find_char_trim_copy, find_char_substr_from. }
  split.
  - now apply um_update_NoDup.
  - apply um_update_Forall; [exact Hall|]. intros v _. exact Hentry.
Qed.

Section LoadedTypeStore.
Context `{Platform}.

Lemma load_overrides_is_storable (w : World) :
  overrides_storable (load_overrides w).
Proof.
  unfold load_overrides. destruct (fs_read w kOverridesPath) as [content|];
    [|split; constructor].
  pose proof (getlines_one_line content) as Hlines.
  assert (Hinit : overrides_storable []) by (split; constructor).
  revert Hinit. generalize (@nil (string * string)).
  induction Hlines as [|l ls Hl _ IH]; intros m Hm; [exact Hm|].
  cbn [fold_left]. apply IH. now apply load_overrides_line_storable.
Qed.

(** X8: Whatever the type-override file holds, the loaded map has distinct,
    plain interface names and plain types; when it is written back
    successfully and loaded again, every interface finds the type it
    had. *)
Theorem load_overrides_storable (w : World) :
  overrides_storable (load_overrides w)
  /\ (forall w' i, write_overrides w (load_overrides w) = (true, w') ->
                   um_find i (load_overrides w')
                   = um_find i (load_overrides w)).
Proof.
  split; [apply load_overrides_is_storable|].
  intros w' i Hwritten.
  apply write_text_file_stored in Hwritten. subst w'.
  unfold load_overrides at 1. rewrite fs_store_read.
  now rewrite reload_overrides_text by apply load_overrides_is_storable.
Qed.

End LoadedTypeStore.

(** ** Round trip of whole power-override records *)

(** A record that the power-override file can hold as it is: every value
    trimmed and on one line, the profile identifiers and the chipset in
    the normal form the loader gives them. *)
Definition tx_values_storable (r : WifiTxPowerOverride) : Prop :=
  Forall (fun kv => trim_copy (snd kv) = snd kv /\ one_line (snd kv))
    (written_fields r)
  /\ normalize_id (profile_vendor_id r) = profile_vendor_id r
  /\ normalize_id (profile_device_id r) = profile_device_id r
  /\ normalize_chipset (profile_chipset r) = profile_chipset r.

(** One step of [reload_fields] over the present fields. *)
Lemma reload_fields_present_cons (key value : string)
    (fields : list (string * string)) (start : option WifiTxPowerOverride) :
  reload_fields (present ((key, value) :: fields)) start =
  reload_fields (present fields)
    (if empty value then start
     else Some (assign_tx_field (to_upper key) (trim_copy (rtrim value))
                  (value_or start no_tx_override))).
Proof.
  unfold reload_fields, present. cbn [filter snd].
  now destruct (empty value).
Qed.

(** One field of a reload, on a state that is either no record or the
    record built so far: a field that is written sets its value, a field
    that is not written leaves the state. *)
Lemma reload_fields_step (key value : string)
    (fields : list (string * string)) (any : bool)
    (e : WifiTxPowerOverride) :
  (any = false -> e = no_tx_override) ->
  assign_tx_field (to_upper key) "" e = e ->
  trim_copy value = value ->
  reload_fields (present ((key, value) :: fields))
    (if any then Some e else None)
  = reload_fields (present fields)
      (if any || negb (empty value)
       then Some (assign_tx_field (to_upper key) value e) else None).
Proof.
  intros Hany Hblank Htrim.
  rewrite reload_fields_present_cons, (trimmed_rtrim _ Htrim), Htrim.
  f_equal. destruct (empty value) eqn:E.
  - apply empty_true in E. subst value. rewrite Hblank.
    now destruct any.
  - destruct any; cbn [orb negb value_or]; [reflexivity|].
    now rewrite (Hany eq_refl).
Qed.

(** The presence test of [has_tx_power_values] against the tests in the
    order of the written fields. *)
Lemma orb_written_order (a b c d e f g h : bool) :
  (((((((false || a) || b) || c) || d) || e) || f) || g) || h
  = f || g || h || a || b || c || d || e.
Proof. destruct a, b, c, d, e, f, g, h; reflexivity. Qed.

(** No field before this one was written: the record so far is the
    default one. *)
Ltac nothing_written :=
  let Hf := fresh "Hf" in
  intro Hf;
  repeat (apply orb_false_iff in Hf;
          let Hg := fresh "Hg" in destruct Hf as [Hf Hg];
          apply negb_false_iff, empty_true in Hg);
  subst; reflexivity.

Lemma reloaded_storable (r : WifiTxPowerOverride) :
  tx_values_storable r ->
  reloaded r = if has_tx_power_values r then Some r else None.
Proof.
  intros (Hall & Hv & Hd & Hc).
  destruct r as [tx th tl n lv pv pd pc].
  unfold reloaded, written_fields, has_tx_power_values in *.
  cbn [card_name tx_power tx_power_high tx_power_low power_level
       profile_vendor_id profile_device_id profile_chipset] in *.
  repeat match goal with
         | E : Forall _ (_ :: _) |- _ => inversion E; subst; clear E
         end.
  cbn [snd] in *.
  repeat match goal with
         | E : trim_copy ?v = ?v /\ one_line ?v |- _ =>
             let Ht := fresh "Ht" in destruct E as [Ht _]
         end.
  change (@None WifiTxPowerOverride)
    with (if false then Some no_tx_override else None) at 1.
  do 8 (rewrite reload_fields_step;
        [|nothing_written|reflexivity|assumption]).
  change (reload_fields (present []) ?x) with x.
  rewrite orb_written_order.
  match goal with
  | |- (if ?b then _ else _) = _ => destruct b; [|reflexivity]
  end.
  f_equal.
  change (to_upper "card_name") with "CARD_NAME".
  change (to_upper "power_level") with "POWER_LEVEL".
  change (to_upper "profile_vendor_id") with "PROFILE_VENDOR_ID".
  change (to_upper "profile_device_id") with "PROFILE_DEVICE_ID".
  change (to_upper "profile_chipset") with "PROFILE_CHIPSET".
  change (to_upper "tx_power") with "TX_POWER".
  change (to_upper "tx_power_high") with "TX_POWER_HIGH".
  change (to_upper "tx_power_low") with "TX_POWER_LOW".
  change (assign_tx_field "TX_POWER_LOW" ?v ?e) with (set_tx_power_low v e).
  change (assign_tx_field "TX_POWER_HIGH" ?v ?e)
    with (set_tx_power_high v e).
  change (assign_tx_field "TX_POWER" ?v ?e) with (set_tx_power v e).
  change (assign_tx_field "PROFILE_CHIPSET" ?v ?e)
    with (set_profile_chipset (normalize_chipset v) e).
  change (assign_tx_field "PROFILE_DEVICE_ID" ?v ?e)
    with (set_profile_device_id (normalize_id v) e).
  change (assign_tx_field "PROFILE_VENDOR_ID" ?v ?e)
    with (set_profile_vendor_id (normalize_id v) e).
  change (assign_tx_field "POWER_LEVEL" ?v ?e) with (set_power_level v e).
  change (assign_tx_field "CARD_NAME" ?v ?e) with (set_card_name v e).
  rewrite Hv, Hd, Hc. reflexivity.
Qed.

Lemma um_find_none_keys {V : Type} (k : string) (m : umap V) :
  um_find k m = None -> ~ In k (um_keys m).
Proof.
  induction m as [|[k' v] m IH]; [easy|].
  cbn [um_find um_keys map fst]. destruct (k' =? k)%string eqn:E;
    [discriminate|].
  intros Hnone [->|Hin]; [now rewrite String.eqb_refl in E|now apply IH].
Qed.

(** A store that the power-override file can hold as it is. *)
Definition tx_store_storable (data : umap WifiTxPowerOverride) : Prop :=
  NoDup (um_keys data)
  /\ Forall (fun e => plain_key (fst e) /\ tx_values_storable (snd e)) data.

Lemma tx_store_storable_one_line (data : umap WifiTxPowerOverride) :
  tx_store_storable data -> store_one_line data.
Proof.
  intros [_ Hall]. unfold store_one_line.
  eapply Forall_impl; [|exact Hall].
  intros [k r] [(_ & _ & _ & _ & _ & Hk) (Hvalues & _)].
  split; [exact Hk|]. unfold values_one_line.
  eapply Forall_impl; [|exact Hvalues]. now intros kv [_ Hv].
Qed.

Lemma tx_store_storable_keys (data : umap WifiTxPowerOverride) :
  tx_store_storable data -> Forall (fun e => plain_key (fst e)) data.
Proof.
  intros [_ Hall]. eapply Forall_impl; [|exact Hall]. now intros e [Hk _].
Qed.

(** What a lookup finds in a store after a write and a reload: the
    record as it was, unless it had no value. *)
Definition kept_record (found : option WifiTxPowerOverride)
    : option WifiTxPowerOverride :=
  match found with
  | Some r => if has_tx_power_values r then Some r else None
  | None => None
  end.

Lemma reload_tx_power_text (data : umap WifiTxPowerOverride) (i : string) :
  tx_store_storable data ->
  um_find i (load_tx_power_text (tx_power_text data))
  = kept_record (um_find i data).
Proof.
  intro Hdata.
  pose proof (tx_store_storable_one_line data Hdata) as Hlines.
  pose proof (tx_store_storable_keys data Hdata) as Hkeys.
  destruct Hdata as [Hnodup Hall].
  destruct (um_find i data) as [r|] eqn:Hfind; cbn [kept_record].
  - rewrite (reload_written_store data i r) by assumption.
    apply reloaded_storable.
    apply um_find_In in Hfind.
    rewrite Forall_forall in Hall. now destruct (Hall _ Hfind).
  - unfold load_tx_power_text. rewrite tx_power_text_lines by assumption.
    cbn [fold_left].
    change (load_tx_power_line [] kTxPowerHeader)
      with (@nil (string * WifiTxPowerOverride)).
    rewrite load_entries_other;
      [reflexivity|exact Hkeys|now apply um_find_none_keys].
Qed.

Section RecordsRoundTrip.
Context `{Platform}.

(** X9: A storable store that was written successfully is loaded back
    record for record: every interface finds the record it had, except
    that a record without any value is gone, and no other entry
    appears. *)
Theorem tx_power_records_round_trip (w w' : World)
    (data : umap WifiTxPowerOverride) (i : string)
    (Hstorable : tx_store_storable data)
    (Hwritten : write_tx_power_overrides w data = (true, w')) :
  um_find i (load_tx_power_overrides w') = kept_record (um_find i data).
Proof.
  apply write_text_file_stored in Hwritten. subst w'.
  unfold load_tx_power_overrides. rewrite fs_store_read.
  now apply reload_tx_power_text.
Qed.

End RecordsRoundTrip.

Section RecordsRoundTripRuns.
#[local] Existing Instance Sample.platform.

Lemma pinned_store_storable : tx_store_storable pinned_store.
Proof.
  split.
  - repeat constructor; simpl; intuition discriminate.
  - repeat constructor; try reflexivity; try discriminate.
Qed.

Lemma tx_power_records_round_trip_witness :
  um_find "wlan0"
    (load_tx_power_overrides
       (snd (write_tx_power_overrides Sample.world pinned_store)))
  = Some pinned_record
  /\ um_find "wlan1"
    (load_tx_power_overrides
       (snd (write_tx_power_overrides Sample.world pinned_store)))
  = None.
Proof.
  split.
  - exact (tx_power_records_round_trip Sample.world _ pinned_store "wlan0"
             pinned_store_storable eq_refl).
  - exact (tx_power_records_round_trip Sample.world _ pinned_store "wlan1"
             pinned_store_storable eq_refl).
Defined.

End RecordsRoundTripRuns.

Lemma toupper_newline (c : ascii) :
  Ascii.eqb (toupper c) ch_newline = Ascii.eqb c ch_newline.
Proof. destruct c as [[] [] [] [] [] [] [] []]; reflexivity. Qed.

Lemma to_upper_one_line (s : string) : one_line s -> one_line (to_upper s).
Proof.
  unfold one_line. induction s as [|c s IH]; [easy|].
  cbn [to_upper find_char]. rewrite toupper_newline.
  destruct (Ascii.eqb c ch_newline); [discriminate|].
  destruct (find_char ch_newline s); [discriminate|].
  intros _. now rewrite IH.
Qed.

Lemma normalize_id_trimmed (raw : string) :
  trim_copy (normalize_id raw) = normalize_id raw.
Proof.
  rewrite normalize_id_shape.
  destruct (empty (trim_copy raw)); [reflexivity|].
  pose proof (id_digits_rtrim_fixed raw) as Hb.
  assert (Hu : rtrim (to_upper (id_digits raw)) = to_upper (id_digits raw))
    by now rewrite rtrim_to_upper, Hb.
  apply trim_copy_fixed; [reflexivity|].
  apply rtrim_cons; [|left; discriminate].
  apply rtrim_cons; [exact Hu|now right].
Qed.

Lemma normalize_id_one_line (raw : string) :
  one_line raw -> one_line (normalize_id raw).
Proof.
  intro Hraw. rewrite normalize_id_shape.
  destruct (empty (trim_copy raw)); [reflexivity|].
  apply one_line_app; [reflexivity|]. apply to_upper_one_line.
  unfold id_digits.
  destruct (starts_with "0x" (trim_copy raw)
            || starts_with "0X" (trim_copy raw)).
  - now apply find_char_substr_from, find_char_trim_copy.
  - now apply find_char_trim_copy.
Qed.

Lemma normalize_chipset_one_line (value : string) :
  one_line value -> one_line (normalize_chipset value).
Proof.
  intro Hv. unfold normalize_chipset.
  now apply to_upper_one_line, find_char_trim_copy.
Qed.

Lemma no_tx_override_storable : tx_values_storable no_tx_override.
Proof. repeat split; repeat constructor. Qed.

(** Assigning a trimmed one-line value keeps a record storable. *)
Lemma assign_tx_field_storable (field_upper value : string)
    (entry : WifiTxPowerOverride) :
  tx_values_storable entry -> trim_copy value = value -> one_line value ->
  tx_values_storable (assign_tx_field field_upper value entry).
Proof.
  intros (Hall & Hv & Hd & Hc) Htrim Hline.
  destruct entry as [tx th tl n lv pv pd pc].
  unfold written_fields in Hall.
  repeat match goal with
         | E : Forall _ (_ :: _) |- _ => inversion E; subst; clear E
         end.
  cbn [snd card_name tx_power tx_power_high tx_power_low power_level
       profile_vendor_id profile_device_id profile_chipset] in *.
  repeat match goal with
         | E : _ /\ _ |- _ => destruct E
         end.
  pose proof (normalize_id_trimmed value).
  pose proof (normalize_id_one_line value Hline).
  pose proof (normalize_id_idempotent value).
  pose proof (normalize_chipset_trimmed value).
  pose proof (normalize_chipset_one_line value Hline).
  pose proof (normalize_chipset_idem value).
  unfold assign_tx_field.
  repeat match goal with
         | |- context [if ?b then _ else _] => destruct b
         end;
    unfold tx_values_storable, written_fields, set_tx_power,
      set_tx_power_high, set_tx_power_low, set_card_name, set_power_level,
      set_profile_vendor_id, set_profile_device_id, set_profile_chipset;
    cbn [snd card_name tx_power tx_power_high tx_power_low power_level
         profile_vendor_id profile_device_id profile_chipset];
    (split; [repeat (constructor; [split; assumption|]); constructor
            |repeat split; assumption]).
Qed.

Lemma load_tx_power_line_storable (m : umap WifiTxPowerOverride)
    (raw : string) :
  tx_store_storable m -> one_line raw ->
  tx_store_storable (load_tx_power_line m raw).
Proof.
  intros [Hnodup Hall] Hraw. unfold load_tx_power_line.
  set (line := trim_copy raw).
  assert (Hline : one_line line) by now apply find_char_trim_copy.
  assert (Htrimmed : trim_copy line = line) by apply trim_copy_idem.
  destruct (empty line) eqn:Hempty; [now split|].
  destruct (first_char_is "#" line) eqn:Hhash; [now split|].
  cbn [orb].
  destruct (find_char "=" line) as [pos|] eqn:Hpos; [|now split].
  set (key := trim_copy (substr_to pos line)).
  set (value := trim_copy (substr_from (S pos) line)).
  destruct (empty key) eqn:Hkey; [now split|].
  assert (Hkey_eq : find_char "=" key = None)
    by now apply find_char_trim_copy, find_char_before.
  assert (Hkey_line : one_line key)
    by now apply find_char_trim_copy, find_char_substr_to.
  assert (Hkey_hash : first_char_is "#" key = false)
    by now apply trimmed_prefix_head.
  assert (Hkey_trim : trim_copy key = key) by apply trim_copy_idem.
  destruct (find_char "." key) as [dot|] eqn:Hdot; [|now split].
  set (iface := trim_copy (substr_to dot key)).
  set (field := trim_copy (substr_from (S dot) key)).
  destruct (empty iface) eqn:Hiface; [now split|].
  destruct (empty field) eqn:Hfield; [now split|].
  cbn [orb].
  assert (Hplain : plain_key iface).
  { split; [now apply empty_false|].
    split; [apply trim_copy_idem|].
    split; [now apply trimmed_prefix_head|].
    split; [now apply find_char_trim_copy, find_char_before|].
    split; now apply find_char_trim_copy, find_char_substr_to. }
  assert (Hvalue : trim_copy value = value /\ one_line value).
  { split; [apply trim_copy_idem|].
    now apply find_char_trim_copy, find_char_substr_from. }
  split.
  - now apply um_update_NoDup.
  - apply um_update_Forall; [exact Hall|].
    intros v Hv. cbn [fst snd]. split; [exact Hplain|].
    apply assign_tx_field_storable; try apply Hvalue.
    destruct Hv as [->|[_ Hv]]; [apply no_tx_override_storable|exact Hv].
Qed.

Lemma load_tx_power_text_storable (content : string) :
  tx_store_storable (load_tx_power_text content).
Proof.
  unfold load_tx_power_text.
  pose proof (getlines_one_line content) as Hlines.
  assert (Hinit : tx_store_storable []) by (split; constructor).
  revert Hinit. generalize (@nil (string * WifiTxPowerOverride)).
  induction Hlines as [|l ls Hl _ IH]; intros m Hm; [exact Hm|].
  cbn [fold_left]. apply IH. now apply load_tx_power_line_storable.
Qed.

Section LoadedPowerStore.
Context `{Platform}.

Lemma load_tx_power_overrides_is_storable (w : World) :
  tx_store_storable (load_tx_power_overrides w).
Proof.
  unfold load_tx_power_overrides.
  destruct (fs_read w kTxPowerOverridesPath) as [content|];
    [apply load_tx_power_text_storable|split; constructor].
Qed.

(** X10: Whatever the power-override file holds, the loaded map has distinct,
    plain interface names and records in the loader's normal form
    (values trimmed, identifiers and chipset normalised); writing it back
    and loading it again finds the same record for every interface,
    records without any value excepted. *)
Theorem load_tx_power_overrides_storable (w : World) :
  tx_store_storable (load_tx_power_overrides w)
  /\ (forall w' i,
        write_tx_power_overrides w (load_tx_power_overrides w) = (true, w') ->
        um_find i (load_tx_power_overrides w')
        = kept_record (um_find i (load_tx_power_overrides w))).
Proof.
  split; [apply load_tx_power_overrides_is_storable|].
  intros w' i Hwritten.
  apply write_text_file_stored in Hwritten. subst w'.
  unfold load_tx_power_overrides at 1. rewrite fs_store_read.
  apply reload_tx_power_text, load_tx_power_overrides_is_storable.
Qed.

End LoadedPowerStore.

(** ** Outcomes of an update request *)

(** The response to a refused update: the line
    [{"type":"sysutil.wifi.update.response","ok":false,"action":"..."}]
    with the action escaped. *)
Definition update_refused_response (action : string) : string :=
  "{" ++ dq ++ "type" ++ dq ++ ":" ++ dq ++ "sysutil.wifi.update.response"
  ++ dq ++ "," ++ dq ++ "ok" ++ dq ++ ":false," ++ dq ++ "action" ++ dq
  ++ ":" ++ dq ++ json_escape action ++ dq ++ "}" ++ nl.

(** The response to an update that went through, with the card list. *)
Definition update_done_response (action : string)
    (cards : list WifiCardInfo) : string :=
  "{" ++ dq ++ "type" ++ dq ++ ":" ++ dq ++ "sysutil.wifi.update.response"
  ++ dq ++ "," ++ dq ++ "ok" ++ dq ++ ":true," ++ dq ++ "action" ++ dq
  ++ ":" ++ dq ++ json_escape action ++ dq ++ "," ++ dq ++ "cards" ++ dq
  ++ ":[" ++ cards_json_items true cards ++ "]}" ++ nl.

Lemma um_find_erase_other {V : Type} (k j : string) (m : umap V) :
  j <> k -> um_find j (um_erase k m) = um_find j m.
Proof.
  intro Hne. induction m as [|[k' v] m IH]; [reflexivity|].
  cbn [um_erase um_find]. destruct (k' =? k)%string eqn:E.
  - apply String.eqb_eq in E. subst k'.
    apply not_eq_sym, String.eqb_neq in Hne. now rewrite Hne.
  - cbn [um_find]. now rewrite IH.
Qed.

Lemma um_erase_keys {V : Type} (k : string) (m : umap V) :
  um_keys (um_erase k m)
  = filter (fun k' => negb (k' =? k)%string) (um_keys m).
Proof.
  unfold um_keys. induction m as [|[k' v] m IH]; [reflexivity|].
  cbn [um_erase map fst filter].
  destruct (k' =? k)%string; cbn [negb map fst]; now rewrite IH.
Qed.

Lemma um_erase_NoDup {V : Type} (k : string) (m : umap V) :
  NoDup (um_keys m) -> NoDup (um_keys (um_erase k m)).
Proof. intro Hnd. rewrite um_erase_keys. now apply NoDup_filter. Qed.

Lemma um_erase_Forall {V : Type} (P : string * V -> Prop) (k : string)
    (m : umap V) :
  Forall P m -> Forall P (um_erase k m).
Proof.
  induction 1 as [|[k' v] m Hkv _ IH]; [constructor|].
  cbn [um_erase]. destruct (k' =? k)%string; [exact IH|now constructor].
Qed.

Section UpdateOutcomes.
Context `{Platform}.

Lemma refused_response_text (w : World) (action : string) :
  wifi_update_response w action false = (update_refused_response action, w).
Proof.
  unfold wifi_update_response, update_refused_response, json_open.
  cbn [bool_text]. f_equal. now rewrite !append_assoc.
Qed.

Lemma done_response_text (w : World) (action : string) :
  wifi_update_response w action true
  = (update_done_response action (g_wifi_cards (refresh_wifi_info w)),
     refresh_wifi_info w).
Proof.
  unfold wifi_update_response, update_done_response, json_open,
    append_cards_json, wifi_cards.
  cbn [bool_text g_wifi_initialized refresh_wifi_info set_wifi_cards].
  f_equal. now rewrite !append_assoc.
Qed.

(** X11: An action other than set, clear, refresh and detect is refused, and
    nothing changes: no file is written and the card list is kept. *)
Theorem unknown_action_is_refused (w : World) (line action : string)
    (Haction : extract_string_field line "action" = Some action)
    (Hset : action <> "set") (Hclear : action <> "clear")
    (Hrefresh : action <> "refresh") (Hdetect : action <> "detect") :
  handle_wifi_update w line = (update_refused_response action, w).
Proof.
  unfold handle_wifi_update. cbv zeta. rewrite Haction. cbn [value_or].
  apply String.eqb_neq in Hset, Hclear, Hrefresh, Hdetect.
  rewrite Hset, Hclear, Hrefresh, Hdetect. cbn [orb].
  apply refused_response_text.
Qed.

(** X12: A refresh or detect request, and a request that names no action,
    rebuilds the card list from the files as they are and writes no
    file; the response carries the rebuilt list. *)
Theorem refresh_rebuilds_without_writing (w : World) (line : string)
    (Haction : extract_string_field line "action" = None
               \/ extract_string_field line "action" = Some "refresh"
               \/ extract_string_field line "action" = Some "detect") :
  let action := value_or (extract_string_field line "action") "refresh" in
  let cards :=
    detect_wifi_cards w (load_overrides w) (load_tx_power_overrides w)
      (load_wifi_card_profiles w) in
  handle_wifi_update w line
  = (update_done_response action cards, set_wifi_cards cards w)
  /\ fs_read (snd (handle_wifi_update w line)) = fs_read w.
Proof.
  cbv zeta. unfold handle_wifi_update. cbv zeta.
  destruct Haction as [-> | [-> | ->]];
    cbn [value_or String.eqb Ascii.eqb Bool.eqb orb];
    rewrite done_response_text; split; reflexivity.
Qed.

(** X13: A clear request whose type-override file cannot be written fails
    without touching the power-override file: the second writer is not
    run. *)
Theorem clear_stops_at_first_failure (w : World) (line : string)
    (Haction : extract_string_field line "action" = Some "clear")
    (Hblocked : fs_mkdir_fails w (parent_path kOverridesPath) = true
                \/ fs_open_fails w kOverridesPath = true) :
  handle_wifi_update w line = (update_refused_response "clear", w).
Proof.
  unfold handle_wifi_update. cbv zeta. rewrite Haction.
  cbn [value_or String.eqb Ascii.eqb Bool.eqb].
  assert (Hfail : forall a b, write_both w a b = (false, w)).
  { intros a b. unfold write_both, write_overrides, write_text_file.
    destruct (fs_mkdir_fails w (parent_path kOverridesPath));
      [reflexivity|].
    destruct Hblocked as [Hm|Ho]; [discriminate|]. now rewrite Ho. }
  destruct (extract_string_field line "interface") as [i|];
    [destruct (negb (empty i))|]; rewrite Hfail;
    apply refused_response_text.
Qed.

End UpdateOutcomes.

(** ** Clearing and setting overrides, end to end *)

Section Persisted.
Context `{Platform}.

(** Both override files can be written. *)
Definition stores_writable (w : World) : Prop :=
  fs_mkdir_fails w (parent_path kOverridesPath) = false
  /\ fs_open_fails w kOverridesPath = false
  /\ fs_mkdir_fails w (parent_path kTxPowerOverridesPath) = false
  /\ fs_open_fails w kTxPowerOverridesPath = false.

Lemma write_overrides_succeeds (w : World) (data : umap string) :
  fs_mkdir_fails w (parent_path kOverridesPath) = false ->
  fs_open_fails w kOverridesPath = false ->
  write_overrides w data
  = (true, fs_store kOverridesPath (overrides_text data) w).
Proof.
  intros Hmkdir Hopen. unfold write_overrides, write_text_file.
  now rewrite Hmkdir, Hopen.
Qed.

Lemma write_both_succeeds (w : World) (overrides : umap string)
    (tx_overrides : umap WifiTxPowerOverride) :
  stores_writable w ->
  write_both w overrides tx_overrides
  = (true,
     fs_store kTxPowerOverridesPath (tx_power_text tx_overrides)
       (fs_store kOverridesPath (overrides_text overrides) w)).
Proof.
  intros (Hm1 & Ho1 & Hm2 & Ho2). unfold write_both.
  rewrite write_overrides_succeeds by assumption.
  now rewrite write_tx_power_overrides_succeeds.
Qed.

(** The loaders read one file each. *)
Lemma load_overrides_of_file (w : World) (text : string) :
  fs_read w kOverridesPath = Some text ->
  load_overrides w = fold_left load_overrides_line (getlines text) [].
Proof. intro Hread. unfold load_overrides. now rewrite Hread. Qed.

Lemma load_tx_power_overrides_of_file (w : World) (text : string) :
  fs_read w kTxPowerOverridesPath = Some text ->
  load_tx_power_overrides w = load_tx_power_text text.
Proof. intro Hread. unfold load_tx_power_overrides. now rewrite Hread. Qed.

(** A write that reports success created the directory and opened the
    stream. *)
Lemma write_text_file_ok (w : World) (path text : string) :
  fst (write_text_file w path text) = true ->
  fs_mkdir_fails w (parent_path path) = false
  /\ fs_open_fails w path = false.
Proof.
  unfold write_text_file.
  destruct (fs_mkdir_fails w (parent_path path)); [discriminate|].
  destruct (fs_open_fails w path); [discriminate|]. now split.
Qed.

Lemma write_both_ok (w : World) (overrides : umap string)
    (tx_overrides : umap WifiTxPowerOverride) :
  fst (write_both w overrides tx_overrides) = true -> stores_writable w.
Proof.
  unfold write_both, stores_writable. intro Hboth.
  destruct (write_overrides w overrides) as [written w1] eqn:Hfirst.
  destruct written; [|discriminate].
  pose proof (write_text_file_ok w kOverridesPath (overrides_text overrides))
    as Hflags.
  unfold write_overrides in Hfirst. rewrite Hfirst in Hflags.
  destruct (Hflags eq_refl) as [Hm1 Ho1].
  apply write_text_file_stored in Hfirst. subst w1.
  apply write_text_file_ok in Hboth. destruct Hboth as [Hm2 Ho2].
  now repeat split.
Qed.

(** X15: A clear request for an interface, both of whose writes succeed,
    removes the interface from both stores and keeps every other entry:
    after it, neither file has an entry for the interface, and every
    other interface finds the type it had and the power record it had
    (records without any value are dropped). *)
Theorem clear_removes_interface (w : World) (line iface : string)
    (Haction : extract_string_field line "action" = Some "clear")
    (Hiface : extract_string_field line "interface" = Some iface)
    (Hne : iface <> "")
    (Hwritten : fst (write_both w (um_erase iface (load_overrides w))
                       (um_erase iface (load_tx_power_overrides w)))
                = true) :
  let w' := snd (handle_wifi_update w line) in
  um_find iface (load_overrides w') = None
  /\ um_find iface (load_tx_power_overrides w') = None
  /\ (forall j, j <> iface ->
        um_find j (load_overrides w') = um_find j (load_overrides w)
        /\ um_find j (load_tx_power_overrides w')
           = kept_record (um_find j (load_tx_power_overrides w))).
Proof.
  cbv zeta. apply empty_false in Hne.
  pose proof (write_both_ok _ _ _ Hwritten) as Hwritable.
  unfold handle_wifi_update. cbv zeta. rewrite Haction, Hiface.
  cbn [value_or String.eqb Ascii.eqb Bool.eqb]. rewrite Hne. cbn [negb].
  rewrite write_both_succeeds by assumption.
  set (types := um_erase iface (load_overrides w)).
  set (powers := um_erase iface (load_tx_power_overrides w)).
  assert (Htypes : overrides_storable types).
  { destruct (load_overrides_is_storable w) as [Hnd Hall].
    split; [now apply um_erase_NoDup|now apply um_erase_Forall]. }
  assert (Hpowers : tx_store_storable powers).
  { destruct (load_tx_power_overrides_is_storable w) as [Hnd Hall].
    split; [now apply um_erase_NoDup|now apply um_erase_Forall]. }
  match goal with
  | |- context [wifi_update_response ?w2 ?a ?ok] =>
      pose proof (wifi_update_response_keeps_files w2 a ok) as Hkeep;
      set (w' := snd (wifi_update_response w2 a ok)) in *
  end.
  assert (Hread_types : fs_read w' kOverridesPath
                        = Some (overrides_text types))
    by (rewrite Hkeep; reflexivity).
  assert (Hread_powers : fs_read w' kTxPowerOverridesPath
                         = Some (tx_power_text powers))
    by (rewrite Hkeep; apply fs_store_read).
  rewrite (load_overrides_of_file w' _ Hread_types).
  rewrite (load_tx_power_overrides_of_file w' _ Hread_powers).
  rewrite (reload_overrides_text types Htypes).
  split; [apply um_find_erase|].
  split.
  - rewrite reload_tx_power_text by assumption.
    unfold powers. now rewrite um_find_erase.
  - intros j Hj. split; [now apply um_find_erase_other|].
    rewrite reload_tx_power_text by assumption.
    unfold powers. now rewrite um_find_erase_other.
Qed.

(** X16: A clear request that names no interface, with both files writable,
    empties both stores. *)
Theorem clear_all_wipes_stores (w : World) (line : string)
    (Haction : extract_string_field line "action" = Some "clear")
    (Hiface : extract_string_field line "interface" = None
              \/ extract_string_field line "interface" = Some "")
    (Hwritable : stores_writable w) :
  let w' := snd (handle_wifi_update w line) in
  load_overrides w' = [] /\ load_tx_power_overrides w' = [].
Proof.
  cbv zeta. unfold handle_wifi_update. cbv zeta. rewrite Haction.
  cbn [value_or String.eqb Ascii.eqb Bool.eqb].
  assert (Hboth : (match extract_string_field line "interface" with
                   | Some i =>
                       if negb (empty i) then
                         write_both w (um_erase i (load_overrides w))
                           (um_erase i (load_tx_power_overrides w))
                       else write_both w [] []
                   | None => write_both w [] []
                   end) = write_both w [] [])
    by (destruct Hiface as [-> | ->]; reflexivity).
  rewrite Hboth, write_both_succeeds by assumption.
  match goal with
  | |- context [wifi_update_response ?w2 ?a ?ok] =>
      pose proof (wifi_update_response_keeps_files w2 a ok) as Hkeep;
      set (w' := snd (wifi_update_response w2 a ok)) in *
  end.
  assert (Hread_types : fs_read w' kOverridesPath = Some (overrides_text []))
    by (rewrite Hkeep; reflexivity).
  assert (Hread_powers : fs_read w' kTxPowerOverridesPath
                         = Some (tx_power_text []))
    by (rewrite Hkeep; apply fs_store_read).
  rewrite (load_overrides_of_file w' _ Hread_types).
  rewrite (load_tx_power_overrides_of_file w' _ Hread_powers).
  split; reflexivity.
Qed.

Lemma write_tx_keeps_type_file (w : World)
    (store : umap WifiTxPowerOverride) :
  fs_read (snd (write_tx_power_overrides w store)) kOverridesPath
  = fs_read w kOverridesPath.
Proof.
  unfold write_tx_power_overrides, write_text_file.
  destruct (fs_mkdir_fails w _); [reflexivity|].
  destruct (fs_open_fails w _); reflexivity.
Qed.

(** The map a set request stores for an override type. *)
Definition set_type_override (iface override : string)
    (overrides : umap string) : umap string :=
  if empty override || equal_after_uppercase override "AUTO" then
    um_erase iface overrides
  else um_set iface override overrides.

Lemma wifi_update_set_type_file (w : World) (line iface override : string)
    (overrides : umap string) (tx_overrides : umap WifiTxPowerOverride) :
  extract_string_field line "override_type" = Some override ->
  fs_mkdir_fails w (parent_path kOverridesPath) = false ->
  fs_open_fails w kOverridesPath = false ->
  fs_read (snd (wifi_update_set w line iface overrides tx_overrides))
    kOverridesPath
  = Some (overrides_text (set_type_override iface override overrides)).
Proof.
  intros Hoverride Hmkdir Hopen. unfold wifi_update_set.
  rewrite Hoverride.
  fold (set_type_override iface override overrides).
  rewrite write_overrides_succeeds by assumption.
  destruct (has_tx_fields line); [|apply fs_store_read].
  match goal with
  | |- context [write_tx_power_overrides ?w1 ?store] =>
      pose proof (write_tx_keeps_type_file w1 store) as Hkeep;
      destruct (write_tx_power_overrides w1 store) as [written w2]
  end.
  cbn [snd] in *. rewrite Hkeep. apply fs_store_read.
Qed.

(** X17: A set request with an override type, for a plain interface name and
    with a successful write of the type-override file: after it, an empty
    type or AUTO leaves the interface without an override, any other
    plain type is its override, and the other interfaces find the type
    they had.  This holds whether or not the request also carries power
    fields, and whether or not the power-override file can be written. *)
Theorem set_persists_type_override (w : World) (line iface override : string)
    (Haction : extract_string_field line "action" = Some "set")
    (Hiface : extract_string_field line "interface" = Some iface)
    (Hkey : override_key iface)
    (Hoverride : extract_string_field line "override_type" = Some override)
    (Hvalue : empty override || equal_after_uppercase override "AUTO" = false
              -> override_value override)
    (Hwritten : fst (write_overrides w
                       (set_type_override iface override (load_overrides w)))
                = true) :
  let w' := snd (handle_wifi_update w line) in
  um_find iface (load_overrides w')
  = (if empty override || equal_after_uppercase override "AUTO" then None
     else Some override)
  /\ (forall j, j <> iface ->
        um_find j (load_overrides w') = um_find j (load_overrides w)).
Proof.
  cbv zeta. pose proof Hkey as (Hne & _). apply empty_false in Hne.
  unfold write_overrides in Hwritten.
  apply write_text_file_ok in Hwritten. destruct Hwritten as [Hmkdir Hopen].
  unfold handle_wifi_update. cbv zeta. rewrite Haction, Hiface.
  cbn [value_or String.eqb Ascii.eqb Bool.eqb]. rewrite Hne.
  pose proof (wifi_update_set_type_file w line iface override
                (load_overrides w) (load_tx_power_overrides w)
                Hoverride Hmkdir Hopen) as Hread.
  destruct (wifi_update_set w line iface (load_overrides w)
              (load_tx_power_overrides w)) as [ok w1].
  cbn [snd] in Hread.
  rewrite <- (wifi_update_response_keeps_files w1 "set" ok) in Hread.
  rewrite (load_overrides_of_file _ _ Hread).
  assert (Hstored : overrides_storable
                      (set_type_override iface override (load_overrides w))).
  { destruct (load_overrides_is_storable w) as [Hnd Hall].
    unfold set_type_override in *.
    destruct (empty override || equal_after_uppercase override "AUTO").
    - split; [now apply um_erase_NoDup|now apply um_erase_Forall].
    - split; [now apply um_update_NoDup|].
      apply um_update_Forall; [exact Hall|].
      intros v _. split; [exact Hkey|now apply Hvalue]. }
  rewrite (reload_overrides_text _ Hstored).
  unfold set_type_override, um_set.
  destruct (empty override || equal_after_uppercase override "AUTO").
  - split; [apply um_find_erase|].
    intros j Hj. now apply um_find_erase_other.
  - split; [now rewrite um_find_update|].
    intros j Hj. now apply um_find_update_other, not_eq_sym.
Qed.

Lemma um_update_Forall_found {V : Type} (P : string * V -> Prop) (dflt : V)
    (k : string) (f : V -> V) (m : umap V) :
  Forall P m -> P (k, f (value_or (um_find k m) dflt)) ->
  Forall P (um_update dflt k f m).
Proof.
  intros Hall. induction Hall as [|[k' v] m Hkv Hm IH]; intro Hnew.
  - now repeat constructor.
  - cbn [um_update um_find] in *. destruct (k' =? k)%string eqn:E.
    + apply String.eqb_eq in E. subst k'. now constructor.
    + constructor; [exact Hkv|now apply IH].
Qed.

Lemma um_erase_update {V : Type} (dflt : V) (k : string) (f : V -> V)
    (m : umap V) :
  um_erase k (um_update dflt k f m) = um_erase k m.
Proof.
  induction m as [|[k' v] m IH].
  - cbn [um_update um_erase]. now rewrite String.eqb_refl.
  - cbn [um_update um_erase]. destruct (k' =? k)%string eqn:E;
      cbn [um_erase]; rewrite E; [reflexivity|now rewrite IH].
Qed.

(** The merge of a set request keeps a storable store storable when the
    interface is a plain name and the record it is left with is
    storable. *)
Lemma set_tx_overrides_storable (line iface : string)
    (m : umap WifiTxPowerOverride) :
  tx_store_storable m -> plain_key iface ->
  (forall r, um_find iface (set_tx_overrides line iface m) = Some r ->
             tx_values_storable r) ->
  tx_store_storable (set_tx_overrides line iface m).
Proof.
  intros [Hnd Hall] Hkey. unfold set_tx_overrides. cbv zeta.
  rewrite um_find_update. cbn [value_or].
  set (merged := merge_tx_fields line _).
  destruct (has_tx_power_values merged); cbn [negb]; intro Hrecord.
  - split; [now apply um_update_NoDup|].
    apply um_update_Forall_found; [exact Hall|]. fold merged.
    split; [exact Hkey|]. apply Hrecord.
    now rewrite um_find_update.
  - rewrite um_erase_update.
    split; [now apply um_erase_NoDup|now apply um_erase_Forall].
Qed.

(** X14: A set request with an override type and power fields, whose
    type-override file cannot be opened while the write of the
    power-override file succeeds: the request is answered with
    [ok:false], the type-override file and the card list are as before,
    and the power-override file holds the merged store all the same:
    when the interface is a plain name and the record the merge leaves
    it with is storable, every interface finds in the file the record
    the merged store has for it. *)
Theorem set_writes_power_store_after_type_failure (w : World)
    (line iface override : string)
    (Haction : extract_string_field line "action" = Some "set")
    (Hiface : extract_string_field line "interface" = Some iface)
    (Hne : iface <> "")
    (Hoverride : extract_string_field line "override_type" = Some override)
    (Hfields : has_tx_fields line = true)
    (Hblocked : fs_open_fails w kOverridesPath = true)
    (Hwritten : fst (write_tx_power_overrides w
                       (set_tx_overrides line iface
                          (load_tx_power_overrides w)))
                = true) :
  let store := set_tx_overrides line iface (load_tx_power_overrides w) in
  let w' := snd (handle_wifi_update w line) in
  fst (handle_wifi_update w line) = update_refused_response "set"
  /\ fs_read w' kOverridesPath = fs_read w kOverridesPath
  /\ g_wifi_cards w' = g_wifi_cards w
  /\ (plain_key iface ->
      (forall r, um_find iface store = Some r -> tx_values_storable r) ->
      forall i, um_find i (load_tx_power_overrides w')
                = kept_record (um_find i store)).
Proof.
  cbv zeta. apply empty_false in Hne.
  unfold write_tx_power_overrides in Hwritten.
  apply write_text_file_ok in Hwritten. destruct Hwritten as [Hmkdir Hopen].
  assert (Hrun : handle_wifi_update w line
                 = (update_refused_response "set",
                    fs_store kTxPowerOverridesPath
                      (tx_power_text
                         (set_tx_overrides line iface
                            (load_tx_power_overrides w))) w)).
  { unfold handle_wifi_update. cbv zeta. rewrite Haction, Hiface.
    cbn [value_or String.eqb Ascii.eqb Bool.eqb]. rewrite Hne.
    unfold wifi_update_set. rewrite Hoverride, Hfields.
    assert (Hfail : forall data, write_overrides w data = (false, w)).
    { intro data. unfold write_overrides, write_text_file.
      rewrite Hblocked.
      now destruct (fs_mkdir_fails w (parent_path kOverridesPath)). }
    rewrite Hfail.
    rewrite write_tx_power_overrides_succeeds by assumption.
    cbn [andb]. apply refused_response_text. }
  rewrite Hrun. cbn [fst snd].
  split; [reflexivity|]. split; [reflexivity|]. split; [reflexivity|].
  intros Hkey Hrecord i.
  unfold load_tx_power_overrides at 1. rewrite fs_store_read.
  apply reload_tx_power_text, set_tx_overrides_storable;
    [apply load_tx_power_overrides_is_storable|exact Hkey|exact Hrecord].
Qed.

End Persisted.

(** ** Outcomes of a link-control request *)

(** The request carries at least one RF value. *)
Definition link_request_has_value `{Platform} (line : string) : bool :=
  nonempty_field (extract_string_field line "interface")
  || has_value (extract_int_field line "frequency_mhz")
  || has_value (extract_int_field line "channel_width_mhz")
  || has_value (extract_int_field line "mcs_index")
  || has_value (extract_int_field line "tx_power_mw")
  || has_value (extract_int_field line "tx_power_index")
  || nonempty_field (extract_string_field line "power_level").

(** The response line of a link-control request. *)
Definition link_response (ok : bool) (message : string) : string :=
  "{" ++ dq ++ "type" ++ dq ++ ":" ++ dq ++ "sysutil.link.control.response"
  ++ dq ++ "," ++ dq ++ "ok" ++ dq ++ ":" ++ bool_text ok
  ++ (if empty message then ""
      else "," ++ dq ++ "message" ++ dq ++ ":" ++ dq ++ json_escape message
           ++ dq)
  ++ "}" ++ nl.

Section LinkControl.
Context `{Platform}.

Lemma link_response_text (ok : bool) (message : string) :
  json_open "sysutil.link.control.response" ok
  ++ (if negb (empty message) then json_member "message" message else "")
  ++ "}" ++ nl
  = link_response ok message.
Proof.
  unfold link_response, json_open, json_member.
  destruct (empty message); cbn [negb]; now rewrite !append_assoc.
Qed.

(** X18: A request without any RF value is refused with the fixed message,
    and the control socket is not contacted. *)
Theorem empty_link_request_is_refused (w : World) (line : string)
    (Hnone : link_request_has_value line = false) :
  fst (handle_link_control_request w line)
  = link_response false "No RF values provided."
  /\ ctrl_sent (snd (handle_link_control_request w line)) = ctrl_sent w.
Proof.
  unfold handle_link_control_request. cbv zeta.
  unfold link_request_has_value in Hnone. rewrite Hnone.
  cbn [negb fst snd]. split; reflexivity.
Qed.

Definition width_allowed (line : string) : bool :=
  match extract_int_field line "channel_width_mhz" with
  | Some width => negb (width =? 40)%Z
  | None => true
  end.

Lemma width_allowed_test (line : string) :
  width_allowed line = true ->
  match extract_int_field line "channel_width_mhz" with
  | Some width => (width =? 40)%Z
  | None => false
  end = false.
Proof.
  unfold width_allowed.
  destruct (extract_int_field line "channel_width_mhz") as [width|];
    [|reflexivity].
  now destruct (width =? 40)%Z.
Qed.

(** X19: An admissible request that gets no answer, because the socket path
    does not exist or because the exchange with the peer fails, is
    answered with [ok:false] and the socket-not-available message.
    No exchange is attempted when the path is missing; otherwise exactly
    one is, for the built request. *)
Theorem unanswered_link_request (w : World) (line : string)
    (Hvalue : link_request_has_value line = true)
    (Hwidth : width_allowed line = true)
    (Hsilent : file_exists w kOpenHdControlSocketPath = false
               \/ ctrl_peer w (link_control_payload line) = None) :
  fst (handle_link_control_request w line)
  = link_response false "OpenHD control socket not available."
  /\ ctrl_sent (snd (handle_link_control_request w line))
     = (if file_exists w kOpenHdControlSocketPath then
          ctrl_sent w ++ [link_control_payload line]
        else ctrl_sent w)%list.
Proof.
  unfold handle_link_control_request. cbv zeta.
  unfold link_request_has_value in Hvalue. rewrite Hvalue.
  rewrite (width_allowed_test line Hwidth). cbn [negb].
  unfold send_openhd_control.
  change (file_exists (log_stderr ?l w)) with (file_exists w).
  destruct (file_exists w kOpenHdControlSocketPath) eqn:Hsock; cbn [negb].
  - destruct Hsilent as [Hs|Hpeer]; [discriminate|].
    cbn [ctrl_peer log_stderr]. rewrite Hpeer. cbn [fst snd].
    split; reflexivity.
  - cbn [fst snd]. split; reflexivity.
Qed.

(** An answer of the peer is relayed: [ok] as the peer gave it, false
    when the answer has none; the peer's message as it is, or the
    default rejection message when the answer is not ok and has no
    message. *)
Lemma peer_answer_is_relayed (w : World) (line answer : string)
    (Hvalue : link_request_has_value line = true)
    (Hwidth : width_allowed line = true)
    (Hsock : file_exists w kOpenHdControlSocketPath = true)
    (Hpeer : ctrl_peer w (link_control_payload line) = Some answer) :
  let ok := value_or (extract_bool_field answer "ok") false in
  let message := value_or (extract_string_field answer "message") "" in
  fst (handle_link_control_request w line)
  = link_response ok
      (if empty message && negb ok then "OpenHD rejected the RF update."
       else message)
  /\ ctrl_sent (snd (handle_link_control_request w line))
     = (ctrl_sent w ++ [link_control_payload line])%list.
Proof.
  cbv zeta. unfold handle_link_control_request. cbv zeta.
  unfold link_request_has_value in Hvalue. rewrite Hvalue.
  rewrite (width_allowed_test line Hwidth). cbn [negb].
  unfold send_openhd_control.
  change (file_exists (log_stderr ?l w)) with (file_exists w).
  rewrite Hsock. cbn [negb ctrl_peer log_stderr]. rewrite Hpeer.
  cbn [fst snd]. split; [apply link_response_text|reflexivity].
Qed.

End LinkControl.

(** ** The merge of a set request *)

Section Merge.
Context `{Platform}.

(** X20: The merge of a set request touches the record of its interface
    only, and never leaves that interface with a record that has no
    value. *)
Theorem set_tx_overrides_local (line iface : string)
    (tx_overrides : umap WifiTxPowerOverride) :
  (forall r, um_find iface (set_tx_overrides line iface tx_overrides) = Some r
             -> has_tx_power_values r = true)
  /\ (forall j, j <> iface ->
        um_find j (set_tx_overrides line iface tx_overrides)
        = um_find j tx_overrides)
  /\ (NoDup (um_keys tx_overrides) ->
      NoDup (um_keys (set_tx_overrides line iface tx_overrides))).
Proof.
  unfold set_tx_overrides. rewrite um_find_update. cbn [value_or].
  set (merged := merge_tx_fields line _).
  destruct (has_tx_power_values merged) eqn:Hany; cbn [negb].
  - split; [|split].
    + intros r. rewrite um_find_update. cbn [value_or]. fold merged.
      now intros [= <-].
    + intros j Hj. now apply um_find_update_other, not_eq_sym.
    + apply um_update_NoDup.
  - split; [|split].
    + intros r. now rewrite um_find_erase.
    + intros j Hj. rewrite um_find_erase_other by exact Hj.
      now apply um_find_update_other, not_eq_sym.
    + intro Hnd. now apply um_erase_NoDup, um_update_NoDup.
Qed.

(** X21: A set request whose power level is empty or AUTO leaves the
    record of its interface without a level and without its three raw
    power values (a record dropped from the store reading as the empty
    record). *)
Theorem auto_level_clears_power (line iface level : string)
    (tx_overrides : umap WifiTxPowerOverride)
    (Hlevel : extract_string_field line "power_level" = Some level)
    (Hauto : level = "" \/ equal_after_uppercase level "AUTO" = true) :
  let record :=
    value_or (um_find iface (set_tx_overrides line iface tx_overrides))
      no_tx_override in
  power_level record = "" /\ tx_power record = ""
  /\ tx_power_high record = "" /\ tx_power_low record = "".
Proof.
  cbv zeta. unfold set_tx_overrides. rewrite um_find_update. cbn [value_or].
  set (merged := merge_tx_fields line _).
  assert (Hmerged : power_level merged = "" /\ tx_power merged = ""
                    /\ tx_power_high merged = "" /\ tx_power_low merged = "").
  { unfold merged, merge_tx_fields, merge_power_level, merge_profile_pin.
    rewrite Hlevel.
    replace (empty level || equal_after_uppercase level "AUTO") with true
      by (destruct Hauto as [-> | ->]; [reflexivity|now rewrite orb_true_r]).
    destruct (has_value _ || has_value _ || has_value _);
      [destruct (empty _ || empty _)|]; repeat split; reflexivity. }
  destruct (has_tx_power_values merged); cbn [negb].
  - rewrite um_find_update. cbn [value_or]. exact Hmerged.
  - rewrite um_find_erase. cbn [value_or]. repeat split; reflexivity.
Qed.

End Merge.

(** ** The card list *)

Section CardList.
Context `{Platform}.

Lemma build_wifi_card_name (w : World) (iface : string)
    (overrides : umap string) (tx_overrides : umap WifiTxPowerOverride)
    (profiles : list WifiCardProfile) :
  interface_name (build_wifi_card w iface overrides tx_overrides profiles)
  = iface.
Proof.
  unfold build_wifi_card.
  now destruct (card_identity w iface) as [[[driver phy] mac_text] [v d]].
Qed.

(** X22: The detected cards are the entries of [/sys/class/net] that have a
    [phy80211] node, one card each, in directory order; when the
    directory cannot be listed there is no card. *)
Theorem detect_wifi_cards_interfaces (w : World) (overrides : umap string)
    (tx_overrides : umap WifiTxPowerOverride)
    (profiles : list WifiCardProfile) :
  map interface_name (detect_wifi_cards w overrides tx_overrides profiles)
  = match fs_net_entries w with
    | Some entries =>
        filter (fun iface =>
                  fs_exists w
                    (path_append (path_append "/sys/class/net" iface)
                       "phy80211")) entries
    | None => []
    end.
Proof.
  unfold detect_wifi_cards.
  destruct (fs_net_entries w) as [entries|]; [|reflexivity].
  induction entries as [|iface entries IH]; [reflexivity|].
  cbn [flat_map filter].
  destruct (fs_exists w _); [|exact IH].
  cbn [app map]. now rewrite build_wifi_card_name, IH.
Qed.

(** X23: The card list is built on first use and then served from memory: a
    first call of [wifi_cards] leaves the list initialised, changes no
    file, and a second call returns the same list without changing
    anything. *)
Theorem wifi_cards_is_built_once (w : World) :
  let '(cards, w1) := wifi_cards w in
  g_wifi_initialized w1 = true
  /\ fs_read w1 = fs_read w
  /\ wifi_cards w1 = (cards, w1)
  /\ (g_wifi_initialized w = true -> w1 = w /\ cards = g_wifi_cards w).
Proof.
  unfold wifi_cards. cbv zeta.
  destruct (g_wifi_initialized w) eqn:Hinit.
  - rewrite Hinit. now repeat split.
  - cbn [g_wifi_initialized refresh_wifi_info set_wifi_cards].
    repeat split; discriminate.
Qed.

(** X24: Disabled cards do not count: [has_openhd_wifibroadcast_cards] holds
    exactly when some card of the list is not disabled and has an
    effective type that starts with OPENHD_, white space and case
    aside. *)
Theorem has_openhd_wifibroadcast_cards_spec (w : World) :
  fst (has_openhd_wifibroadcast_cards w) = true <->
  exists card,
    In card (fst (wifi_cards w)) /\ disabled card = false
    /\ starts_with "OPENHD_" (to_upper (trim_copy (effective_type card)))
       = true.
Proof.
  unfold has_openhd_wifibroadcast_cards.
  destruct (wifi_cards w) as [cards w1]. cbn [fst].
  rewrite existsb_exists. split; intros [card [Hin Hcard]]; exists card;
    (split; [exact Hin|]).
  - apply andb_true_iff in Hcard. destruct Hcard as [Hd Ht].
    apply negb_true_iff in Hd. split; [exact Hd|].
    unfold is_openhd_wifibroadcast_type in Ht.
    now destruct (empty (to_upper (trim_copy (effective_type card)))).
  - destruct Hcard as [Hd Ht]. rewrite Hd. cbn [negb andb].
    unfold is_openhd_wifibroadcast_type.
    destruct (to_upper (trim_copy (effective_type card))); [discriminate|].
    exact Ht.
Qed.

End CardList.

(** ** Identity extraction keeps what is known *)

Section KnownIdentity.
Context `{Platform}.

(** [vendor] and [device] after a step are the ones before it wherever
    those were known. *)
Definition keeps_known (before after : string * string) : Prop :=
  (fst before <> "" -> fst after = fst before)
  /\ (snd before <> "" -> snd after = snd before).

Lemma keeps_known_refl (ids : string * string) : keeps_known ids ids.
Proof. now split. Qed.

Lemma keeps_known_trans (a b c : string * string) :
  keeps_known a b -> keeps_known b c -> keeps_known a c.
Proof.
  intros [Hv1 Hd1] [Hv2 Hd2]. split; intro Hne.
  - rewrite <- (Hv1 Hne). apply Hv2. now rewrite (Hv1 Hne).
  - rewrite <- (Hd1 Hne). apply Hd2. now rewrite (Hd1 Hne).
Qed.

Lemma fill_pair_keeps (vendor device v d : string) :
  keeps_known (vendor, device) (fill_pair vendor device v d).
Proof.
  unfold fill_pair. split; cbn [fst snd]; intro Hne;
    apply empty_false in Hne; now rewrite Hne.
Qed.

Lemma fill_from_uevent_keeps (uevent vendor device : string) :
  keeps_known (vendor, device)
    (fill_vendor_device_from_uevent uevent vendor device).
Proof.
  unfold fill_vendor_device_from_uevent.
  destruct (negb (empty vendor) && negb (empty device));
    [apply keeps_known_refl|].
  repeat match goal with
         | |- context [match regex_search ?u ?p with _ => _ end] =>
             destruct (regex_search u p) as [[|? [|? [|? [|? ?]]]]|]
         end;
    first [apply fill_pair_keeps | apply keeps_known_refl].
Qed.

Lemma fill_from_modalias_keeps (modalias vendor device : string) :
  keeps_known (vendor, device)
    (fill_vendor_device_from_modalias modalias vendor device).
Proof.
  unfold fill_vendor_device_from_modalias.
  destruct (negb (empty vendor) && negb (empty device));
    [apply keeps_known_refl|].
  repeat match goal with
         | |- context [match regex_search ?u ?p with _ => _ end] =>
             destruct (regex_search u p) as [[|? [|? [|? [|? ?]]]]|]
         end;
    first [apply fill_pair_keeps | apply keeps_known_refl].
Qed.

Lemma fill_from_file_keeps (w : World) (field path : string) :
  field <> "" -> fill_from_file w field path = field.
Proof.
  intro Hne. apply empty_false in Hne. unfold fill_from_file.
  now rewrite Hne.
Qed.

Lemma sysfs_walk_keeps (w : World) (levels : nat) :
  forall current vendor device,
    keeps_known (vendor, device) (sysfs_walk w levels current vendor device).
Proof.
  induction levels as [|levels IH]; intros current vendor device;
    [apply keeps_known_refl|].
  cbn [sysfs_walk]. destruct (empty current); [apply keeps_known_refl|].
  set (vendor2 := fill_from_file w (fill_from_file w vendor _) _).
  set (device2 := fill_from_file w (fill_from_file w device _) _).
  assert (Hfiles : keeps_known (vendor, device) (vendor2, device2)).
  { split; cbn [fst snd]; intro Hne; unfold vendor2, device2;
      now rewrite !fill_from_file_keeps
        by (rewrite ?fill_from_file_keeps; assumption). }
  set (ids3 := if file_exists w (path_append current "uevent") then _
               else (vendor2, device2)).
  assert (H3 : keeps_known (vendor2, device2) ids3).
  { unfold ids3. destruct (file_exists w _);
      [apply fill_from_uevent_keeps|apply keeps_known_refl]. }
  destruct ids3 as [vendor3 device3].
  set (ids4 := if file_exists w (path_append current "modalias") then _
               else (vendor3, device3)).
  assert (H4 : keeps_known (vendor3, device3) ids4).
  { unfold ids4. destruct (file_exists w _);
      [apply fill_from_modalias_keeps|apply keeps_known_refl]. }
  destruct ids4 as [vendor4 device4].
  assert (Hstep : keeps_known (vendor, device) (vendor4, device4))
    by (eapply keeps_known_trans; [|exact H4];
        eapply keeps_known_trans; [exact Hfiles|exact H3]).
  destruct (negb (empty vendor4) && negb (empty device4)); [exact Hstep|].
  eapply keeps_known_trans; [exact Hstep|apply IH].
Qed.

(** X25: No source of identity overwrites a vendor or a device that is
    already known: the walk through sysfs, the uevent text and the
    modalias text each leave a non-empty vendor and a non-empty device
    as they are. *)
Theorem identity_sources_keep_known (w : World)
    (path text vendor device : string) :
  keeps_known (vendor, device)
    (fill_vendor_device_from_sysfs w path vendor device)
  /\ keeps_known (vendor, device)
       (fill_vendor_device_from_uevent text vendor device)
  /\ keeps_known (vendor, device)
       (fill_vendor_device_from_modalias text vendor device).
Proof.
  split; [|split].
  - unfold fill_vendor_device_from_sysfs.
    destruct (empty path); [apply keeps_known_refl|apply sysfs_walk_keeps].
  - apply fill_from_uevent_keeps.
  - apply fill_from_modalias_keeps.
Qed.

(** Both identifiers are fixed points of [normalize_id]: empty, or [0x]
    and an uppercased text. *)
Definition normal_ids (ids : string * string) : Prop :=
  normalize_id (fst ids) = fst ids /\ normalize_id (snd ids) = snd ids.

Lemma fill_pair_normal (vendor device v d : string) :
  normal_ids (vendor, device) -> normal_ids (fill_pair vendor device v d).
Proof.
  intros [Hv Hd]. unfold fill_pair, normal_ids. cbn [fst snd] in *.
  destruct (empty vendor), (empty device);
    split; try assumption; apply normalize_id_idempotent.
Qed.

Lemma fill_from_uevent_normal (uevent vendor device : string) :
  normal_ids (vendor, device) ->
  normal_ids (fill_vendor_device_from_uevent uevent vendor device).
Proof.
  intro Hids. unfold fill_vendor_device_from_uevent.
  destruct (negb (empty vendor) && negb (empty device)); [exact Hids|].
  repeat match goal with
         | |- context [match regex_search ?u ?p with _ => _ end] =>
             destruct (regex_search u p) as [[|? [|? [|? [|? ?]]]]|]
         end;
    first [now apply fill_pair_normal | exact Hids].
Qed.

Lemma fill_from_modalias_normal (modalias vendor device : string) :
  normal_ids (vendor, device) ->
  normal_ids (fill_vendor_device_from_modalias modalias vendor device).
Proof.
  intro Hids. unfold fill_vendor_device_from_modalias.
  destruct (negb (empty vendor) && negb (empty device)); [exact Hids|].
  repeat match goal with
         | |- context [match regex_search ?u ?p with _ => _ end] =>
             destruct (regex_search u p) as [[|? [|? [|? [|? ?]]]]|]
         end;
    first [now apply fill_pair_normal | exact Hids].
Qed.

Lemma fill_from_file_normal (w : World) (field path : string) :
  normalize_id field = field ->
  normalize_id (fill_from_file w field path) = fill_from_file w field path.
Proof.
  intro Hf. unfold fill_from_file.
  destruct (empty field && file_exists w path);
    [apply normalize_id_idempotent|exact Hf].
Qed.

Lemma sysfs_walk_normal (w : World) (levels : nat) :
  forall current vendor device,
    normal_ids (vendor, device) ->
    normal_ids (sysfs_walk w levels current vendor device).
Proof.
  induction levels as [|levels IH]; intros current vendor device Hids;
    [exact Hids|].
  cbn [sysfs_walk]. destruct (empty current); [exact Hids|].
  destruct Hids as [Hv Hd]. cbn [fst snd] in *.
  set (vendor2 := fill_from_file w (fill_from_file w vendor _) _).
  set (device2 := fill_from_file w (fill_from_file w device _) _).
  assert (H2 : normal_ids (vendor2, device2))
    by (split; cbn [fst snd]; now apply fill_from_file_normal,
                                    fill_from_file_normal).
  set (ids3 := if file_exists w (path_append current "uevent") then _
               else (vendor2, device2)).
  assert (H3 : normal_ids ids3).
  { unfold ids3. destruct (file_exists w _);
      [now apply fill_from_uevent_normal|exact H2]. }
  destruct ids3 as [vendor3 device3].
  set (ids4 := if file_exists w (path_append current "modalias") then _
               else (vendor3, device3)).
  assert (H4 : normal_ids ids4).
  { unfold ids4. destruct (file_exists w _);
      [now apply fill_from_modalias_normal|exact H3]. }
  destruct ids4 as [vendor4 device4].
  destruct (negb (empty vendor4) && negb (empty device4)); [exact H4|].
  now apply IH.
Qed.

(** X26: Whatever sysfs holds, the vendor and the device of a card are in
    normal form: [normalize_id] leaves each as it is. *)
Theorem card_identifiers_are_normal (w : World) (iface : string)
    (overrides : umap string) (tx_overrides : umap WifiTxPowerOverride)
    (profiles : list WifiCardProfile) :
  let card := build_wifi_card w iface overrides tx_overrides profiles in
  normalize_id (card_vendor_id card) = card_vendor_id card
  /\ normalize_id (card_device_id card) = card_device_id card.
Proof.
  cbv zeta. unfold build_wifi_card.
  assert (Hids : normal_ids (snd (card_identity w iface))).
  { unfold card_identity. cbn [snd].
    match goal with
    | |- normal_ids (if ?c then fill_vendor_device_from_uevent ?u _ _
                     else ?ids) =>
        assert (Hwalk : normal_ids ids);
        [|destruct c;
          [destruct ids; now apply fill_from_uevent_normal|exact Hwalk]]
    end.
    unfold fill_vendor_device_from_sysfs.
    destruct (empty _); [now split|].
    apply sysfs_walk_normal. now split. }
  destruct (card_identity w iface) as [[[driver phy] mac_text] [v d]].
  exact Hids.
Qed.

End KnownIdentity.

(** ** What the brace scanners return *)

(** [obj] is a stretch of [content] that begins at a [{] and ends at a
    [}]. *)
Definition brace_stretch (content obj : string) : Prop :=
  exists start len,
    obj = substring start len content
    /\ get start content = Some "{"%char
    /\ get (start + len - 1) content = Some "}"%char
    /\ 0 < len.

Lemma substr_from_get (pos : nat) :
  forall content ch rest,
    substr_from pos content = String ch rest ->
    get pos content = Some ch /\ substr_from (S pos) content = rest.
Proof.
  induction pos as [|pos IH]; intros content ch rest Hsub.
  - cbn [substr_from] in Hsub. subst content. now split.
  - destruct content as [|c s]; [discriminate|].
    cbn [substr_from] in Hsub. destruct (IH s ch rest Hsub) as [Hget Hrest].
    split; [exact Hget|]. exact Hrest.
Qed.

(** The pending start of an object is the position of a [{] already
    passed. *)
Definition scan_ok (content : string) (pos : nat) (st : Scan) : Prop :=
  forall start, obj_start st = Some start ->
                get start content = Some "{"%char /\ start < pos.

Lemma scan_ok_step (content : string) (pos : nat) (st st' : Scan) :
  obj_start st' = obj_start st -> scan_ok content pos st ->
  scan_ok content (S pos) st'.
Proof.
  intros Hsame Hok start Hstart. rewrite Hsame in Hstart.
  destruct (Hok start Hstart). split; [assumption|lia].
Qed.

Lemma scan_in_string_start (st : Scan) (ch : ascii) :
  obj_start (scan_in_string st ch) = obj_start st.
Proof.
  unfold scan_in_string.
  destruct (escape st); [reflexivity|].
  destruct (Ascii.eqb ch "\"); [reflexivity|].
  now destruct (Ascii.eqb ch ch_quote).
Qed.

Lemma scan_open_brace_ok (content : string) (pos : nat) (st : Scan) :
  get pos content = Some "{"%char -> scan_ok content pos st ->
  scan_ok content (S pos) (scan_open_brace st pos).
Proof.
  intros Hget Hok start. unfold scan_open_brace. cbn [obj_start].
  destruct (depth st =? 0)%nat.
  - intros [= <-]. split; [exact Hget|lia].
  - intro Hstart. destruct (Hok start Hstart). split; [assumption|lia].
Qed.

Lemma closed_stretch (content : string) (pos start : nat) :
  get start content = Some "{"%char -> start < pos ->
  get pos content = Some "}"%char ->
  brace_stretch content (substring start (pos - start + 1) content).
Proof.
  intros Hopen Hlt Hclose. exists start, (pos - start + 1).
  split; [reflexivity|]. split; [exact Hopen|].
  split; [|lia]. now replace (start + (pos - start + 1) - 1) with pos by lia.
Qed.

Lemma scan_array_stretches (content : string) :
  forall rest pos st objects,
    substr_from pos content = rest -> scan_ok content pos st ->
    Forall (brace_stretch content) objects ->
    Forall (brace_stretch content) (scan_array content rest pos st objects).
Proof.
  induction rest as [|ch rest IH]; intros pos st objects Hsub Hok Hobjs;
    [exact Hobjs|].
  destruct (substr_from_get pos content ch rest Hsub) as [Hget Hrest].
  cbn [scan_array].
  destruct (in_string st).
  { apply IH; [exact Hrest| |exact Hobjs].
    eapply scan_ok_step; [apply scan_in_string_start|exact Hok]. }
  destruct (Ascii.eqb ch ch_quote).
  { apply IH; [exact Hrest| |exact Hobjs].
    eapply scan_ok_step; [reflexivity|exact Hok]. }
  destruct (Ascii.eqb ch "{") eqn:Hopen.
  { apply Ascii.eqb_eq in Hopen. subst ch.
    apply IH; [exact Hrest| |exact Hobjs]. now apply scan_open_brace_ok. }
  destruct (Ascii.eqb ch "}") eqn:Hclose.
  { apply Ascii.eqb_eq in Hclose. subst ch.
    destruct (depth st) as [|d] eqn:Hdepth.
    - apply IH; [exact Hrest| |exact Hobjs].
      eapply scan_ok_step; [reflexivity|exact Hok].
    - destruct d as [|d]; [destruct (obj_start st) as [start|] eqn:Hstart|].
      + destruct (Hok start Hstart) as [Hbrace Hlt].
        apply IH; [exact Hrest|intros s' [=]|].
        apply Forall_app. split; [exact Hobjs|].
        constructor; [|constructor]. now apply closed_stretch.
      + apply IH; [exact Hrest| |exact Hobjs].
        intros s' Hs'. cbn [obj_start] in Hs'. congruence.
      + apply IH; [exact Hrest| |exact Hobjs].
        eapply scan_ok_step; [reflexivity|exact Hok]. }
  destruct (Ascii.eqb ch "]" && (depth st =? 0)%nat); [exact Hobjs|].
  apply IH; [exact Hrest| |exact Hobjs].
  eapply scan_ok_step; [reflexivity|exact Hok].
Qed.

Lemma scan_object_stretch (content : string) :
  forall rest pos st obj,
    substr_from pos content = rest -> scan_ok content pos st ->
    scan_object content rest pos st = Some obj ->
    brace_stretch content obj.
Proof.
  induction rest as [|ch rest IH]; intros pos st obj Hsub Hok;
    [discriminate|].
  destruct (substr_from_get pos content ch rest Hsub) as [Hget Hrest].
  cbn [scan_object].
  destruct (in_string st).
  { apply IH; [exact Hrest|].
    eapply scan_ok_step; [apply scan_in_string_start|exact Hok]. }
  destruct (Ascii.eqb ch ch_quote).
  { apply IH; [exact Hrest|].
    eapply scan_ok_step; [reflexivity|exact Hok]. }
  destruct (Ascii.eqb ch "{") eqn:Hopen.
  { apply Ascii.eqb_eq in Hopen. subst ch.
    apply IH; [exact Hrest|]. now apply scan_open_brace_ok. }
  destruct (Ascii.eqb ch "}") eqn:Hclose.
  { apply Ascii.eqb_eq in Hclose. subst ch.
    destruct (depth st) as [|d] eqn:Hdepth.
    - apply IH; [exact Hrest|].
      eapply scan_ok_step; [reflexivity|exact Hok].
    - destruct d as [|d]; [destruct (obj_start st) as [start|] eqn:Hstart|].
      + destruct (Hok start Hstart) as [Hbrace Hlt].
        intros [= <-]. now apply closed_stretch.
      + apply IH; [exact Hrest|].
        intros s' Hs'. cbn [obj_start] in Hs'. congruence.
      + apply IH; [exact Hrest|].
        eapply scan_ok_step; [reflexivity|exact Hok]. }
  apply IH; [exact Hrest|].
  eapply scan_ok_step; [reflexivity|exact Hok].
Qed.

Lemma scan_init_ok (content : string) (pos : nat) :
  scan_ok content pos scan_init.
Proof. intros start [=]. Qed.

(** X27: Whatever the text, every object that [extract_array_objects] yields
    and the object that [extract_object_field] returns is a stretch of
    the text that begins at a [{] and ends at a [}]; a text without the
    key yields nothing. *)
Theorem extracted_objects_are_brace_delimited (content key : string) :
  Forall (brace_stretch content) (extract_array_objects content key)
  /\ (forall obj, extract_object_field content key = Some obj ->
                  brace_stretch content obj)
  /\ (find_from (dq ++ key ++ dq) 0 content = None ->
      extract_array_objects content key = []
      /\ extract_object_field content key = None).
Proof.
  split; [|split].
  - unfold extract_array_objects. cbv zeta.
    destruct (find_from _ 0 content) as [key_pos|]; [|constructor].
    destruct (find_from ":" _ content) as [colon_pos|]; [|constructor].
    destruct (find_from "[" _ content) as [array_pos|]; [|constructor].
    apply scan_array_stretches;
      [reflexivity|apply scan_init_ok|constructor].
  - intro obj. unfold extract_object_field. cbv zeta.
    destruct (find_from _ 0 content) as [key_pos|]; [|discriminate].
    destruct (find_from ":" _ content) as [colon_pos|]; [|discriminate].
    destruct (find_from "{" _ content) as [obj_pos|]; [|discriminate].
    apply scan_object_stretch; [reflexivity|apply scan_init_ok].
  - intro Hnone. unfold extract_array_objects, extract_object_field.
    cbv zeta. now rewrite Hnone.
Qed.

(** ** Escaping is lossless *)

Lemma json_escape_char_inj (c1 c2 : ascii) (r1 r2 : string) :
  json_escape_char c1 ++ r1 = json_escape_char c2 ++ r2 ->
  c1 = c2 /\ r1 = r2.
Proof.
  unfold json_escape_char.
  destruct (Ascii.eqb c1 "\") eqn:A1;
    [|destruct (Ascii.eqb c1 ch_quote) eqn:A2;
      [|destruct (Ascii.eqb c1 ch_newline) eqn:A3;
        [|destruct (Ascii.eqb c1 "013") eqn:A4;
          [|destruct (Ascii.eqb c1 "009") eqn:A5]]]];
    (destruct (Ascii.eqb c2 "\") eqn:B1;
      [|destruct (Ascii.eqb c2 ch_quote) eqn:B2;
        [|destruct (Ascii.eqb c2 ch_newline) eqn:B3;
          [|destruct (Ascii.eqb c2 "013") eqn:B4;
            [|destruct (Ascii.eqb c2 "009") eqn:B5]]]]);
    cbn [append]; intro Heq; inversion Heq; subst;
    repeat match goal with
           | E : Ascii.eqb _ _ = true |- _ => apply Ascii.eqb_eq in E; subst
           end;
    try (split; reflexivity);
    try discriminate;
    repeat match goal with
           | E : Ascii.eqb ?c ?c = false |- _ =>
               rewrite Ascii.eqb_refl in E; discriminate
           end.
Qed.

(** X28: [json_escape] loses nothing and leaves no control character of the
    line protocol: two texts with the same escaped form are the same
    text, and an escaped text holds no newline, carriage return or
    tab. *)
Theorem json_escape_lossless (a b : string) :
  (json_escape a = json_escape b -> a = b)
  /\ find_char ch_newline (json_escape a) = None
  /\ find_char "013" (json_escape a) = None
  /\ find_char "009" (json_escape a) = None.
Proof.
  split.
  - revert b. induction a as [|c1 a IH]; intros [|c2 b] Heq.
    + reflexivity.
    + cbn [json_escape] in Heq. unfold json_escape_char in Heq.
      repeat match type of Heq with
             | context [if ?t then _ else _] => destruct t
             end; discriminate.
    + cbn [json_escape] in Heq. unfold json_escape_char in Heq.
      repeat match type of Heq with
             | context [if ?t then _ else _] => destruct t
             end; discriminate.
    + cbn [json_escape] in Heq.
      apply json_escape_char_inj in Heq. destruct Heq as [-> Hrest].
      f_equal. now apply IH.
  - split; [apply json_escape_one_line|].
    split; induction a as [|c a IH]; try reflexivity;
      cbn [json_escape]; (apply find_char_app_none; split; [|exact IH]);
      unfold json_escape_char;
      destruct (Ascii.eqb c "\"); try reflexivity;
      destruct (Ascii.eqb c ch_quote); try reflexivity;
      destruct (Ascii.eqb c ch_newline); try reflexivity;
      destruct (Ascii.eqb c "013") eqn:Hcr; try reflexivity;
      destruct (Ascii.eqb c "009") eqn:Htab; try reflexivity;
      cbn [find_char]; now rewrite ?Hcr, ?Htab.
Qed.

(** ** The profile of a card *)

Section CardProfile.
Context `{Platform}.

Lemma find_wifi_profile_In (profiles : list WifiCardProfile)
    (v d c : string) (p : WifiCardProfile) :
  find_wifi_profile profiles v d c = Some p -> In p profiles.
Proof. intro Hfind. now apply (find_wifi_profile_facts v d c profiles). Qed.

Lemma select_profile_facts (profiles : list WifiCardProfile)
    (vendor device detected : string) (tx_it : option WifiTxPowerOverride) :
  (forall p, select_profile profiles vendor device detected tx_it = Some p ->
             In p profiles)
  /\ (select_profile profiles vendor device detected tx_it = None ->
      find_wifi_profile profiles vendor device detected = None).
Proof.
  unfold select_profile.
  destruct (find_wifi_profile profiles vendor device detected) as [q|] eqn:Hq.
  - assert (Hin : In q profiles) by now apply find_wifi_profile_In in Hq.
    destruct tx_it as [o|]; [|split; [now intros p [= <-]|discriminate]].
    destruct (negb (empty (profile_vendor_id o))
              && negb (empty (profile_device_id o)));
      [|split; [now intros p [= <-]|discriminate]].
    cbv zeta.
    destruct (find_wifi_profile profiles (profile_vendor_id o)
                (profile_device_id o) _) as [m|] eqn:Hm.
    + apply find_wifi_profile_In in Hm.
      split; [now intros p [= <-]|discriminate].
    + destruct (find_wifi_profile profiles (profile_vendor_id o)
                  (profile_device_id o) "") as [g|] eqn:Hg.
      * apply find_wifi_profile_In in Hg.
        split; [now intros p [= <-]|discriminate].
      * split; [now intros p [= <-]|discriminate].
  - destruct tx_it as [o|]; [|split; [discriminate|reflexivity]].
    destruct (negb (empty (profile_vendor_id o))
              && negb (empty (profile_device_id o)));
      [|split; [discriminate|reflexivity]].
    cbv zeta.
    destruct (find_wifi_profile profiles (profile_vendor_id o)
                (profile_device_id o) _) as [m|] eqn:Hm.
    + apply find_wifi_profile_In in Hm.
      split; [now intros p [= <-]|discriminate].
    + destruct (find_wifi_profile profiles (profile_vendor_id o)
                  (profile_device_id o) "") as [g|] eqn:Hg.
      * apply find_wifi_profile_In in Hg.
        split; [now intros p [= <-]|discriminate].
      * split; [discriminate|reflexivity].
Qed.

(** X29: The profile chosen for a card is a profile of the catalog, and a pin
    never costs a card its profile: when the detected identity has a
    profile, the card has one, pinned or not. *)
Theorem select_profile_from_catalog (profiles : list WifiCardProfile)
    (vendor device detected : string) (tx_it : option WifiTxPowerOverride) :
  (forall p, select_profile profiles vendor device detected tx_it = Some p ->
             In p profiles)
  /\ (select_profile profiles vendor device detected tx_it = None ->
      find_wifi_profile profiles vendor device detected = None).
Proof. apply select_profile_facts. Qed.

(** X30: On a catalog of well-formed profiles, a card whose power mode is
    FIXED shows no figure at all: its six power figures and its tx_power
    are empty and its power level is FIXED.  The power level of any card
    is in upper case. *)
Theorem fixed_cards_show_no_figures (w : World) (iface : string)
    (overrides : umap string) (tx_overrides : umap WifiTxPowerOverride)
    (profiles : list WifiCardProfile)
    (Hcatalog : Forall profile_well_formed profiles) :
  let card := build_wifi_card w iface overrides tx_overrides profiles in
  to_upper (card_power_level card) = card_power_level card
  /\ (card_power_mode card = "FIXED" ->
      power_lowest card = "" /\ power_low card = "" /\ power_mid card = ""
      /\ power_high card = "" /\ power_min card = "" /\ power_max card = ""
      /\ card_tx_power card = "" /\ card_power_level card = "FIXED").
Proof.
  cbv zeta. unfold build_wifi_card.
  destruct (card_identity w iface) as [[[driver phy] mac_text] [v d]].
  cbn [card_power_level card_power_mode power_lowest power_low power_mid
       power_high power_min power_max card_tx_power].
  set (tx_it := um_find iface tx_overrides).
  set (level1 := match tx_it with Some o => power_level o | None => "" end).
  assert (Hlevel : to_upper (if negb (empty level1) then to_upper level1
                             else level1)
                   = (if negb (empty level1) then to_upper level1
                      else level1)).
  { destruct level1; [reflexivity|]. cbn [empty negb]. apply to_upper_idem. }
  destruct (select_profile profiles v d (driver_to_type driver) tx_it)
    as [p|] eqn:Hp.
  - pose proof (proj1 (select_profile_facts profiles v d
                         (driver_to_type driver) tx_it) p Hp) as Hin.
    rewrite Forall_forall in Hcatalog.
    destruct (Hcatalog p Hin) as (_ & _ & _ & Hupper & Hfixed).
    rewrite Hupper. split.
    + destruct (power_mode p =? "FIXED")%string; [reflexivity|exact Hlevel].
    + intro Hmode. rewrite Hmode. cbn [String.eqb Ascii.eqb Bool.eqb].
      destruct (Hfixed Hmode) as (-> & -> & -> & -> & -> & ->).
      now repeat split.
  - cbn [negb]. split; [exact Hlevel|discriminate].
Qed.

End CardProfile.

(** ** The further properties on the sample adapter *)

Section FurtherRuns.
#[local] Existing Instance Sample.platform.

(** A catalog object without a vendor identifier, between two complete
    ones. *)
Definition complete_object (device : string) : string :=
  Sample.line [Sample.text_member "vendor_id" "0x0bda";
               Sample.text_member "device_id" device;
               Sample.text_member "name" "Adapter";
               Sample.text_member "power_mode" "mw";
               Sample.number_member "max_mw" 800].

Definition vendorless_object : string :=
  Sample.line [Sample.text_member "device_id" "0x8812";
               Sample.text_member "name" "Nameless"].

Lemma objects_without_identity_are_skipped_witness :
  extract_string_field vendorless_object "vendor_id" = None
  /\ parse_profile_objects
       ([complete_object "0x8812"] ++ vendorless_object
          :: [complete_object "0xa81a"])
     = (parse_profile_objects [complete_object "0x8812"]
        ++ parse_profile_objects [complete_object "0xa81a"])%list.
Proof.
  split; [reflexivity|].
  apply (objects_without_identity_are_skipped vendorless_object).
  left; reflexivity.
Defined.

(** Update requests for the sample adapter. *)
Definition update_line (action : string) (members : list string) : string :=
  Sample.line (Sample.text_member "type" "sysutil.wifi.update"
               :: Sample.text_member "action" action :: members).

Definition reboot_line : string := update_line "reboot" [].

Lemma unknown_action_is_refused_witness :
  handle_wifi_update Sample.world reboot_line
  = (update_refused_response "reboot", Sample.world).
Proof.
  apply (unknown_action_is_refused Sample.world reboot_line "reboot");
    [reflexivity|discriminate..].
Defined.

Definition refresh_line : string := update_line "refresh" [].

Lemma refresh_rebuilds_without_writing_witness :
  map interface_name
    (g_wifi_cards (snd (handle_wifi_update Sample.world refresh_line)))
  = ["wlan0"]
  /\ fs_read (snd (handle_wifi_update Sample.world refresh_line))
     = fs_read Sample.world.
Proof.
  pose proof (refresh_rebuilds_without_writing Sample.world refresh_line
                (or_intror (or_introl eq_refl))) as Hrun.
  cbv zeta in Hrun. destruct Hrun as [Hresponse Hfiles].
  split; [|exact Hfiles].
  rewrite Hresponse. reflexivity.
Defined.

(** The sample world with a type-override file that cannot be opened
    for writing. *)
Definition blocked_world : World :=
  {| fs_read := fs_read Sample.world;
     fs_exists := fs_exists Sample.world;
     fs_canonical := fs_canonical Sample.world;
     fs_weakly_canonical := fs_weakly_canonical Sample.world;
     fs_net_entries := fs_net_entries Sample.world;
     fs_mkdir_fails := fs_mkdir_fails Sample.world;
     fs_open_fails := fun path => (path =? kOverridesPath)%string;
     ctrl_peer := ctrl_peer Sample.world;
     ctrl_sent := ctrl_sent Sample.world;
     stderr_log := stderr_log Sample.world;
     g_wifi_cards := g_wifi_cards Sample.world;
     g_wifi_initialized := g_wifi_initialized Sample.world |}.

Definition clear_wlan0_line : string :=
  update_line "clear" [Sample.text_member "interface" "wlan0"].

Lemma clear_stops_at_first_failure_witness :
  handle_wifi_update blocked_world clear_wlan0_line
  = (update_refused_response "clear", blocked_world).
Proof.
  apply (clear_stops_at_first_failure blocked_world clear_wlan0_line);
    [reflexivity|right; reflexivity].
Defined.

Definition set_type_and_power_line : string :=
  update_line "set" [Sample.text_member "interface" "wlan0";
                     Sample.text_member "override_type" "OPENHD_RTL_88X2EU";
                     Sample.text_member "tx_power" "500"].

Lemma set_type_and_power_store :
  set_tx_overrides set_type_and_power_line "wlan0"
    (load_tx_power_overrides blocked_world)
  = [("wlan0",
      {| tx_power := "500"; tx_power_high := ""; tx_power_low := "";
         card_name := ""; power_level := "";
         profile_vendor_id := ""; profile_device_id := "";
         profile_chipset := "" |})].
Proof. reflexivity. Qed.

Lemma set_writes_power_store_after_type_failure_witness :
  fst (handle_wifi_update blocked_world set_type_and_power_line)
  = update_refused_response "set"
  /\ fs_read (snd (handle_wifi_update blocked_world set_type_and_power_line))
       kOverridesPath = None
  /\ um_find "wlan0"
       (load_tx_power_overrides
          (snd (handle_wifi_update blocked_world set_type_and_power_line)))
     = Some {| tx_power := "500"; tx_power_high := ""; tx_power_low := "";
               card_name := ""; power_level := "";
               profile_vendor_id := ""; profile_device_id := "";
               profile_chipset := "" |}.
Proof.
  assert (Hrun := set_writes_power_store_after_type_failure blocked_world
                    set_type_and_power_line "wlan0" "OPENHD_RTL_88X2EU").
  cbv zeta in Hrun.
  destruct Hrun as (Hresponse & Htypes & _ & Hload);
    [reflexivity|reflexivity|discriminate|reflexivity|reflexivity
    |reflexivity|reflexivity|].
  split; [exact Hresponse|]. split; [rewrite Htypes; reflexivity|].
  rewrite Hload; [rewrite set_type_and_power_store; reflexivity| |].
  - unfold plain_key. repeat split; try reflexivity; discriminate.
  - intro r. rewrite set_type_and_power_store. cbn [um_find String.eqb].
    intros [= <-]. repeat split; repeat constructor.
Defined.

(** The sample world with both stores on file: types for two
    interfaces, power records for three. *)
Definition stored_world : World :=
  fs_store kTxPowerOverridesPath (tx_power_text named_store)
    (fs_store kOverridesPath (overrides_text typed_store) Sample.world).

Lemma stored_world_writable : stores_writable stored_world.
Proof. repeat split. Qed.

Lemma clear_removes_interface_witness :
  um_find "wlan0"
    (load_overrides (snd (handle_wifi_update stored_world clear_wlan0_line)))
  = None
  /\ um_find "wlan1"
       (load_overrides
          (snd (handle_wifi_update stored_world clear_wlan0_line)))
     = Some "DISABLED"
  /\ um_find "wlan0"
       (load_tx_power_overrides
          (snd (handle_wifi_update stored_world clear_wlan0_line)))
     = None
  /\ um_find "wlan2"
       (load_tx_power_overrides
          (snd (handle_wifi_update stored_world clear_wlan0_line)))
     = Some pinned_record.
Proof.
  assert (Hrun := clear_removes_interface stored_world clear_wlan0_line
                    "wlan0").
  cbv zeta in Hrun.
  destruct Hrun as (Htype & Hpower & Hothers);
    [reflexivity|reflexivity|discriminate|reflexivity|].
  split; [exact Htype|].
  split; [rewrite (proj1 (Hothers "wlan1" ltac:(discriminate)));
          reflexivity|].
  split; [exact Hpower|].
  rewrite (proj2 (Hothers "wlan2" ltac:(discriminate))). reflexivity.
Defined.

Definition clear_all_line : string := update_line "clear" [].

Lemma clear_all_wipes_stores_witness :
  load_overrides stored_world = typed_store
  /\ load_overrides (snd (handle_wifi_update stored_world clear_all_line))
     = []
  /\ load_tx_power_overrides
       (snd (handle_wifi_update stored_world clear_all_line))
     = [].
Proof.
  split; [reflexivity|].
  apply (clear_all_wipes_stores stored_world clear_all_line);
    [reflexivity|left; reflexivity|exact stored_world_writable].
Defined.

Definition set_type_line (override : string) : string :=
  update_line "set" [Sample.text_member "interface" "wlan1";
                     Sample.text_member "override_type" override].

Lemma set_persists_type_override_witness :
  um_find "wlan1"
    (load_overrides
       (snd (handle_wifi_update stored_world
               (set_type_line "OPENHD_RTL_8812AU"))))
  = Some "OPENHD_RTL_8812AU"
  /\ um_find "wlan0"
       (load_overrides
          (snd (handle_wifi_update stored_world
                  (set_type_line "OPENHD_RTL_8812AU"))))
     = Some "OPENHD_RTL_88X2EU"
  /\ um_find "wlan1"
       (load_overrides
          (snd (handle_wifi_update stored_world (set_type_line "auto"))))
     = None.
Proof.
  assert (Hkey : override_key "wlan1")
    by (repeat split; try reflexivity; discriminate).
  assert (Hset := set_persists_type_override stored_world
                    (set_type_line "OPENHD_RTL_8812AU") "wlan1"
                    "OPENHD_RTL_8812AU").
  assert (Hauto := set_persists_type_override stored_world
                     (set_type_line "auto") "wlan1" "auto").
  cbv zeta in Hset, Hauto.
  destruct Hset as [Hown Hothers];
    [reflexivity|reflexivity|exact Hkey|reflexivity| |reflexivity|].
  { intros _. repeat split; try reflexivity; discriminate. }
  destruct Hauto as [Hgone _];
    [reflexivity|reflexivity|exact Hkey|reflexivity| |reflexivity|].
  { discriminate. }
  split; [rewrite Hown; reflexivity|].
  split; [rewrite (Hothers "wlan0" ltac:(discriminate)); reflexivity|].
  rewrite Hgone. reflexivity.
Defined.

(** Link-control requests. *)
Definition bare_link_line : string :=
  Sample.line [Sample.text_member "type" "sysutil.link.control"].

Lemma empty_link_request_is_refused_witness :
  fst (handle_link_control_request Sample.world bare_link_line)
  = link_response false "No RF values provided."
  /\ ctrl_sent (snd (handle_link_control_request Sample.world bare_link_line))
     = [].
Proof.
  apply (empty_link_request_is_refused Sample.world bare_link_line).
  reflexivity.
Defined.

Definition width_20_line : string :=
  Sample.line [Sample.text_member "type" "sysutil.link.control";
               Sample.text_member "interface" "wlan0";
               Sample.number_member "frequency_mhz" 5745;
               Sample.number_member "channel_width_mhz" 20].

Lemma unanswered_link_request_witness :
  file_exists Sample.world kOpenHdControlSocketPath = false
  /\ fst (handle_link_control_request Sample.world width_20_line)
     = link_response false "OpenHD control socket not available."
  /\ ctrl_sent (snd (handle_link_control_request Sample.world width_20_line))
     = [].
Proof.
  split; [reflexivity|].
  apply (unanswered_link_request Sample.world width_20_line);
    [reflexivity|reflexivity|left; reflexivity].
Defined.

Definition auto_level_line : string :=
  update_line "set" [Sample.text_member "interface" "wlan0";
                     Sample.text_member "power_level" "auto"].

Lemma auto_level_clears_power_witness :
  um_find "wlan0" (set_tx_overrides auto_level_line "wlan0" raw_power_store)
  = Some {| tx_power := ""; tx_power_high := ""; tx_power_low := "";
            card_name := "Alfa"; power_level := "";
            profile_vendor_id := ""; profile_device_id := "";
            profile_chipset := "" |}
  /\ tx_power
       (value_or
          (um_find "wlan0"
             (set_tx_overrides auto_level_line "wlan0" raw_power_store))
          no_tx_override) = "".
Proof.
  split; [reflexivity|].
  apply (auto_level_clears_power auto_level_line "wlan0" "auto"
           raw_power_store); [reflexivity|right; reflexivity].
Defined.

(** The sample adapter pinned to the profile of the fixed-power card. *)
Definition fixed_pin_card : WifiCardInfo :=
  build_wifi_card Sample.world "wlan0" [] fixed_pin_store
    default_wifi_card_profiles.

Lemma fixed_cards_show_no_figures_witness :
  card_power_mode fixed_pin_card = "FIXED"
  /\ to_upper (card_power_level fixed_pin_card)
     = card_power_level fixed_pin_card
  /\ power_lowest fixed_pin_card = "" /\ power_max fixed_pin_card = "".
Proof.
  pose proof (fixed_cards_show_no_figures Sample.world "wlan0" []
                fixed_pin_store default_wifi_card_profiles
                default_profiles_well_formed) as Hrun.
  cbv zeta in Hrun. fold fixed_pin_card in Hrun.
  destruct Hrun as [Hupper Hfixed].
  split; [reflexivity|]. split; [exact Hupper|].
  destruct (Hfixed eq_refl) as (Hlowest & _ & _ & _ & _ & Hmax & _).
  now split.
Defined.

End FurtherRuns.
